(** * fcps-study: the extraction-and-repair pipeline

    A shallow embedding of the parts of the repository that drive the
    vision model and repair its output:

    - [app/lib/gemini-client.ts]: token accounting, [analyzeImage],
      [generateJson] and the JSON repair function [sanitizeJsonResponse];
    - [app/lib/pdf-processor.ts]: [convertPdfPagesToImages];
    - [app/lib/question-extractor.ts]: [extractQuestionsFromPage] and
      [extractQuestionsFromPages];
    - [scripts/generate-explanations.ts]: the checkpointed backfill [main].

    JavaScript strings are sequences of UTF-16 code units; they are
    modelled as lists of numbers.  The external world (the model service,
    the PDF file, the file system) is a record of oracles indexed by the
    number of the request, and every effect of a run (requests, console
    output, progress callbacks, file writes) is appended to a trace. *)

From Stdlib Require Import ZArith NArith List Bool Lia FunInd.
From Stdlib Require Import Strings.String Strings.Ascii.
From stdpp Require Import base list.
Import ListNotations.

Set Warnings "-register-all".

Local Open Scope N_scope.
Local Open Scope list_scope.

(* ===================================================================== *)
(** ** Strings as code units *)
(* ===================================================================== *)

Module Str.

Definition str := list N.

Fixpoint of_string (s : string) : str :=
  match s with
  | EmptyString => []
  | String c s' => N_of_ascii c :: of_string s'
  end.

Definition c_tab : N := 9.
Definition c_lf : N := 10.
Definition c_cr : N := 13.
Definition c_quote : N := 34.
Definition c_backslash : N := 92.
Definition c_backtick : N := 96.

(** [WhiteSpace] and [LineTerminator] of ECMAScript, the characters that
    [String.prototype.trim] removes. *)
Definition is_js_space (c : N) : bool :=
  (c =? 9) || (c =? 10) || (c =? 11) || (c =? 12) || (c =? 13)
  || (c =? 32) || (c =? 160) || (c =? 5760)
  || ((8192 <=? c) && (c <=? 8202))
  || (c =? 8232) || (c =? 8233) || (c =? 8239) || (c =? 8287)
  || (c =? 12288) || (c =? 65279).

Fixpoint trimStart (s : str) : str :=
  match s with
  | [] => []
  | c :: rest => if is_js_space c then trimStart rest else s
  end.

Definition trimEnd (s : str) : str := rev (trimStart (rev s)).

Definition trim (s : str) : str := trimEnd (trimStart s).

Fixpoint startsWith (p s : str) : bool :=
  match p, s with
  | [], _ => true
  | _ :: _, [] => false
  | a :: p', b :: s' => (a =? b) && startsWith p' s'
  end.

Definition endsWith (p s : str) : bool := startsWith (rev p) (rev s).

(** [s.slice(n)] for [0 <= n]. *)
Definition slice_from (n : nat) (s : str) : str := skipn n s.

(** [s.slice(0, -n)]: everything but the last [n] code units, and the
    empty string when [s] is shorter than [n]. *)
Definition slice_drop_last (n : nat) (s : str) : str :=
  firstn (length s - n) s.

(** [s.substring(0, n)]. *)
Definition substring0 (n : nat) (s : str) : str := firstn n s.

End Str.
Import Str.

(* ===================================================================== *)
(** ** JSON.parse *)
(* ===================================================================== *)

(** [JSON.parse] is a built-in of the language.  It is modelled after the
    JSON grammar of ECMA-404 as ECMAScript reads it: a lexical grammar
    (tokens separated by optional white space) and a syntactic grammar
    over the tokens. *)

Module Json.

(** The decimal a number literal denotes: [(-1)^neg * mant * 10^exp10].
    The JavaScript value is the double nearest to it. *)
Record number := { neg : bool; mant : N; exp10 : Z }.

Inductive json :=
| JNull
| JBool (b : bool)
| JNumber (n : number)
| JString (s : str)
| JArray (elems : list json)
| JObject (members : list (str * json)).

(** A string token keeps the source text between its quotes ([raw])
    next to the decoded value. *)
Inductive token :=
| TLBrace | TRBrace | TLBracket | TRBracket | TComma | TColon
| TTrue | TFalse | TNull
| TString (raw value : str)
| TNumber (n : number).

Definition is_json_ws (c : N) : bool :=
  (c =? 9) || (c =? 10) || (c =? 13) || (c =? 32).

Definition is_digit (c : N) : bool := (48 <=? c) && (c <=? 57).

Definition hex_value (c : N) : option N :=
  if (48 <=? c) && (c <=? 57) then Some (c - 48)
  else if (65 <=? c) && (c <=? 70) then Some (c - 55)
  else if (97 <=? c) && (c <=? 102) then Some (c - 87)
  else None.

Definition hex4 (a b c d : N) : option N :=
  match hex_value a, hex_value b, hex_value c, hex_value d with
  | Some x, Some y, Some z, Some w => Some (((x * 16 + y) * 16 + z) * 16 + w)
  | _, _, _, _ => None
  end.

(** The character an escape letter stands for ([\uXXXX] apart). *)
Definition unescape (e : N) : option N :=
  if e =? 34 then Some 34          (* quote *)
  else if e =? 92 then Some 92     (* backslash *)
  else if e =? 47 then Some 47     (* slash *)
  else if e =? 98 then Some 8      (* b: backspace *)
  else if e =? 102 then Some 12    (* f: form feed *)
  else if e =? 110 then Some 10    (* n: line feed *)
  else if e =? 114 then Some 13    (* r: carriage return *)
  else if e =? 116 then Some 9     (* t: tab *)
  else None.

(** The characters of a string literal after its opening quote: the
    source text up to the closing quote, the decoded value, and the
    input after the closing quote. *)
Fixpoint lex_string (s : str) : option (str * str * str) :=
  match s with
  | [] => None
  | c :: rest =>
      if c =? c_quote then Some ([], [], rest)
      else if c =? c_backslash then
        match rest with
        | [] => None
        | e :: rest1 =>
            if e =? 117 then
              match rest1 with
              | h1 :: h2 :: h3 :: h4 :: rest2 =>
                  match hex4 h1 h2 h3 h4, lex_string rest2 with
                  | Some u, Some (raw, v, out) =>
                      Some (c :: e :: h1 :: h2 :: h3 :: h4 :: raw, u :: v, out)
                  | _, _ => None
                  end
              | _ => None
              end
            else
              match unescape e, lex_string rest1 with
              | Some u, Some (raw, v, out) => Some (c :: e :: raw, u :: v, out)
              | _, _ => None
              end
        end
      else if c <? 32 then None
      else
        match lex_string rest with
        | Some (raw, v, out) => Some (c :: raw, c :: v, out)
        | None => None
        end
  end.

(** The longest run of digits at the head of the input, read as a
    number on top of the accumulator. *)
Fixpoint lex_digits (acc : N) (s : str) : N * nat * str :=
  match s with
  | c :: rest =>
      if is_digit c then
        let '(v, k, out) := lex_digits (acc * 10 + (c - 48)) rest in (v, S k, out)
      else (acc, O, s)
  | [] => (acc, O, [])
  end.

(** [int]: a single [0], or a non-zero digit followed by digits. *)
Definition lex_int (s : str) : option (N * str) :=
  match s with
  | c :: rest =>
      if c =? 48 then Some (0, rest)
      else if is_digit c then
        let '(v, _, out) := lex_digits (c - 48) rest in Some (v, out)
      else None
  | [] => None
  end.

(** [frac]: nothing, or a dot followed by one or more digits. *)
Definition lex_frac (m : N) (s : str) : option (N * nat * str) :=
  match s with
  | c :: rest =>
      if c =? 46 then
        match lex_digits m rest with
        | (_, O, _) => None
        | (v, k, out) => Some (v, k, out)
        end
      else Some (m, O, s)
  | [] => Some (m, O, [])
  end.

(** [exp]: nothing, or [e]/[E], an optional sign and one or more digits. *)
Definition lex_exp (s : str) : option (Z * str) :=
  match s with
  | c :: rest =>
      if (c =? 101) || (c =? 69) then
        let '(sgn, rest1) :=
          match rest with
          | d :: rest' =>
              if d =? 43 then (1%Z, rest')
              else if d =? 45 then ((-1)%Z, rest')
              else (1%Z, rest)
          | [] => (1%Z, rest)
          end in
        match lex_digits 0 rest1 with
        | (_, O, _) => None
        | (v, _, out) => Some ((sgn * Z.of_N v)%Z, out)
        end
      else Some (0%Z, s)
  | [] => Some (0%Z, [])
  end.

Definition lex_number (s : str) : option (number * str) :=
  let '(sign, s1) :=
    match s with
    | c :: rest => if c =? 45 then (true, rest) else (false, s)
    | [] => (false, s)
    end in
  match lex_int s1 with
  | None => None
  | Some (i, s2) =>
      match lex_frac i s2 with
      | None => None
      | Some (m, k, s3) =>
          match lex_exp s3 with
          | None => None
          | Some (e, s4) =>
              Some ({| neg := sign; mant := m; exp10 := (e - Z.of_nat k)%Z |}, s4)
          end
      end
  end.

Definition lit_true : str := [116; 114; 117; 101].
Definition lit_false : str := [102; 97; 108; 115; 101].
Definition lit_null : str := [110; 117; 108; 108].

Definition cons_tok (t : token) (r : option (list token)) : option (list token) :=
  match r with Some ts => Some (t :: ts) | None => None end.

(** The first token of a non-empty text and the text after it; the
    token is [None] when a white-space character was skipped. *)
Definition next_token (s : str) : option (option token * str) :=
  match s with
  | [] => None
  | c :: rest =>
      if is_json_ws c then Some (None, rest)
      else if c =? 123 then Some (Some TLBrace, rest)
      else if c =? 125 then Some (Some TRBrace, rest)
      else if c =? 91 then Some (Some TLBracket, rest)
      else if c =? 93 then Some (Some TRBracket, rest)
      else if c =? 44 then Some (Some TComma, rest)
      else if c =? 58 then Some (Some TColon, rest)
      else if c =? c_quote then
        match lex_string rest with
        | Some (raw, v, out) => Some (Some (TString raw v), out)
        | None => None
        end
      else if (c =? 45) || is_digit c then
        match lex_number s with
        | Some (n, out) => Some (Some (TNumber n), out)
        | None => None
        end
      else if startsWith lit_true s then Some (Some TTrue, skipn 4 s)
      else if startsWith lit_false s then Some (Some TFalse, skipn 5 s)
      else if startsWith lit_null s then Some (Some TNull, skipn 4 s)
      else None
  end.

(** The token sequence of a text.  Every step consumes at least one
    code unit, so fuel above the length of the text is never used up
    (lemma [lex_enough] below). *)
Fixpoint lex (fuel : nat) (s : str) : option (list token) :=
  match fuel with
  | O => None
  | S f =>
      match s with
      | [] => Some []
      | _ :: _ =>
          match next_token s with
          | None => None
          | Some (None, out) => lex f out
          | Some (Some t, out) => cons_tok t (lex f out)
          end
      end
  end.

(** Recursive descent over the tokens.  A call either consumes a token
    or is followed at once by a call that does, so twice the number of
    tokens bounds the depth. *)
Fixpoint parse_value (fuel : nat) (ts : list token) : option (json * list token) :=
  match fuel with
  | O => None
  | S f =>
      match ts with
      | TNull :: r => Some (JNull, r)
      | TTrue :: r => Some (JBool true, r)
      | TFalse :: r => Some (JBool false, r)
      | TNumber n :: r => Some (JNumber n, r)
      | TString _ v :: r => Some (JString v, r)
      | TLBracket :: TRBracket :: r => Some (JArray [], r)
      | TLBracket :: r =>
          match parse_elements f r with
          | Some (vs, r') => Some (JArray vs, r')
          | None => None
          end
      | TLBrace :: TRBrace :: r => Some (JObject [], r)
      | TLBrace :: r =>
          match parse_members f r with
          | Some (ms, r') => Some (JObject ms, r')
          | None => None
          end
      | _ => None
      end
  end
with parse_elements (fuel : nat) (ts : list token) : option (list json * list token) :=
  match fuel with
  | O => None
  | S f =>
      match parse_value f ts with
      | Some (v, TComma :: r) =>
          match parse_elements f r with
          | Some (vs, r') => Some (v :: vs, r')
          | None => None
          end
      | Some (v, TRBracket :: r) => Some ([v], r)
      | _ => None
      end
  end
with parse_members (fuel : nat) (ts : list token) : option (list (str * json) * list token) :=
  match fuel with
  | O => None
  | S f =>
      match ts with
      | TString _ k :: TColon :: r =>
          match parse_value f r with
          | Some (v, TComma :: r') =>
              match parse_members f r' with
              | Some (ms, r'') => Some ((k, v) :: ms, r'')
              | None => None
              end
          | Some (v, TRBrace :: r') => Some ([(k, v)], r')
          | _ => None
          end
      | _ => None
      end
  end.

Definition parse_tokens (ts : list token) : option json :=
  match parse_value (2 * length ts + 2) ts with
  | Some (v, []) => Some v
  | _ => None
  end.

Definition tokens (s : str) : option (list token) := lex (S (length s)) s.

(** [JSON.parse(text)]: [None] is the [SyntaxError]. *)
Definition JSON_parse (s : str) : option json :=
  match tokens s with
  | Some ts => parse_tokens ts
  | None => None
  end.

End Json.
Import Json.

(* ===================================================================== *)
(** ** Values, errors and the data model *)
(* ===================================================================== *)

Module Data.

(** A JavaScript value that came out of [JSON.parse], or [undefined]. *)
Definition jsvalue := option json.

(** Whether the double nearest to the decimal is zero: the mantissa is
    zero, or the decimal is at most half the least positive double,
    [2^-1075]. *)
Definition number_is_zero (n : number) : bool :=
  (mant n =? 0)
  || ((exp10 n <? 0)%Z && (Z.of_N (mant n) * 2 ^ 1075 <=? 10 ^ (- exp10 n))%Z).

(** [ToBoolean]. *)
Definition truthy (v : jsvalue) : bool :=
  match v with
  | None => false
  | Some JNull => false
  | Some (JBool b) => b
  | Some (JNumber n) => negb (number_is_zero n)
  | Some (JString s) => match s with [] => false | _ :: _ => true end
  | Some (JArray _) => true
  | Some (JObject _) => true
  end.

Fixpoint str_eqb (a b : str) : bool :=
  match a, b with
  | [], [] => true
  | x :: a', y :: b' => (x =? y) && str_eqb a' b'
  | _, _ => false
  end.

(** The value of a key of a parsed object: the last member of that
    name, as [JSON.parse] lets later members overwrite earlier ones. *)
Fixpoint lookup_last (key : str) (ms : list (str * json)) : jsvalue :=
  match ms with
  | [] => None
  | (k, v) :: rest =>
      match lookup_last key rest with
      | Some v' => Some v'
      | None => if str_eqb k key then Some v else None
      end
  end.

Inductive error :=
| Error (message : str)
| TypeError.

Inductive result (A : Type) :=
| Ok (a : A)
| Throw (e : error).
Arguments Ok {A} a.
Arguments Throw {A} e.

(** [o.key] for a parsed value [o].  The keys this program reads
    ([questions], [questionText], [choices], [correctChoice],
    [explanation]) are no built-in property of a string, number,
    boolean, array or object, so the read is [undefined] on everything
    but an object that has the member, and raises on [null]. *)
Definition get_prop (o : json) (key : str) : result jsvalue :=
  match o with
  | JNull => Throw TypeError
  | JObject ms => Ok (lookup_last key ms)
  | _ => Ok None
  end.

Record TokenUsage := {
  promptTokens : Z;
  completionTokens : Z;
  totalTokens : Z
}.

Definition zeroUsage : TokenUsage :=
  {| promptTokens := 0; completionTokens := 0; totalTokens := 0 |}.

(** [response.usageMetadata], every part of which may be missing. *)
Record UsageMetadata := {
  promptTokenCount : option Z;
  candidatesTokenCount : option Z;
  totalTokenCount : option Z
}.

(** One [generateContent] request: the prompt, the inline images
    (base64 data and MIME type) and whether JSON output is requested. *)
Record Request := {
  req_prompt : str;
  req_images : list (str * str);
  req_json : bool
}.

Inductive ModelReply :=
| Rejected (e : error)
| Response (text : option str) (usageMetadata : option UsageMetadata).

(** question-extractor.ts *)
Record PageImage := {
  pi_pageNumber : Z;
  base64 : str;
  mimeType : str
}.

Record ExtractedQuestion := {
  eq_questionText : jsvalue;
  eq_choices : jsvalue;
  eq_correctChoice : jsvalue;
  pageNumber : Z;
  questionNumber : Z
}.

Record PageExtractionResult := {
  per_pageNumber : Z;
  per_questions : list ExtractedQuestion;
  per_usage : TokenUsage
}.

Record PaperExtractionResult := {
  questions : list ExtractedQuestion;
  totalUsage : TokenUsage;
  pagesProcessed : Z
}.

(** generate-explanations.ts.  The file is read with [JSON.parse] and
    used unchecked, so every field holds whatever value the file has;
    [None] is a missing field. *)
Record Question := {
  questionText : jsvalue;
  choices : jsvalue;
  correctChoice : jsvalue;
  orderIndex : jsvalue;
  explanation : jsvalue
}.

Record PaperData := {
  name : jsvalue;
  source : jsvalue;
  startPage : jsvalue;
  endPage : jsvalue;
  pd_questions : list Question;
  stats : jsvalue
}.

(** What a run does to the outside, in order. *)
Inductive Event :=
| EvModelCall (r : Request)
| EvRepair (text : str)
| EvWarn (pageNum : Z)
| EvProgress (current total pageQuestions : Z)
| EvDelay (ms : Z)
| EvExplain (idx : nat)
| EvError (idx : nat) (e : error)
| EvWrite (data : PaperData) (ok : bool)
| EvLog (line : str).

(** The outside world.  [model n r] is the reply of the model service
    to the n-th request, [r]; [pdf n] the pages (base64 PNG data, in
    order) that the n-th reading of the PDF file yields, or the error
    it raises; [write_error n] the error of the n-th write of the
    output file, if it fails; [apiKey] whether [GEMINI_API_KEY] is set.
    The two prompt texts are left open, as nothing below depends on
    their wording: [extractionPrompt] is the constant
    [QUESTION_EXTRACTION_PROMPT], and [buildPrompt] the function of
    that name, which raises when the question has not the shape it
    expects. *)
Record World := {
  model : nat -> Request -> ModelReply;
  pdf : nat -> result (list str);
  write_error : nat -> option error;
  apiKey : bool;
  extractionPrompt : str;
  buildPrompt : Question -> result str
}.

(** The state every run threads: the usage the client has accumulated,
    how many requests of each kind were made, and the trace. *)
Record Sys := {
  cumulativeUsage : TokenUsage;
  calls : nat;
  reads : nat;
  writes : nat;
  trace : list Event
}.

Definition initSys : Sys :=
  {| cumulativeUsage := zeroUsage; calls := 0; reads := 0; writes := 0; trace := [] |}.

(** Computations over a state [S] that return or raise. *)
Definition M (S A : Type) : Type := S -> result A * S.

Definition ret {S A} (a : A) : M S A := fun s => (Ok a, s).
Definition throw {S A} (e : error) : M S A := fun s => (Throw e, s).
Definition bind {S A B} (m : M S A) (k : A -> M S B) : M S B :=
  fun s =>
    match m s with
    | (Ok a, s') => k a s'
    | (Throw e, s') => (Throw e, s')
    end.
(** [try { m } catch (e) { h e }] *)
Definition try_catch {S A} (m : M S A) (h : error -> M S A) : M S A :=
  fun s =>
    match m s with
    | (Ok a, s') => (Ok a, s')
    | (Throw e, s') => h e s'
    end.
Definition lift {S A} (r : result A) : M S A := fun s => (r, s).
Definition get {S} : M S S := fun s => (Ok s, s).
Definition modify {S} (f : S -> S) : M S unit := fun s => (Ok tt, f s).

Definition add_event (e : Event) (s : Sys) : Sys :=
  {| cumulativeUsage := cumulativeUsage s; calls := calls s;
     reads := reads s; writes := writes s;
     trace := trace s ++ [e] |}.

Definition emit (e : Event) : M Sys unit := modify (add_event e).

End Data.
Import Data.

Declare Scope m_scope.
Delimit Scope m_scope with M.
Notation "x <- m ;; k" := (bind m (fun x => k))
  (at level 100, m at next level, right associativity) : m_scope.
Notation "m ;;; k" := (bind m (fun _ => k))
  (at level 100, right associativity) : m_scope.

Local Open Scope m_scope.

(* ===================================================================== *)
(** ** gemini-client.ts *)
(* ===================================================================== *)

Module Gemini.

(** The body of the [while] loop of [sanitizeJsonResponse], from
    position [i] on: [prev] is [cleaned[i - 1]], or [None] at [i = 0];
    the result is what is appended to [result]. *)
Fixpoint scan (prev : option N) (inString : bool) (s : str) : str :=
  match s with
  | [] => []
  | char :: rest =>
      if (char =? c_quote)
         && match prev with
            | None => true
            | Some p => negb (p =? c_backslash)
            end
      then char :: scan (Some char) (negb inString) rest
      else if inString then
        (if char =? c_lf then [c_backslash; 110]
         else if char =? c_cr then [c_backslash; 114]
         else if char =? c_tab then [c_backslash; 116]
         else [char])
        ++ scan (Some char) inString rest
      else char :: scan (Some char) inString rest
  end.

Definition fence_json : str := [96; 96; 96; 106; 115; 111; 110].
Definition fence : str := [96; 96; 96].

Definition strip_fences (cleaned : str) : str :=
  let cleaned :=
    if startsWith fence_json cleaned then slice_from 7 cleaned
    else if startsWith fence cleaned then slice_from 3 cleaned
    else cleaned in
  if endsWith fence cleaned then slice_drop_last 3 cleaned else cleaned.

Definition sanitizeJsonResponse (text : str) : str :=
  let cleaned := trim text in
  let cleaned := strip_fences cleaned in
  let cleaned := trim cleaned in
  scan None false cleaned.

(** [x || 0] on an optional count. *)
Definition or0 (x : option Z) : Z :=
  match x with Some n => n | None => 0%Z end.

Definition usage_of (um : option UsageMetadata) : TokenUsage :=
  match um with
  | Some u =>
      {| promptTokens := or0 (promptTokenCount u);
         completionTokens := or0 (candidatesTokenCount u);
         totalTokens := or0 (totalTokenCount u) |}
  | None => zeroUsage
  end.

(** [response.text || ""] *)
Definition text_of (t : option str) : str :=
  match t with Some s => s | None => [] end.

Definition updateUsage (usage : TokenUsage) : M Sys unit :=
  fun s =>
    (Ok tt,
     {| cumulativeUsage :=
          {| promptTokens := promptTokens (cumulativeUsage s) + promptTokens usage;
             completionTokens :=
               completionTokens (cumulativeUsage s) + completionTokens usage;
             totalTokens := totalTokens (cumulativeUsage s) + totalTokens usage |}%Z;
        calls := calls s; reads := reads s; writes := writes s;
        trace := trace s |}).

(** [await this.ai.models.generateContent(...)]: the request goes out
    and the world answers, or the promise rejects. *)
Definition generateContent (w : World) (r : Request)
  : M Sys (option str * option UsageMetadata) :=
  fun s =>
    let s' := {| cumulativeUsage := cumulativeUsage s; calls := S (calls s);
                 reads := reads s; writes := writes s;
                 trace := trace s ++ [EvModelCall r] |} in
    match model w (calls s) r with
    | Rejected e => (Throw e, s')
    | Response text um => (Ok (text, um), s')
    end.

Definition parse_failure : str :=
  of_string "Failed to parse Gemini response as JSON: ".

Definition ellipsis : str := [46; 46; 46].

Definition analyzeImage (w : World) (imageBase64 mime prompt : str)
  : M Sys (json * TokenUsage) :=
  response <- generateContent w
    {| req_prompt := prompt; req_images := [(imageBase64, mime)];
       req_json := true |} ;;
  let text := text_of (fst response) in
  let usage := usage_of (snd response) in
  updateUsage usage ;;;
  match JSON_parse text with
  | Some data => ret (data, usage)
  | None => throw (Error (parse_failure ++ text))
  end.

(** The call of [sanitizeJsonResponse], noted in the trace. *)
Definition call_sanitize (text : str) : M Sys str :=
  emit (EvRepair text) ;;;
  ret (sanitizeJsonResponse text).

Definition generateJson (w : World) (prompt : str) : M Sys (json * TokenUsage) :=
  response <- generateContent w
    {| req_prompt := prompt; req_images := []; req_json := true |} ;;
  let text := text_of (fst response) in
  let usage := usage_of (snd response) in
  updateUsage usage ;;;
  match JSON_parse text with
  | Some data => ret (data, usage)
  | None =>
      sanitized <- call_sanitize text ;;
      match JSON_parse sanitized with
      | Some data => ret (data, usage)
      | None =>
          throw (Error (parse_failure ++ substring0 500 text ++ ellipsis))
      end
  end.

Definition missing_key : str :=
  of_string "GEMINI_API_KEY environment variable is not set".

(** [getGeminiClient()]: the client is a singleton whose only state is
    the cumulative usage, kept in [Sys]. *)
Definition getGeminiClient (w : World) : M Sys unit :=
  if apiKey w then ret tt else throw (Error missing_key).

End Gemini.
Import Gemini.

(* ===================================================================== *)
(** ** pdf-processor.ts *)
(* ===================================================================== *)

Module PdfProcessor.

Definition image_png : str := of_string "image/png".

(** The [for await] loop: every page of the document is walked, and an
    image is kept for the pages in [pageSet]. *)
Fixpoint collect_pages (pageSet : list Z) (pageIndex : Z) (document : list str)
  : list PageImage :=
  match document with
  | [] => []
  | image :: rest =>
      (if existsb (Z.eqb pageIndex) pageSet
       then [{| pi_pageNumber := pageIndex; base64 := image; mimeType := image_png |}]
       else [])
      ++ collect_pages pageSet (pageIndex + 1) rest
  end.

(** [images.sort((a, b) => a.pageNumber - b.pageNumber)], a stable sort. *)
Fixpoint insert_page (x : PageImage) (l : list PageImage) : list PageImage :=
  match l with
  | [] => [x]
  | y :: l' =>
      if (pi_pageNumber x <=? pi_pageNumber y)%Z then x :: l
      else y :: insert_page x l'
  end.

Definition sort_pages (l : list PageImage) : list PageImage :=
  fold_right insert_page [] l.

(** Reading and rendering the file; an error is logged and raised again. *)
Definition read_pdf (w : World) : M Sys (list str) :=
  fun s =>
    (pdf w (reads s),
     {| cumulativeUsage := cumulativeUsage s; calls := calls s;
        reads := S (reads s); writes := writes s; trace := trace s |}).

Definition convertPdfPagesToImages (w : World) (pageNumbers : list Z)
  : M Sys (list PageImage) :=
  document <- try_catch (read_pdf w)
                (fun err =>
                   emit (EvLog (of_string "Failed to convert PDF pages:")) ;;;
                   throw err) ;;
  let images := collect_pages pageNumbers 1 document in
  ret (sort_pages images).

End PdfProcessor.
Import PdfProcessor.

(* ===================================================================== *)
(** ** question-extractor.ts *)
(* ===================================================================== *)

Module Extractor.

Definition key_questions : str := of_string "questions".
Definition key_questionText : str := of_string "questionText".
Definition key_choices : str := of_string "choices".
Definition key_correctChoice : str := of_string "correctChoice".

(** [data.questions || []], on which [.map] is then called: anything
    truthy that is no array has no such method. *)
Definition questions_of (data : json) : result (list json) :=
  match get_prop data key_questions with
  | Throw e => Throw e
  | Ok v =>
      if truthy v then
        match v with
        | Some (JArray l) => Ok l
        | _ => Throw TypeError
        end
      else Ok []
  end.

(** [.map((q, idx) => ({ ..., questionNumber: idx + 1 }))] from index
    [idx] on. *)
Fixpoint map_questions (pageNum : Z) (idx : Z) (qs : list json)
  : result (list ExtractedQuestion) :=
  match qs with
  | [] => Ok []
  | q :: rest =>
      match get_prop q key_questionText, get_prop q key_choices,
            get_prop q key_correctChoice with
      | Ok t, Ok c, Ok k =>
          match map_questions pageNum (idx + 1) rest with
          | Ok l =>
              Ok ({| eq_questionText := t; eq_choices := c; eq_correctChoice := k;
                     pageNumber := pageNum; questionNumber := idx + 1 |} :: l)
          | Throw e => Throw e
          end
      | Throw e, _, _ => Throw e
      | _, Throw e, _ => Throw e
      | _, _, Throw e => Throw e
      end
  end.

Definition extractQuestionsFromPage (w : World) (pageImage : PageImage)
  : M Sys PageExtractionResult :=
  getGeminiClient w ;;;
  r <- analyzeImage w (base64 pageImage) (mimeType pageImage) (extractionPrompt w) ;;
  let '(data, usage) := r in
  qs <- lift (questions_of data) ;;
  questions <- lift (map_questions (pi_pageNumber pageImage) 0 qs) ;;
  ret {| per_pageNumber := pi_pageNumber pageImage;
         per_questions := questions;
         per_usage := usage |}.

Definition addUsage (a b : TokenUsage) : TokenUsage :=
  {| promptTokens := promptTokens a + promptTokens b;
     completionTokens := completionTokens a + completionTokens b;
     totalTokens := totalTokens a + totalTokens b |}%Z.

(** The two locals the page loop updates. *)
Record Acc := {
  allQuestions : list ExtractedQuestion;
  acc_totalUsage : TokenUsage
}.

(** The body of the page loop; [continue] is its early return. *)
Definition page_body (w : World) (startPage totalPages : Z) (onProgress : bool)
    (acc : Acc) (pageNum : Z) : M Sys Acc :=
  pageImages <- convertPdfPagesToImages w [pageNum] ;;
  match pageImages with
  | [] =>
      emit (EvWarn pageNum) ;;;
      ret acc
  | pageImage :: _ =>
      result <- extractQuestionsFromPage w pageImage ;;
      let acc' :=
        {| allQuestions := allQuestions acc ++ per_questions result;
           acc_totalUsage := addUsage (acc_totalUsage acc) (per_usage result) |} in
      (if onProgress then
         emit (EvProgress (pageNum - startPage + 1) totalPages
                 (Z.of_nat (length (per_questions result))))
       else ret tt) ;;;
      emit (EvDelay 100) ;;;
      ret acc'
  end.

(** [for (let pageNum = ...; pageNum <= endPage; pageNum++)] with [n]
    iterations left. *)
Fixpoint for_pages (body : Acc -> Z -> M Sys Acc) (n : nat) (pageNum : Z) (acc : Acc)
  : M Sys Acc :=
  match n with
  | O => ret acc
  | S n' =>
      acc' <- body acc pageNum ;;
      for_pages body n' (pageNum + 1) acc'
  end.

(** [allQuestions.forEach((q, idx) => { q.questionNumber = idx + 1 })]
    from index [idx] on. *)
Fixpoint renumber (idx : Z) (qs : list ExtractedQuestion) : list ExtractedQuestion :=
  match qs with
  | [] => []
  | q :: rest =>
      {| eq_questionText := eq_questionText q; eq_choices := eq_choices q;
         eq_correctChoice := eq_correctChoice q; pageNumber := pageNumber q;
         questionNumber := idx + 1 |} :: renumber (idx + 1) rest
  end.

(** [onProgress] is whether the caller passed a callback; its calls are
    the [EvProgress] events of the trace. *)
Definition extractQuestionsFromPages (w : World) (startPage endPage : Z)
    (onProgress : bool) : M Sys PaperExtractionResult :=
  let totalPages := (endPage - startPage + 1)%Z in
  acc <- for_pages (page_body w startPage totalPages onProgress)
           (Z.to_nat totalPages) startPage
           {| allQuestions := []; acc_totalUsage := zeroUsage |} ;;
  ret {| questions := renumber 0 (allQuestions acc);
         totalUsage := acc_totalUsage acc;
         pagesProcessed := totalPages |}.

End Extractor.
Import Extractor.

(* ===================================================================== *)
(** ** generate-explanations.ts *)
(* ===================================================================== *)

Module Explain.

Definition key_explanation : str := of_string "explanation".

(** What [parseInt] returns. *)
Inductive jsint :=
| NaN
| Int (z : Z).

Record Options := {
  batchSize : jsint;
  resume : bool;
  skipExisting : bool
}.

(** What reading and parsing the input file and the output file give. *)
Record Files := {
  inputFile : result PaperData;
  outputFile : result PaperData
}.

(** The variables of [main] that the loop updates, and the system. *)
Record Run := {
  data : PaperData;
  processed : Z;
  run_totalTokens : Z;
  errors : Z;
  sys : Sys
}.

Definition liftSys {A} (m : M Sys A) : M Run A :=
  fun r =>
    let '(a, s') := m (sys r) in
    (a, {| data := data r; processed := processed r;
           run_totalTokens := run_totalTokens r; errors := errors r;
           sys := s' |}).

Definition generateExplanation (w : World) (question : Question)
  : M Sys (jsvalue * Z) :=
  getGeminiClient w ;;;
  prompt <- lift (buildPrompt w question) ;;
  response <- generateJson w prompt ;;
  explanation <- lift (get_prop (fst response) key_explanation) ;;
  ret (explanation, totalTokens (snd response)).

(** [fs.writeFile(outputPath, JSON.stringify(data, null, 2))]: the
    event records the structure that is written. *)
Definition saveCheckpoint (w : World) (d : PaperData) : M Sys unit :=
  fun s =>
    let r := write_error w (writes s) in
    let s' := {| cumulativeUsage := cumulativeUsage s; calls := calls s;
                 reads := reads s; writes := S (writes s);
                 trace := trace s ++ [EvWrite d (match r with None => true | Some _ => false end)] |} in
    match r with
    | None => (Ok tt, s')
    | Some e => (Throw e, s')
    end.

Definition is_null (v : jsvalue) : bool :=
  match v with Some JNull => true | _ => false end.

(** The loop that fills [questionsToProcess], from index [i] on. *)
Fixpoint questionsToProcess_from (skipExisting : bool) (i : nat) (qs : list Question)
  : list nat :=
  match qs with
  | [] => []
  | q :: rest =>
      if skipExisting && truthy (explanation q) then
        questionsToProcess_from skipExisting (S i) rest
      else if is_null (correctChoice q) then
        questionsToProcess_from skipExisting (S i) rest
      else i :: questionsToProcess_from skipExisting (S i) rest
  end.

Definition questionsToProcess (skipExisting : bool) (d : PaperData) : list nat :=
  questionsToProcess_from skipExisting 0 (pd_questions d).

Definition set_explanation (e : jsvalue) (q : Question) : Question :=
  {| questionText := questionText q; choices := choices q;
     correctChoice := correctChoice q; orderIndex := orderIndex q;
     explanation := e |}.

Definition set_questions (qs : list Question) (d : PaperData) : PaperData :=
  {| name := name d; source := source d; startPage := startPage d;
     endPage := endPage d; pd_questions := qs; stats := stats d |}.

(** [data.questions[idx].explanation = e] *)
Definition assign_explanation (idx : nat) (e : jsvalue) : M Run unit :=
  fun r =>
    match pd_questions (data r) !! idx with
    | None => (Throw TypeError, r)
    | Some q =>
        (Ok tt,
         {| data := set_questions (<[idx := set_explanation e q]> (pd_questions (data r)))
                      (data r);
            processed := processed r; run_totalTokens := run_totalTokens r;
            errors := errors r; sys := sys r |})
    end.

Definition add_tokens (n : Z) : M Run unit :=
  modify (fun r =>
    {| data := data r; processed := processed r;
       run_totalTokens := (run_totalTokens r + n)%Z; errors := errors r;
       sys := sys r |}).

Definition incr_processed : M Run unit :=
  modify (fun r =>
    {| data := data r; processed := (processed r + 1)%Z;
       run_totalTokens := run_totalTokens r; errors := errors r;
       sys := sys r |}).

Definition incr_errors : M Run unit :=
  modify (fun r =>
    {| data := data r; processed := processed r;
       run_totalTokens := run_totalTokens r; errors := (errors r + 1)%Z;
       sys := sys r |}).

(** [processed % batchSize === 0], for [processed >= 1]: the remainder
    by zero or by [NaN] is [NaN]. *)
Definition checkpoint_due (processed : Z) (batchSize : jsint) : bool :=
  match batchSize with
  | NaN => false
  | Int 0 => false
  | Int b => (Z.rem processed b =? 0)%Z
  end.

(** The body of the loop over [questionsToProcess]. *)
Definition process_question (w : World) (batchSize : jsint) (idx : nat) : M Run unit :=
  try_catch
    (r0 <- get ;;
     match pd_questions (data r0) !! idx with
     | None => throw TypeError
     | Some question =>
         liftSys (emit (EvExplain idx)) ;;;
         result <- liftSys (generateExplanation w question) ;;
         assign_explanation idx (fst result) ;;;
         add_tokens (snd result) ;;;
         incr_processed ;;;
         r1 <- get ;;
         if checkpoint_due (processed r1) batchSize
         then liftSys (saveCheckpoint w (data r1))
         else ret tt
     end)
    (fun err =>
       incr_errors ;;;
       liftSys (emit (EvError idx err))).

Fixpoint for_each (body : nat -> M Run unit) (l : list nat) : M Run unit :=
  match l with
  | [] => ret tt
  | idx :: rest => body idx ;;; for_each body rest
  end.

(** How [main] ends: [Exited] before the loop (no API key, no readable
    input, or nothing to process), [Finished] after it; [code] is the
    exit code of the process. *)
Inductive MainResult :=
| Exited (code : Z) (s : Sys)
| Finished (code : Z) (r : Run).

Definition load (opts : Options) (files : Files) : result PaperData :=
  if resume opts then
    match outputFile files with
    | Ok d => Ok d
    | Throw _ => inputFile files
    end
  else inputFile files.

Definition main (w : World) (opts : Options) (files : Files) (s : Sys) : MainResult :=
  if negb (apiKey w) then Exited 1 s
  else
    match load opts files with
    | Throw _ => Exited 1 s
    | Ok d =>
        let pending := questionsToProcess (skipExisting opts) d in
        match pending with
        | [] => Exited 0 s
        | _ :: _ =>
            let r0 := {| data := d; processed := 0; run_totalTokens := 0;
                         errors := 0; sys := s |} in
            match (for_each (process_question w (batchSize opts)) pending ;;;
                   r <- get ;;
                   liftSys (saveCheckpoint w (data r))) r0 with
            | (Ok _, r) => Finished 0 r
            | (Throw _, r) => Finished 1 r
            end
        end
    end.

End Explain.
Import Explain.

(* ===================================================================== *)
(** ** Vocabulary of the statements *)
(* ===================================================================== *)

Module Spec.

(** A token whose source text does not end in a backslash: the closing
    quote of a string literal is not preceded by one. *)
Definition clean_token (t : token) : bool :=
  match t with
  | TString raw _ =>
      match last raw with
      | Some c => negb (c =? c_backslash)
      | None => true
      end
  | _ => true
  end.

(** No string literal of the text has a backslash right before its
    closing quote. *)
Definition closing_quotes_clean (j : str) : bool :=
  match tokens j with
  | Some ts => forallb clean_token ts
  | None => false
  end.

(** No string literal of the text holds a raw line feed. *)
Definition no_raw_newline (j : str) : bool :=
  match tokens j with
  | Some ts =>
      forallb (fun t => match t with
                        | TString raw _ => negb (existsb (N.eqb c_lf) raw)
                        | _ => true
                        end) ts
  | None => false
  end.



(** The text of an object with one string field, the field content
    written as it is between the quotes. *)
Definition object_text (key content : str) : str :=
  [123; 34] ++ key ++ [34; 58; 34] ++ content ++ [34; 125].

Definition is_repair (e : Event) : bool :=
  match e with EvRepair _ => true | _ => false end.

(** The first arguments of the progress callbacks of a trace. *)
Fixpoint progress_of (tr : list Event) : list (Z * Z * Z) :=
  match tr with
  | [] => []
  | EvProgress c t n :: rest => (c, t, n) :: progress_of rest
  | _ :: rest => progress_of rest
  end.

(** For every page of a trace, in order, its position in the range: the
    first argument of its progress callback, or the position of the page
    that was warned about. *)
Fixpoint page_marks (startPage : Z) (tr : list Event) : list Z :=
  match tr with
  | [] => []
  | EvProgress c _ _ :: rest => c :: page_marks startPage rest
  | EvWarn p :: rest => (p - startPage + 1)%Z :: page_marks startPage rest
  | _ :: rest => page_marks startPage rest
  end.

Fixpoint warned_of (tr : list Event) : list Z :=
  match tr with
  | [] => []
  | EvWarn p :: rest => p :: warned_of rest
  | _ :: rest => warned_of rest
  end.

(** The structures handed to the file system, in order. *)
Fixpoint writes_of (tr : list Event) : list PaperData :=
  match tr with
  | [] => []
  | EvWrite d _ :: rest => d :: writes_of rest
  | _ :: rest => writes_of rest
  end.

(** The questions for which an explanation was requested, in order. *)
Fixpoint explained_of (tr : list Event) : list nat :=
  match tr with
  | [] => []
  | EvExplain i :: rest => i :: explained_of rest
  | _ :: rest => explained_of rest
  end.

(** The questions an error was logged for, in order. *)
Fixpoint errors_of (tr : list Event) : list nat :=
  match tr with
  | [] => []
  | EvError i _ :: rest => i :: errors_of rest
  | _ :: rest => errors_of rest
  end.

(** [1; 2; ...; n] *)
Definition one_to (n : nat) : list Z := map Z.of_nat (seq 1 n).

(** A character that is part of no token: no quote, bracket, brace,
    comma, colon, digit, sign, dot, or letter of a number or literal. *)
Definition junk (c : N) : bool :=
  negb ((c =? 34) || (c =? 123) || (c =? 125) || (c =? 91) || (c =? 93)
        || (c =? 44) || (c =? 58) || (c =? 45) || (c =? 43) || (c =? 46)
        || (c =? 101) || (c =? 69) || is_digit c
        || (c =? 116) || (c =? 102) || (c =? 110)
        || (c =? 114) || (c =? 117) || (c =? 97) || (c =? 108) || (c =? 115)).

(** A character of a number literal. *)
Definition is_numchar (c : N) : bool :=
  is_digit c || (c =? 45) || (c =? 43) || (c =? 46) || (c =? 101) || (c =? 69).

(** A lexer result with one more character left over. *)
Definition out_snoc {A} (c : N) (r : option (A * str)) : option (A * str) :=
  match r with
  | Some (a, out) => Some (a, out ++ [c])
  | None => None
  end.

(** Neither a quote nor a backslash. *)
Definition noqb (c : N) : bool := negb (c =? c_quote) && negb (c =? c_backslash).



(** *** The backfill run, question by question *)

Definition text_request (prompt : str) : Request :=
  {| req_prompt := prompt; req_images := []; req_json := true |}.

(** What [generateExplanation] returns when the model answers [reply]:
    the reply parsed, after a repair if need be, and its [explanation]
    read. *)
Definition explain_reply (reply : ModelReply) : result (jsvalue * Z) :=
  match reply with
  | Rejected e => Throw e
  | Response t um =>
      let text := text_of t in
      let finish (d : json) :=
        match get_prop d key_explanation with
        | Ok e => Ok (e, totalTokens (usage_of um))
        | Throw err => Throw err
        end in
      match JSON_parse text with
      | Some d => finish d
      | None =>
          match JSON_parse (sanitizeJsonResponse text) with
          | Some d => finish d
          | None => Throw (Error (parse_failure ++ substring0 500 text ++ ellipsis))
          end
      end
  end.

(** The outcome of the generation for question [q] when [n] requests
    have been made before, and the number of requests it makes. *)
Definition outcome (w : World) (q : Question) (n : nat) : result (jsvalue * Z) :=
  if apiKey w then
    match buildPrompt w q with
    | Ok p => explain_reply (model w n (text_request p))
    | Throw e => Throw e
    end
  else Throw (Error missing_key).

Definition calls_made (w : World) (q : Question) : nat :=
  if apiKey w then
    match buildPrompt w q with
    | Ok _ => 1
    | Throw _ => 0
    end
  else 0.

(** The outcomes for the questions of indices [l], in order, from
    request number [n] on. *)
Fixpoint outcomes (w : World) (qs : list Question) (n : nat) (l : list nat)
  : list (nat * result (jsvalue * Z)) :=
  match l with
  | [] => []
  | idx :: rest =>
      match qs !! idx with
      | Some q => (idx, outcome w q n) :: outcomes w qs (n + calls_made w q) rest
      | None => (idx, Throw TypeError) :: outcomes w qs n rest
      end
  end.

(** The generations that succeeded, with the explanation they got. *)
Fixpoint successes (os : list (nat * result (jsvalue * Z))) : list (nat * jsvalue) :=
  match os with
  | [] => []
  | (i, Ok (e, _)) :: rest => (i, e) :: successes rest
  | (_, Throw _) :: rest => successes rest
  end.

(** The questions whose generation failed. *)
Fixpoint failures (os : list (nat * result (jsvalue * Z))) : list nat :=
  match os with
  | [] => []
  | (_, Ok _) :: rest => failures rest
  | (i, Throw _) :: rest => i :: failures rest
  end.

Fixpoint outcome_of (i : nat) (os : list (nat * result (jsvalue * Z)))
  : option (result (jsvalue * Z)) :=
  match os with
  | [] => None
  | (j, r) :: rest => if Nat.eqb i j then Some r else outcome_of i rest
  end.

(** The paper data with the explanation of question [idx] set to [e]. *)
Definition assign (idx : nat) (e : jsvalue) (d : PaperData) : PaperData :=
  match pd_questions d !! idx with
  | Some q => set_questions (<[idx := set_explanation e q]> (pd_questions d)) d
  | None => d
  end.

Definition apply_steps (steps : list (nat * jsvalue)) (d : PaperData) : PaperData :=
  fold_left (fun d s => assign (fst s) (snd s) d) steps d.

(** The paper data after the first, the second, ... of the steps. *)
Fixpoint snapshots (d : PaperData) (steps : list (nat * jsvalue)) : list PaperData :=
  match steps with
  | [] => []
  | s :: rest => assign (fst s) (snd s) d :: snapshots (assign (fst s) (snd s) d) rest
  end.

(** Of the snapshots after success number [p + 1], [p + 2], ..., those
    whose number is an exact multiple of the batch size. *)
Fixpoint at_multiples (p : Z) (b : jsint) (snaps : list PaperData) : list PaperData :=
  match snaps with
  | [] => []
  | d :: rest =>
      (if checkpoint_due (p + 1) b then [d] else []) ++ at_multiples (p + 1) b rest
  end.

(** Whether question [q] is pending. *)
Definition is_pending (skipExisting : bool) (q : Question) : bool :=
  negb (skipExisting && truthy (explanation q)) && negb (is_null (correctChoice q)).

(** *** The extraction run, page by page *)

(** [pr] is what the extraction of some image of its page returned. *)
Definition extracted (w : World) (pr : PageExtractionResult) : Prop :=
  exists img s1 s2,
    pi_pageNumber img = per_pageNumber pr
    /\ extractQuestionsFromPage w img s1 = (Ok pr, s2).

(** The arguments of the progress callback for a page result. *)
Definition progress_args (startPage totalPages : Z) (pr : PageExtractionResult)
  : Z * Z * Z :=
  ((per_pageNumber pr - startPage + 1)%Z, totalPages,
   Z.of_nat (length (per_questions pr))).

(** The pages [p], [p + 1], ..., [n] of them. *)
Fixpoint pages_from (p : Z) (n : nat) : list Z :=
  match n with
  | O => []
  | S n' => p :: pages_from (p + 1) n'
  end.

(** Two questions that differ at most in their number. *)
Definition same_question (a b : ExtractedQuestion) : Prop :=
  eq_questionText a = eq_questionText b /\ eq_choices a = eq_choices b
  /\ eq_correctChoice a = eq_correctChoice b /\ pageNumber a = pageNumber b.

(** Events of the gateway: requests and repairs. *)
Definition gateway_event (e : Event) : bool :=
  match e with EvModelCall _ | EvRepair _ => true | _ => false end.

(** Whether the question at index [i] is pending. *)
Definition pending_at (skipExisting : bool) (qs : list Question) (i : nat) : bool :=
  match qs !! i with
  | Some q => is_pending skipExisting q
  | None => false
  end.

(** The system as [main] leaves it. *)
Definition final_sys (m : MainResult) : Sys :=
  match m with
  | Exited _ s => s
  | Finished _ r => sys r
  end.

(** The question a run leaves at index [i], given the outcomes. *)
Definition updated (os : list (nat * result (jsvalue * Z))) (i : nat) (q : Question)
  : Question :=
  match outcome_of i os with
  | Some (Ok (e, _)) => set_explanation e q
  | _ => q
  end.

(** The explanation of the question at index [i], if there is one. *)
Definition explanation_at (d : PaperData) (i : nat) : option jsvalue :=
  explanation <$> pd_questions d !! i.

(** The request [analyzeImage] sends for a page image. *)
Definition image_request (w : World) (img : PageImage) : Request :=
  {| req_prompt := extractionPrompt w;
     req_images := [(base64 img, mimeType img)];
     req_json := true |}.


End Spec.
Import Spec.

(* ===================================================================== *)
(** ** Sample inputs *)
(* ===================================================================== *)

Module Examples.

(** A valid JSON text: an array of the one-backslash string and 1, with
    a line break after the comma. *)
Definition backslash_array : str := [91; 34; 92; 92; 34; 44; 10; 49; 93].

(** A valid JSON text with line breaks and an escaped quote. *)
Definition pretty_array : str :=
  [91; 10; 32; 34; 97; 92; 34; 98; 34; 44; 10; 32; 49; 10; 93; 10].

(** An empty question list in a fenced code block. *)
Definition fenced_empty_page : str :=
  fence_json ++ [10; 123; 34] ++ key_questions ++ [34; 58; 91; 93; 125; 10] ++ fence.

Definition no_usage : option UsageMetadata := None.

(** A world whose model always answers [text]. *)
Definition constant_world (text : str) : World :=
  {| model := fun _ _ => Response (Some text) no_usage;
     pdf := fun _ => Ok [[112; 49]];
     write_error := fun _ => None;
     apiKey := true;
     extractionPrompt := [];
     buildPrompt := fun _ => Ok [] |}.

Definition page1 : PageImage :=
  {| pi_pageNumber := 1; base64 := [112; 49]; mimeType := image_png |}.

(** The text of an object with the one field [explanation]. *)
Definition explanation_text (content : str) : str := object_text key_explanation content.

Definition because : str := of_string "because".

Definition some_usage : option UsageMetadata :=
  Some {| promptTokenCount := Some 10%Z; candidatesTokenCount := Some 2%Z;
          totalTokenCount := Some 12%Z |}.

(** A world whose model explains every question but rejects its third
    request. *)
Definition third_fails_world : World :=
  {| model := fun n _ =>
       if Nat.eqb n 2 then Rejected (Error (of_string "503"))
       else Response (Some (explanation_text because)) some_usage;
     pdf := fun _ => Ok [];
     write_error := fun _ => None;
     apiKey := true;
     extractionPrompt := [];
     buildPrompt := fun _ => Ok [] |}.

Definition one : json := JNumber {| neg := false; mant := 1; exp10 := 0 |}.

Definition question (correct expl : jsvalue) : Question :=
  {| questionText := Some (JString [81]); choices := Some (JArray []);
     correctChoice := correct; orderIndex := Some one; explanation := expl |}.

Definition paper (qs : list Question) : PaperData :=
  {| name := Some (JString [80]); source := None; startPage := None;
     endPage := None; pd_questions := qs; stats := None |}.

(** Five questions with a marked answer and one without. *)
Definition paper5 : PaperData :=
  paper (repeat (question (Some one) None) 5 ++ [question (Some JNull) None]).

Definition paper23 : PaperData := paper (repeat (question (Some one) None) 23).

(** No question has a marked answer. *)
Definition paper_unmarked : PaperData :=
  paper [question (Some JNull) None; question (Some JNull) None].

Definition options (b : Z) : Options :=
  {| batchSize := Int b; resume := false; skipExisting := true |}.

Definition files_of (d : PaperData) : Files :=
  {| inputFile := Ok d; outputFile := Throw (Error (of_string "ENOENT")) |}.

(** The text of a page with [n] empty question objects. *)
Definition page_text (n : nat) : str :=
  [123; 34] ++ key_questions ++ [34; 58; 91]
  ++ match n with
     | O => []
     | S k => [123; 125] ++ concat (repeat [44; 123; 125] k)
     end
  ++ [93; 125].

(** A document of [pages] pages; the model finds two questions on the
    first page it is shown, none on the second and one on the third. *)
Definition paged_world (pages : nat) : World :=
  {| model := fun n _ =>
       Response (Some (page_text (match n with O => 2 | S O => 0 | _ => 1 end)))
                some_usage;
     pdf := fun _ => Ok (repeat [112] pages);
     write_error := fun _ => None;
     apiKey := true;
     extractionPrompt := [];
     buildPrompt := fun _ => Ok [] |}.

(** A world whose model explains every question. *)
Definition explaining_world : World :=
  {| model := fun _ _ => Response (Some (explanation_text because)) some_usage;
     pdf := fun _ => Ok [];
     write_error := fun _ => None;
     apiKey := true;
     extractionPrompt := [];
     buildPrompt := fun _ => Ok [] |}.

(** A three-page document; the model rejects the request for the second
    page. *)
Definition second_page_fails_world : World :=
  {| model := fun n _ =>
       if Nat.eqb n 1 then Rejected (Error (of_string "503"))
       else Response (Some (page_text 1)) some_usage;
     pdf := fun _ => Ok (repeat [112] 3);
     write_error := fun _ => None;
     apiKey := true;
     extractionPrompt := [];
     buildPrompt := fun _ => Ok [] |}.

(** The system after one request. *)
Definition after_one_call : Sys :=
  {| cumulativeUsage := zeroUsage; calls := 1; reads := 1; writes := 0; trace := [] |}.

End Examples.
Import Examples.

(* ===================================================================== *)
(** ** gemini-client.ts: the other methods of the client *)
(* ===================================================================== *)

Module GeminiClient.

(** [getCumulativeUsage()]: a copy of the counters. *)
Definition getCumulativeUsage : M Sys TokenUsage :=
  fun s => (Ok (cumulativeUsage s), s).

Definition resetUsage : M Sys unit :=
  fun s =>
    (Ok tt,
     {| cumulativeUsage := zeroUsage; calls := calls s; reads := reads s;
        writes := writes s; trace := trace s |}).

(** [images] are the pairs of base64 data and MIME type. *)
Definition analyzeMultipleImages (w : World) (images : list (str * str)) (prompt : str)
  : M Sys (json * TokenUsage) :=
  response <- generateContent w
    {| req_prompt := prompt; req_images := images; req_json := true |} ;;
  let text := text_of (fst response) in
  let usage := usage_of (snd response) in
  updateUsage usage ;;;
  match JSON_parse text with
  | Some data => ret (data, usage)
  | None => throw (Error (parse_failure ++ text))
  end.

Definition generateText (w : World) (prompt : str) : M Sys (str * TokenUsage) :=
  response <- generateContent w
    {| req_prompt := prompt; req_images := []; req_json := false |} ;;
  let text := text_of (fst response) in
  let usage := usage_of (snd response) in
  updateUsage usage ;;;
  ret (text, usage).

End GeminiClient.
Import GeminiClient.

(* ===================================================================== *)
(** ** pdf-processor.ts: page ranges *)
(* ===================================================================== *)

Module PdfRange.

(** The greatest length of an array, [2^32 - 1]. *)
Definition max_array_length : Z := 4294967295.

(** The message of the [RangeError] that creating a longer array raises. *)
Definition invalid_array_length : str := of_string "Invalid array length".

(** [Array.from({ length: endPage - startPage + 1 }, (_, i) => startPage + i)]:
    a length that is not positive counts as zero. *)
Definition range_numbers (startPage endPage : Z) : result (list Z) :=
  let len := (endPage - startPage + 1)%Z in
  if (max_array_length <? len)%Z then Throw (Error invalid_array_length)
  else Ok (map (fun i => (startPage + Z.of_nat i)%Z) (seq 0 (Z.to_nat len))).

Definition convertPdfPageRange (w : World) (startPage endPage : Z)
  : M Sys (list PageImage) :=
  pageNumbers <- lift (range_numbers startPage endPage) ;;
  convertPdfPagesToImages w pageNumbers.

End PdfRange.
Import PdfRange.

(* ===================================================================== *)
(** ** Vocabulary of the further statements *)
(* ===================================================================== *)

Module Obs.

(** A raw line feed, carriage return or tab. *)
Definition raw_control (c : N) : bool := (c =? c_lf) || (c =? c_cr) || (c =? c_tab).

Definition not_control (c : N) : bool := negb (raw_control c).
Definition not_quote (c : N) : bool := negb (c =? c_quote).

(** The letters [json] of the tagged fence. *)
Definition tag_json : str := [106; 115; 111; 110].

(** Whether the character before is a backslash. *)
Definition after_backslash (p : option N) : bool :=
  match p with
  | Some x => x =? c_backslash
  | None => false
  end.

(** The counters of the client after a request [r] made in state [s]:
    the usage of the reply is added, whatever its text is. *)
Definition usage_after (w : World) (s : Sys) (r : Request) : TokenUsage :=
  match model w (calls s) r with
  | Rejected _ => cumulativeUsage s
  | Response _ um => addUsage (cumulativeUsage s) (usage_of um)
  end.

Definition images_request (prompt : str) (images : list (str * str)) : Request :=
  {| req_prompt := prompt; req_images := images; req_json := true |}.

Definition plain_request (prompt : str) : Request :=
  {| req_prompt := prompt; req_images := []; req_json := false |}.

(** The image of page [p] of a document. *)
Definition image_of (document : list str) (p : Z) : option PageImage :=
  if (1 <=? p)%Z then
    (fun image => {| pi_pageNumber := p; base64 := image; mimeType := image_png |})
      <$> document !! Z.to_nat (p - 1)
  else None.

(** Whether page [p] was asked for. *)
Definition requested (pageNumbers : list Z) (p : Z) : bool :=
  existsb (Z.eqb p) pageNumbers.

Definition in_range (startPage endPage p : Z) : bool :=
  ((startPage <=? p) && (p <=? endPage))%Z.

(** The requests of a trace. *)
Fixpoint requests_of (tr : list Event) : list Request :=
  match tr with
  | [] => []
  | EvModelCall r :: rest => r :: requests_of rest
  | _ :: rest => requests_of rest
  end.

(** The delays of a trace, in milliseconds. *)
Fixpoint delays_of (tr : list Event) : list Z :=
  match tr with
  | [] => []
  | EvDelay ms :: rest => ms :: delays_of rest
  | _ :: rest => delays_of rest
  end.

(** What the [k]-th turn of the page loop finds: the file is read for
    the [k]-th time since [reads0] readings, and page [startPage + k] is
    looked for in what that reading gives. *)
Definition page_found (w : World) (reads0 : nat) (startPage : Z) (k : nat)
  : option (option PageImage) :=
  match pdf w (reads0 + k) with
  | Ok document => Some (image_of document (startPage + Z.of_nat k))
  | Throw _ => None
  end.

(** The request of that turn, if the page gave an image. *)
Definition page_request (w : World) (reads0 : nat) (startPage : Z) (k : nat)
  : option Request :=
  match page_found w reads0 startPage k with
  | Some (Some img) =>
      Some {| req_prompt := extractionPrompt w;
              req_images := [(base64 img, mimeType img)];
              req_json := true |}
  | _ => None
  end.

(** The page that turn warns about, if the page gave no image. *)
Definition page_warning (w : World) (reads0 : nat) (startPage : Z) (k : nat)
  : option Z :=
  match page_found w reads0 startPage k with
  | Some None => Some (startPage + Z.of_nat k)%Z
  | _ => None
  end.

(** The list of what an option holds. *)
Definition option_list {A} (o : option A) : list A :=
  match o with Some a => [a] | None => [] end.

(** The page result with no question. *)
Definition empty_page (img : PageImage) (um : option UsageMetadata)
  : PageExtractionResult :=
  {| per_pageNumber := pi_pageNumber img; per_questions := [];
     per_usage := usage_of um |}.

(** The member of a value that is no [null]: [undefined] when the value is
    no object or has no such member. *)
Definition member (v : json) (key : str) : jsvalue :=
  match v with
  | JObject ms => lookup_last key ms
  | _ => None
  end.

(** The question the extraction makes of entry [q], the [k]-th of page
    [pageNum], counting from 0. *)
Definition question_of (pageNum : Z) (k : nat) (q : json) : ExtractedQuestion :=
  {| eq_questionText := member q key_questionText;
     eq_choices := member q key_choices;
     eq_correctChoice := member q key_correctChoice;
     pageNumber := pageNum;
     questionNumber := Z.of_nat (S k) |}.

Definition is_JNull (v : json) : bool :=
  match v with JNull => true | _ => false end.

(** The tokens the successful generations reported. *)
Fixpoint tokens_of (os : list (nat * result (jsvalue * Z))) : Z :=
  match os with
  | [] => 0
  | (_, Ok (_, t)) :: rest => (t + tokens_of rest)%Z
  | (_, Throw _) :: rest => tokens_of rest
  end.

(** The number of requests the generations for the questions of indices
    [l] make. *)
Fixpoint requests_made (w : World) (qs : list Question) (l : list nat) : nat :=
  match l with
  | [] => 0
  | idx :: rest =>
      match qs !! idx with
      | Some q => calls_made w q + requests_made w qs rest
      | None => requests_made w qs rest
      end
  end.

(** The request that the generation for question [q] sends, if it sends
    one: none without an API key or when the prompt cannot be built. *)
Definition request_for (w : World) (q : Question) : list Request :=
  if apiKey w then
    match buildPrompt w q with
    | Ok p => [text_request p]
    | Throw _ => []
    end
  else [].

(** The requests of the generations for the questions of indices [l]. *)
Fixpoint requests_for (w : World) (qs : list Question) (l : list nat) : list Request :=
  match l with
  | [] => []
  | idx :: rest =>
      match qs !! idx with
      | Some q => request_for w q ++ requests_for w qs rest
      | None => requests_for w qs rest
      end
  end.

(** The total tokens of the reply to the request for question [q], the
    request being number [n]: what the client adds to its counters for
    it, 0 when no request is made or the request is rejected. *)
Definition billed (w : World) (q : Question) (n : nat) : Z :=
  if apiKey w then
    match buildPrompt w q with
    | Ok p =>
        match model w n (text_request p) with
        | Response _ um => totalTokens (usage_of um)
        | Rejected _ => 0
        end
    | Throw _ => 0
    end
  else 0.

(** The total tokens of the replies to the generations that failed. *)
Fixpoint wasted (w : World) (qs : list Question) (n : nat) (l : list nat) : Z :=
  match l with
  | [] => 0
  | idx :: rest =>
      match qs !! idx with
      | Some q =>
          (match outcome w q n with
           | Ok _ => 0
           | Throw _ => billed w q n
           end + wasted w qs (n + calls_made w q) rest)%Z
      | None => wasted w qs n rest
      end
  end.

(** The run as the loop of [main] leaves it, before the final write. *)
Definition after_loop (w : World) (opts : Options) (d : PaperData) (s : Sys) : Run :=
  snd (for_each (process_question w (batchSize opts))
         (questionsToProcess (skipExisting opts) d)
         {| data := d; processed := 0; run_totalTokens := 0; errors := 0; sys := s |}).

(** The counters of the client and the total of the page loop grow
    together: from [s], [acc] to [s'], [acc'] both grew by the same. *)
Definition usage_step (s : Sys) (acc : Acc) (s' : Sys) (acc' : Acc) : Prop :=
  addUsage (cumulativeUsage s') (acc_totalUsage acc)
  = addUsage (cumulativeUsage s) (acc_totalUsage acc').

End Obs.
Import Obs.

(* ===================================================================== *)
(** ** Further sample inputs *)
(* ===================================================================== *)

Module Samples.


End Samples.
Import Samples.

(* ===================================================================== *)
(** ** question-extractor.ts: validateQuestions *)
(* ===================================================================== *)

Module Validate.

(** The questions reach [validateQuestions] as [JSON.parse] made them, so
    each field may hold any value.  The comparisons of the function
    convert their operands to numbers.  The embedding follows that
    conversion for [undefined], [null], booleans and numbers that denote
    an integer, for which comparing the decimals and comparing the
    doubles agree.  It does not follow the conversion of a string, an
    array or an object to a number, nor the rounding of a number with a
    fraction: on such an operand the outcome is [Beyond], which says that
    the embedding is silent, not that the code fails. *)
Inductive verdict (A : Type) :=
| Returns (a : A)
| Raises (e : error)
| Beyond.
Arguments Returns {A} a.
Arguments Raises {A} e.
Arguments Beyond {A}.

Definition andThen {A B} (v : verdict A) (k : A -> verdict B) : verdict B :=
  match v with
  | Returns a => k a
  | Raises e => Raises e
  | Beyond => Beyond
  end.

Definition key_length : str := of_string "length".

(** The integer a number literal denotes, if it denotes one. *)
Definition integer_of (n : number) : option Z :=
  let sign (z : Z) := if neg n then (- z)%Z else z in
  if (0 <=? exp10 n)%Z then Some (sign (Z.of_N (mant n) * 10 ^ exp10 n)%Z)
  else if (Z.of_N (mant n) mod 10 ^ (- exp10 n) =? 0)%Z
       then Some (sign (Z.of_N (mant n) / 10 ^ (- exp10 n))%Z)
       else None.

(** [ToNumber] of an operand; [None] is [NaN]. *)
Definition to_number (v : jsvalue) : verdict (option Z) :=
  match v with
  | None => Returns None
  | Some JNull => Returns (Some 0%Z)
  | Some (JBool b) => Returns (Some (if b then 1 else 0)%Z)
  | Some (JNumber n) =>
      match integer_of n with
      | Some z => Returns (Some z)
      | None => Beyond
      end
  | Some (JString _) | Some (JArray _) | Some (JObject _) => Beyond
  end.

(** [v.length]: the number of elements of an array and of code units of
    a string; [undefined] on a number, a boolean and an object without
    that member; a [TypeError] on [undefined] and [null]. *)
Definition length_of (v : jsvalue) : verdict (option Z) :=
  match v with
  | None | Some JNull => Raises TypeError
  | Some (JArray l) => Returns (Some (Z.of_nat (length l)))
  | Some (JString s) => Returns (Some (Z.of_nat (length s)))
  | Some (JBool _) | Some (JNumber _) => Returns None
  | Some (JObject ms) =>
      match lookup_last key_length ms with
      | None => Returns None
      | Some _ => Beyond
      end
  end.

(** [a < b] and [a >= b] on numbers: false when either is [NaN]. *)
Definition js_lt (a b : option Z) : bool :=
  match a, b with
  | Some x, Some y => (x <? y)%Z
  | _, _ => false
  end.

Definition js_ge (a b : option Z) : bool :=
  match a, b with
  | Some x, Some y => (y <=? x)%Z
  | _, _ => false
  end.

(** [!q.questionText || q.questionText.trim() === ""]: only a string has
    the method [trim]. *)
Definition text_is_empty (t : jsvalue) : verdict bool :=
  if negb (truthy t) then Returns true
  else
    match t with
    | Some (JString s) => Returns (match trim s with [] => true | _ :: _ => false end)
    | _ => Raises TypeError
    end.

(** [!q.choices || q.choices.length < 2] *)
Definition too_few_choices (c : jsvalue) : verdict bool :=
  if negb (truthy c) then Returns true
  else andThen (length_of c) (fun len => Returns (js_lt len (Some 2%Z))).

(** [q.correctChoice !== null &&
     (q.correctChoice < 0 || q.correctChoice >= q.choices.length)] *)
Definition choice_is_invalid (k c : jsvalue) : verdict bool :=
  if is_null k then Returns false
  else
    andThen (to_number k) (fun x =>
      if js_lt x (Some 0%Z) then Returns true
      else andThen (length_of c) (fun len => Returns (js_ge x len))).

(** The decimal digits of [n], the most significant first. *)
Fixpoint decimal_digits (fuel : nat) (n : N) (acc : str) : str :=
  match fuel with
  | O => acc
  | S fuel' =>
      let acc' := (48 + n mod 10) :: acc in
      if n / 10 =? 0 then acc' else decimal_digits fuel' (n / 10) acc'
  end.

(** [String(n)] for a whole number below [10^21]. *)
Definition decimal_of (n : N) : str := decimal_digits (S (N.to_nat (N.log2 n))) n [].

(** [`Question ${idx + 1}`] *)
Definition label (idx : nat) : str :=
  of_string "Question " ++ decimal_of (N.of_nat idx + 1).

(** [`Question ${idx + 1}: `], with which every message for the question
    begins. *)
Definition heading (idx : nat) : str := label idx ++ [58; 32].

Definition empty_text : str := of_string ": Empty question text".
Definition few_choices : str := of_string ": Less than 2 choices".
Definition invalid_choice : str := of_string ": Invalid correct choice index".

Definition complain (tail : str) (idx : nat) (b : bool) : list str :=
  if b then [label idx ++ tail] else [].

(** The callback of [forEach], as the list of what it pushes. *)
Definition validate_one (idx : nat) (q : ExtractedQuestion) : verdict (list str) :=
  andThen (text_is_empty (eq_questionText q)) (fun b1 =>
  andThen (too_few_choices (eq_choices q)) (fun b2 =>
  andThen (choice_is_invalid (eq_correctChoice q) (eq_choices q)) (fun b3 =>
  Returns (complain empty_text idx b1 ++ complain few_choices idx b2
           ++ complain invalid_choice idx b3)))).

Fixpoint validate_from (idx : nat) (qs : list ExtractedQuestion) : verdict (list str) :=
  match qs with
  | [] => Returns []
  | q :: rest =>
      andThen (validate_one idx q) (fun errs =>
      andThen (validate_from (S idx) rest) (fun more => Returns (errs ++ more)))
  end.

Definition validateQuestions (qs : list ExtractedQuestion) : verdict (list str) :=
  validate_from 0 qs.

(** *** Vocabulary *)

(** A question whose fields have the types the interface declares. *)
Definition typed (q : ExtractedQuestion) : Prop :=
  exists s l,
    eq_questionText q = Some (JString s) /\ eq_choices q = Some (JArray l)
    /\ (eq_correctChoice q = Some JNull
        \/ exists n z, eq_correctChoice q = Some (JNumber n) /\ integer_of n = Some z).

(** A typed question that has a text with a visible character, two
    choices or more, and a correct choice that is [null] or an index of
    the choices. *)
Definition well_formed (q : ExtractedQuestion) : Prop :=
  exists s l,
    eq_questionText q = Some (JString s) /\ eq_choices q = Some (JArray l)
    /\ trim s <> [] /\ (2 <= length l)%nat
    /\ (eq_correctChoice q = Some JNull
        \/ exists n z, eq_correctChoice q = Some (JNumber n) /\ integer_of n = Some z
                       /\ (0 <= z < Z.of_nat (length l))%Z).

(** A question without choices: [undefined] or [null]. *)
Definition lacks_choices (q : ExtractedQuestion) : Prop :=
  eq_choices q = None \/ eq_choices q = Some JNull.

(** A correct choice that is [undefined], or a number that denotes an
    integer that is not negative. *)
Definition unchecked_choice (q : ExtractedQuestion) : Prop :=
  eq_correctChoice q = None
  \/ exists n z, eq_correctChoice q = Some (JNumber n) /\ integer_of n = Some z
                 /\ (0 <= z)%Z.

(** *** Sample questions *)

Definition integer (z : N) : json := JNumber {| neg := false; mant := z; exp10 := 0 |}.

(** A question with the text [t], [n] choices and the correct choice [k]. *)
Definition sample_question (t : str) (k : N) (n : nat) : ExtractedQuestion :=
  {| eq_questionText := Some (JString t);
     eq_choices := Some (JArray (repeat (JString [97]) n));
     eq_correctChoice := Some (integer k);
     pageNumber := 1; questionNumber := 1 |}.

(** A question whose entry had a text and a correct choice, but no
    choices. *)
Definition choiceless_question : ExtractedQuestion :=
  {| eq_questionText := Some (JString [81]);
     eq_choices := None;
     eq_correctChoice := Some (integer 1);
     pageNumber := 1; questionNumber := 2 |}.

End Validate.
Import Validate.

(* ===================================================================== *)
(** ** explanation-generator.server.ts *)
(* ===================================================================== *)

Module Server.

(** The copy of the repair that this file has. *)
Fixpoint scan (prev : option N) (inString : bool) (s : str) : str :=
  match s with
  | [] => []
  | char :: rest =>
      if (char =? c_quote)
         && match prev with
            | None => true
            | Some p => negb (p =? c_backslash)
            end
      then char :: scan (Some char) (negb inString) rest
      else if inString then
        (if char =? c_lf then [c_backslash; 110]
         else if char =? c_cr then [c_backslash; 114]
         else if char =? c_tab then [c_backslash; 116]
         else [char])
        ++ scan (Some char) inString rest
      else char :: scan (Some char) inString rest
  end.

Definition sanitizeJsonResponse (text : str) : str :=
  let cleaned := trim text in
  let cleaned :=
    if startsWith fence_json cleaned then slice_from 7 cleaned
    else if startsWith fence cleaned then slice_from 3 cleaned
    else cleaned in
  let cleaned :=
    if endsWith fence cleaned then slice_drop_last 3 cleaned else cleaned in
  let cleaned := trim cleaned in
  scan None false cleaned.

Definition parse_failure : str := of_string "Failed to parse Gemini response: ".

(** [generateExplanation(question)] of the server: a client of its own,
    which keeps no usage; [build] is the [buildPrompt] of this file. *)
Definition generateExplanation (w : World) (build : Question -> result str)
    (question : Question) : M Sys jsvalue :=
  (if apiKey w then ret tt else throw (Error missing_key)) ;;;
  prompt <- lift (build question) ;;
  response <- generateContent w
    {| req_prompt := prompt; req_images := []; req_json := true |} ;;
  let text := text_of (fst response) in
  match JSON_parse text with
  | Some data => lift (get_prop data key_explanation)
  | None =>
      emit (EvRepair text) ;;;
      match JSON_parse (sanitizeJsonResponse text) with
      | Some data => lift (get_prop data key_explanation)
      | None =>
          throw (Error (parse_failure ++ substring0 200 text ++ ellipsis))
      end
  end.

End Server.

(* ===================================================================== *)
(** * Properties *)
(* ===================================================================== *)

(** ** Characters *)

Functional Scheme lex_string_ind := Induction for lex_string Sort Prop.

Ltac nbool_step :=
  match goal with
  | H : context [N.eqb ?a ?b] |- _ => destruct (N.eqb_spec a b); [try subst|]
  | |- context [N.eqb ?a ?b] => destruct (N.eqb_spec a b); [try subst|]
  | H : context [N.leb ?a ?b] |- _ => destruct (N.leb_spec a b)
  | |- context [N.leb ?a ?b] => destruct (N.leb_spec a b)
  | H : context [N.ltb ?a ?b] |- _ => destruct (N.ltb_spec a b)
  | |- context [N.ltb ?a ?b] => destruct (N.ltb_spec a b)
  end;
  cbn [negb andb orb] in *.

Ltac nbool :=
  cbn [negb andb orb] in *;
  repeat (try discriminate; try reflexivity; try lia; nbool_step);
  try discriminate; try reflexivity; try lia; try congruence.

Lemma js_space_junk c : is_js_space c = true -> junk c = true.
Proof. unfold is_js_space, junk, is_digit. intros H. nbool. Qed.

Lemma json_ws_js_space c : is_json_ws c = true -> is_js_space c = true.
Proof. unfold is_js_space, is_json_ws. intros H. nbool. Qed.

Lemma backtick_junk : junk c_backtick = true.
Proof. reflexivity. Qed.

(** ** The string lexer *)

Lemma lex_string_split s raw v out :
  lex_string s = Some (raw, v, out) -> s = raw ++ c_quote :: out.
Proof.
  revert raw v out.
  functional induction (lex_string s); intros raw' v' out' H;
    try discriminate; inversion H; subst; simpl.
  - apply N.eqb_eq in e0. subst. reflexivity.
  - repeat f_equal. eauto.
  - repeat f_equal. eauto.
  - repeat f_equal. eauto.
Qed.

Lemma lex_string_snoc s c :
  c <> c_quote ->
  lex_string (s ++ [c]) =
  match lex_string s with
  | Some (raw, v, out) => Some (raw, v, out ++ [c])
  | None => None
  end.
Proof.
  intros Hc.
  functional induction (lex_string s); simpl;
    repeat match goal with
    | H : ?x = true |- context [?x] => rewrite H
    | H : ?x = false |- context [?x] => rewrite H
    | H : ?x = Some _ |- context [?x] => rewrite H
    | H : ?x = None |- context [?x] => rewrite H
    end; try reflexivity.
  all: try (rewrite IHo;
            match goal with H : lex_string _ = _ |- _ => rewrite H end;
            reflexivity).
  all: try (destruct (hex4 _ _ _ _); reflexivity).
  all: try (destruct (unescape _); reflexivity).
  all: try (destruct (N.eqb_spec c c_quote); [contradiction|]).
  all: try (destruct (c =? c_backslash); [reflexivity|]; destruct (c <? 32); reflexivity).
  all: try (destruct (c =? 117); [reflexivity|]; destruct (unescape c); reflexivity).
Qed.

Lemma lex_digits_split acc s v k out :
  lex_digits acc s = (v, k, out) ->
  exists pre, s = pre ++ out /\ length pre = k /\ forallb is_digit pre = true.
Proof.
  revert acc v k out. induction s as [|c s IH]; intros acc v k out H; simpl in H.
  - inversion H; subst. exists []. auto.
  - destruct (is_digit c) eqn:Hd.
    + destruct (lex_digits (acc * 10 + (c - 48)) s) as [[v' k'] out'] eqn:E.
      inversion H; subst. destruct (IH _ _ _ _ E) as (pre & -> & Hl & Hf).
      exists (c :: pre). simpl. rewrite Hd, Hf, Hl. auto.
    + inversion H; subst. exists []. auto.
Qed.

Lemma lex_digits_snoc acc s c :
  is_digit c = false ->
  lex_digits acc (s ++ [c]) =
  let '(v, k, out) := lex_digits acc s in (v, k, out ++ [c]).
Proof.
  intros Hc. revert acc. induction s as [|d s IH]; intros acc; simpl.
  - rewrite Hc. reflexivity.
  - destruct (is_digit d); [|reflexivity].
    rewrite IH. destruct (lex_digits _ s) as [[? ?] ?]. reflexivity.
Qed.

Lemma digits_numchars pre :
  forallb is_digit pre = true -> forallb is_numchar pre = true.
Proof.
  induction pre as [|c pre IH]; simpl; [auto|].
  intros H. apply andb_true_iff in H as [H1 H2].
  rewrite IH by assumption. unfold is_numchar. rewrite H1. reflexivity.
Qed.

Lemma lex_int_split s v out :
  lex_int s = Some (v, out) ->
  exists pre, s = pre ++ out /\ pre <> [] /\ forallb is_numchar pre = true.
Proof.
  destruct s as [|c s]; simpl; [discriminate|].
  destruct (N.eqb_spec c 48).
  - intros H; inversion H; subst. exists [48]. auto.
  - destruct (is_digit c) eqn:Hd; [|discriminate].
    destruct (lex_digits (c - 48) s) as [[v' k'] out'] eqn:E.
    intros H; inversion H; subst.
    destruct (lex_digits_split _ _ _ _ _ E) as (pre & -> & _ & Hf).
    exists (c :: pre). simpl. unfold is_numchar at 1. rewrite Hd. simpl.
    rewrite digits_numchars by assumption. auto.
Qed.

Lemma lex_frac_split m s v k out :
  lex_frac m s = Some (v, k, out) ->
  exists pre, s = pre ++ out /\ forallb is_numchar pre = true.
Proof.
  destruct s as [|c s]; simpl.
  - intros H; inversion H; subst. exists []. auto.
  - destruct (N.eqb_spec c 46).
    + destruct (lex_digits m s) as [[v' k'] out'] eqn:E.
      destruct k'; [discriminate|]. intros H; inversion H; subst.
      destruct (lex_digits_split _ _ _ _ _ E) as (pre & -> & _ & Hf).
      exists (46 :: pre). simpl. rewrite digits_numchars by assumption. auto.
    + intros H; inversion H; subst. exists []. auto.
Qed.

Lemma lex_exp_split s e out :
  lex_exp s = Some (e, out) ->
  exists pre, s = pre ++ out /\ forallb is_numchar pre = true.
Proof.
  destruct s as [|c s]; simpl.
  - intros H; inversion H; subst. exists []. auto.
  - destruct ((c =? 101) || (c =? 69)) eqn:Hc.
    + assert (Hn : is_numchar c = true).
      { unfold is_numchar. apply orb_true_iff in Hc as [->| ->];
          rewrite ?orb_true_r; reflexivity. }
      assert (Hgen : forall sg rest1 pre1,
                 s = pre1 ++ rest1 -> forallb is_numchar pre1 = true ->
                 match lex_digits 0 rest1 with
                 | (_, O, _) => None
                 | (v, _, out) => Some ((sg * Z.of_N v)%Z, out)
                 end = Some (e, out) ->
                 exists pre, c :: s = pre ++ out /\ forallb is_numchar pre = true).
      { intros sg rest1 pre1 -> Hp H.
        destruct (lex_digits 0 rest1) as [[v' k'] out'] eqn:E.
        destruct k'; [discriminate|]. inversion H; subst.
        destruct (lex_digits_split _ _ _ _ _ E) as (pre & -> & _ & Hf).
        exists (c :: pre1 ++ pre). simpl. rewrite Hn, forallb_app, Hp.
        rewrite digits_numchars by assumption. rewrite <- app_assoc. auto. }
      destruct s as [|d s'].
      * apply (Hgen 1%Z [] []); auto.
      * destruct (N.eqb_spec d 43); [subst; apply (Hgen 1%Z s' [43]); auto|].
        destruct (N.eqb_spec d 45); [subst; apply (Hgen (-1)%Z s' [45]); auto|].
        apply (Hgen 1%Z (d :: s') []); auto.
    + intros H; inversion H; subst. exists []. auto.
Qed.

Lemma lex_number_split s n out :
  lex_number s = Some (n, out) ->
  exists pre, s = pre ++ out /\ pre <> [] /\ forallb is_numchar pre = true.
Proof.
  unfold lex_number.
  assert (Hgen : forall sg s1 pre0,
             s = pre0 ++ s1 -> forallb is_numchar pre0 = true ->
             match lex_int s1 with
             | None => None
             | Some (i, s2) =>
                 match lex_frac i s2 with
                 | None => None
                 | Some (m, k, s3) =>
                     match lex_exp s3 with
                     | None => None
                     | Some (e, s4) =>
                         Some ({| neg := sg; mant := m; exp10 := (e - Z.of_nat k)%Z |}, s4)
                     end
                 end
             end = Some (n, out) ->
             exists pre, s = pre ++ out /\ pre <> [] /\ forallb is_numchar pre = true).
  { intros sg s1 pre0 -> Hp H.
    destruct (lex_int s1) as [[i s2]|] eqn:E1; [|discriminate].
    destruct (lex_frac i s2) as [[[m k] s3]|] eqn:E2; [|discriminate].
    destruct (lex_exp s3) as [[e s4]|] eqn:E3; [|discriminate].
    inversion H; subst.
    destruct (lex_int_split _ _ _ E1) as (p1 & -> & Hne & H1).
    destruct (lex_frac_split _ _ _ _ _ E2) as (p2 & -> & H2).
    destruct (lex_exp_split _ _ _ E3) as (p3 & -> & H3).
    exists (pre0 ++ p1 ++ p2 ++ p3). rewrite !forallb_app, Hp, H1, H2, H3.
    rewrite <- !app_assoc. repeat split; auto.
    destruct pre0; destruct p1; simpl; congruence. }
  destruct s as [|c s'].
  - apply (Hgen false [] []); auto.
  - destruct (N.eqb_spec c 45).
    + subst. apply (Hgen true s' [45]); auto.
    + apply (Hgen false (c :: s') []); auto.
Qed.

Lemma junk_not_digit c : junk c = true -> is_digit c = false.
Proof.
  unfold junk. intros H. apply negb_true_iff in H.
  destruct (is_digit c); [|reflexivity].
  rewrite ?orb_true_r in H. simpl in H. rewrite ?orb_true_r in H. discriminate.
Qed.

Lemma lex_int_snoc s c :
  is_digit c = false -> lex_int (s ++ [c]) = out_snoc c (lex_int s).
Proof.
  intros Hd. destruct s as [|d s]; simpl.
  - rewrite Hd. destruct (N.eqb_spec c 48); [subst; discriminate|reflexivity].
  - destruct (d =? 48); [reflexivity|]. destruct (is_digit d); [|reflexivity].
    rewrite lex_digits_snoc by assumption.
    destruct (lex_digits _ s) as [[? ?] ?]. reflexivity.
Qed.

Lemma lex_frac_snoc m s c :
  is_digit c = false -> c <> 46 ->
  lex_frac m (s ++ [c]) = out_snoc c (lex_frac m s).
Proof.
  intros Hd Hc. destruct s as [|d s]; simpl.
  - destruct (N.eqb_spec c 46); [contradiction|reflexivity].
  - destruct (d =? 46); [|reflexivity].
    rewrite lex_digits_snoc by assumption.
    destruct (lex_digits _ s) as [[? []] ?]; reflexivity.
Qed.

Lemma lex_exp_snoc s c :
  junk c = true -> lex_exp (s ++ [c]) = out_snoc c (lex_exp s).
Proof.
  intros Hj. pose proof (junk_not_digit _ Hj) as Hd.
  assert (H101 : (c =? 101) = false) by (unfold junk, is_digit in Hj; nbool).
  assert (H69 : (c =? 69) = false) by (unfold junk, is_digit in Hj; nbool).
  assert (H43 : (c =? 43) = false) by (unfold junk, is_digit in Hj; nbool).
  assert (H45 : (c =? 45) = false) by (unfold junk, is_digit in Hj; nbool).
  destruct s as [|d s]; simpl.
  - rewrite H101, H69. reflexivity.
  - destruct ((d =? 101) || (d =? 69)); [|reflexivity].
    destruct s as [|d' s']; simpl.
    + rewrite H43, H45. simpl. rewrite Hd. reflexivity.
    + destruct (d' =? 43); [|destruct (d' =? 45)];
        rewrite ?app_comm_cons, lex_digits_snoc by assumption;
        match goal with |- context [lex_digits 0 ?x] =>
          destruct (lex_digits 0 x) as [[? []] ?] end; reflexivity.
Qed.

Lemma lex_number_snoc s c :
  junk c = true -> lex_number (s ++ [c]) = out_snoc c (lex_number s).
Proof.
  intros Hj. pose proof (junk_not_digit _ Hj) as Hd.
  assert (H45 : (c =? 45) = false) by (unfold junk, is_digit in Hj; nbool).
  assert (H46 : c <> 46) by (unfold junk, is_digit in Hj; nbool).
  assert (Hgen : forall sg s1,
    match lex_int (s1 ++ [c]) with
    | None => None
    | Some (i, s2) =>
        match lex_frac i s2 with
        | None => None
        | Some (m, k, s3) =>
            match lex_exp s3 with
            | None => None
            | Some (e, s4) =>
                Some ({| neg := sg; mant := m; exp10 := (e - Z.of_nat k)%Z |}, s4)
            end
        end
    end =
    out_snoc c
    match lex_int s1 with
    | None => None
    | Some (i, s2) =>
        match lex_frac i s2 with
        | None => None
        | Some (m, k, s3) =>
            match lex_exp s3 with
            | None => None
            | Some (e, s4) =>
                Some ({| neg := sg; mant := m; exp10 := (e - Z.of_nat k)%Z |}, s4)
            end
        end
    end).
  { intros sg s1. rewrite lex_int_snoc by assumption.
    destruct (lex_int s1) as [[i s2]|]; simpl; [|reflexivity].
    rewrite lex_frac_snoc by assumption.
    destruct (lex_frac i s2) as [[[m k] s3]|]; simpl; [|reflexivity].
    rewrite lex_exp_snoc by assumption.
    destruct (lex_exp s3) as [[e s4]|]; reflexivity. }
  unfold lex_number. destruct s as [|d s]; simpl app; cbv beta iota.
  - rewrite H45. apply (Hgen false []).
  - destruct (d =? 45).
    + apply Hgen.
    + apply (Hgen false (d :: s)).
Qed.

(** ** The scan on well-formed text *)

Lemma hex_value_plain h x :
  hex_value h = Some x ->
  (h =? c_quote) = false /\ (h =? c_lf) = false /\ (h =? c_cr) = false
  /\ (h =? c_tab) = false.
Proof.
  unfold hex_value, c_quote, c_lf, c_cr, c_tab. intros H.
  repeat split; nbool.
Qed.

Lemma hex4_plain h1 h2 h3 h4 u :
  hex4 h1 h2 h3 h4 = Some u ->
  exists a b c d, hex_value h1 = Some a /\ hex_value h2 = Some b
                  /\ hex_value h3 = Some c /\ hex_value h4 = Some d.
Proof.
  unfold hex4. destruct (hex_value h1), (hex_value h2), (hex_value h3),
    (hex_value h4); try discriminate. eauto 10.
Qed.

Lemma scan_in_plain p c rest :
  (c =? c_quote) = false -> (c =? c_lf) = false -> (c =? c_cr) = false ->
  (c =? c_tab) = false ->
  scan p true (c :: rest) = c :: scan (Some c) true rest.
Proof. intros H1 H2 H3 H4. simpl. rewrite H1, H2, H3, H4. reflexivity. Qed.

Lemma last_cons_ne (p c : N) (raw : list N) :
  last (p :: c :: raw) = last (c :: raw).
Proof. reflexivity. Qed.

Lemma lex_string_scan s raw v out :
  lex_string s = Some (raw, v, out) ->
  forall p tail, last (p :: raw) <> Some c_backslash ->
    scan (Some p) true (raw ++ c_quote :: tail)
    = raw ++ c_quote :: scan (Some c_quote) false tail.
Proof.
  revert raw v out.
  functional induction (lex_string s); intros raw' v' out' H;
    try discriminate; inversion H; subst; intros p tail Hl.
  - simpl in Hl. simpl.
    destruct (N.eqb_spec p c_backslash); [subst; congruence|reflexivity].
  - destruct (hex4_plain _ _ _ _ _ e9) as (a & b & c' & d & Ha & Hb & Hc & Hd).
    apply hex_value_plain in Ha as (? & ? & ? & ?).
    apply hex_value_plain in Hb as (? & ? & ? & ?).
    apply hex_value_plain in Hc as (? & ? & ? & ?).
    apply hex_value_plain in Hd as (? & ? & ? & ?).
    apply N.eqb_eq in e1, e4. subst c e2.
    cbn [app].
    rewrite (scan_in_plain _ c_backslash) by reflexivity.
    rewrite (scan_in_plain _ 117) by reflexivity.
    rewrite !scan_in_plain by assumption.
    repeat f_equal. eapply IHo; eauto.
  - apply N.eqb_eq in e1. subst c. cbn [app].
    rewrite (scan_in_plain _ c_backslash) by reflexivity.
    assert (He : scan (Some c_backslash) true (e2 :: raw ++ c_quote :: tail)
                 = e2 :: scan (Some e2) true (raw ++ c_quote :: tail)).
    { unfold unescape in e5. simpl.
      destruct (N.eqb_spec e2 c_quote); simpl.
      - subst. reflexivity.
      - unfold c_quote, c_lf, c_cr, c_tab in *. nbool. }
    rewrite He. repeat f_equal. eapply IHo; eauto.
  - cbn [app]. rewrite scan_in_plain.
    + repeat f_equal. eapply IHo; eauto.
    + assumption.
    + unfold c_lf. nbool.
    + unfold c_cr. nbool.
    + unfold c_tab. nbool.
Qed.

Lemma scan_plain pre :
  forallb noqb pre = true ->
  forall p, p <> Some c_backslash ->
  exists p', p' <> Some c_backslash
             /\ forall tail, scan p false (pre ++ tail) = pre ++ scan p' false tail.
Proof.
  induction pre as [|c pre IH]; intros H p Hp.
  - exists p. auto.
  - simpl in H. apply andb_true_iff in H as [Hc H].
    unfold noqb in Hc. apply andb_true_iff in Hc as [Hq Hb].
    apply negb_true_iff in Hq, Hb.
    destruct (IH H (Some c)) as (p' & Hp' & Hs).
    { intros E. inversion E. subst. discriminate. }
    exists p'. split; [assumption|]. intros tail. simpl.
    rewrite Hq. simpl. rewrite Hs. reflexivity.
Qed.

Lemma numchars_noqb pre :
  forallb is_numchar pre = true -> forallb noqb pre = true.
Proof.
  induction pre as [|c pre IH]; simpl; [auto|].
  intros H. apply andb_true_iff in H as [H1 H2]. rewrite IH by assumption.
  rewrite andb_true_r. unfold is_numchar, is_digit in H1.
  unfold noqb, c_quote, c_backslash. nbool.
Qed.

Lemma startsWith_split p s :
  startsWith p s = true -> s = p ++ skipn (length p) s.
Proof.
  revert s. induction p as [|a p IH]; intros s H; [reflexivity|].
  destruct s as [|b s]; simpl in H; [discriminate|].
  apply andb_true_iff in H as [H1 H2]. apply N.eqb_eq in H1. subst.
  simpl. f_equal. auto.
Qed.

Lemma startsWith_snoc p s c :
  forallb (fun x => negb (x =? c)) p = true ->
  startsWith p (s ++ [c]) = startsWith p s.
Proof.
  revert s. induction p as [|a p IH]; intros s H; [destruct s; reflexivity|].
  simpl in H. apply andb_true_iff in H as [Ha H]. apply negb_true_iff in Ha.
  destruct s as [|b s]; simpl.
  - rewrite Ha. reflexivity.
  - rewrite IH by assumption. reflexivity.
Qed.

Lemma skipn_snoc {A} n (s : list A) c :
  (n <= length s)%nat -> skipn n (s ++ [c]) = skipn n s ++ [c].
Proof.
  revert s. induction n as [|n IH]; intros s H; [reflexivity|].
  destruct s; simpl in *; [lia|]. apply IH. lia.
Qed.

Lemma startsWith_length p s :
  startsWith p s = true -> (length p <= length s)%nat.
Proof.
  revert s. induction p as [|a p IH]; intros s H; simpl; [lia|].
  destruct s; simpl in *; [discriminate|].
  apply andb_true_iff in H as [_ H]. apply IH in H. lia.
Qed.

(** What [next_token] consumes: a non-empty prefix over which the scan,
    outside a string, changes nothing and ends outside a string. *)
Lemma next_token_scan s ot out :
  next_token s = Some (ot, out) ->
  match ot with Some t => clean_token t = true | None => True end ->
  exists pre, s = pre ++ out /\ pre <> []
    /\ forall p, p <> Some c_backslash ->
       exists p', p' <> Some c_backslash
         /\ forall tail, scan p false (pre ++ tail) = pre ++ scan p' false tail.
Proof.
  assert (Hone : forall c rest, noqb c = true ->
            exists pre, c :: rest = pre ++ rest /\ pre <> []
              /\ forall p, p <> Some c_backslash ->
                 exists p', p' <> Some c_backslash
                   /\ forall tail, scan p false (pre ++ tail) = pre ++ scan p' false tail).
  { intros c rest Hc. exists [c]. repeat split; [congruence|].
    apply scan_plain. simpl. rewrite Hc. reflexivity. }
  assert (Hlit : forall lit, forallb noqb lit = true -> lit <> [] ->
            startsWith lit s = true ->
            exists pre, s = pre ++ skipn (length lit) s /\ pre <> []
              /\ forall p, p <> Some c_backslash ->
                 exists p', p' <> Some c_backslash
                   /\ forall tail, scan p false (pre ++ tail) = pre ++ scan p' false tail).
  { intros lit Hl Hne Hs. exists lit. repeat split; auto using startsWith_split.
    apply scan_plain. assumption. }
  destruct s as [|c rest]; [discriminate|]. unfold next_token.
  destruct (is_json_ws c) eqn:Hws.
  { intros H _. inversion H; subst. apply Hone.
    unfold is_json_ws in Hws. unfold noqb, c_quote, c_backslash. nbool. }
  destruct (N.eqb_spec c 123); [intros H _; inversion H; subst; apply Hone; reflexivity|].
  destruct (N.eqb_spec c 125); [intros H _; inversion H; subst; apply Hone; reflexivity|].
  destruct (N.eqb_spec c 91); [intros H _; inversion H; subst; apply Hone; reflexivity|].
  destruct (N.eqb_spec c 93); [intros H _; inversion H; subst; apply Hone; reflexivity|].
  destruct (N.eqb_spec c 44); [intros H _; inversion H; subst; apply Hone; reflexivity|].
  destruct (N.eqb_spec c 58); [intros H _; inversion H; subst; apply Hone; reflexivity|].
  destruct (N.eqb_spec c c_quote).
  { subst c. destruct (lex_string rest) as [[[raw v] out']|] eqn:E; [|discriminate].
    intros H Hcl. inversion H; subst. simpl in Hcl.
    pose proof (lex_string_split _ _ _ _ E) as ->.
    exists (c_quote :: raw ++ [c_quote]). simpl. rewrite <- ?app_assoc. simpl.
    repeat split; [congruence|]. intros p Hp. exists (Some c_quote).
    split; [discriminate|]. intros tail. rewrite <- ?app_assoc. simpl.
    destruct p as [p|]; simpl.
    - destruct (N.eqb_spec p c_backslash); [subst; congruence|]. simpl.
      f_equal. apply (lex_string_scan _ _ _ _ E).
      rewrite last_cons. destruct (last raw) as [x|]; [|discriminate].
      apply negb_true_iff, N.eqb_neq in Hcl. congruence.
    - f_equal. apply (lex_string_scan _ _ _ _ E).
      rewrite last_cons. destruct (last raw) as [x|]; [|discriminate].
      apply negb_true_iff, N.eqb_neq in Hcl. congruence. }
  destruct ((c =? 45) || is_digit c).
  { destruct (lex_number (c :: rest)) as [[n' out']|] eqn:E; [|discriminate].
    intros H _. inversion H; subst.
    destruct (lex_number_split _ _ _ E) as (pre & Hs & Hne & Hf).
    exists pre. split; [assumption|]. split; [assumption|].
    apply scan_plain, numchars_noqb, Hf. }
  destruct (startsWith lit_true (c :: rest)) eqn:E1.
  { intros H _. inversion H; subst. apply (Hlit lit_true); auto; discriminate. }
  destruct (startsWith lit_false (c :: rest)) eqn:E2.
  { intros H _. inversion H; subst. apply (Hlit lit_false); auto; discriminate. }
  destruct (startsWith lit_null (c :: rest)) eqn:E3.
  { intros H _. inversion H; subst. apply (Hlit lit_null); auto; discriminate. }
  discriminate.
Qed.

Lemma next_token_shorter s ot out :
  next_token s = Some (ot, out) -> (length out < length s)%nat.
Proof.
  intros H.
  assert (Hs : exists pre, s = pre ++ out /\ pre <> []).
  { destruct s as [|c rest]; [discriminate|]. unfold next_token in H.
    assert (Hone : forall c rest, exists pre : list N,
               c :: rest = pre ++ rest /\ pre <> []).
    { intros c0 r0. exists [c0]. split; [reflexivity|congruence]. }
    destruct (is_json_ws c); [inversion H; subst; apply Hone|].
    destruct (c =? 123); [inversion H; subst; apply Hone|].
    destruct (c =? 125); [inversion H; subst; apply Hone|].
    destruct (c =? 91); [inversion H; subst; apply Hone|].
    destruct (c =? 93); [inversion H; subst; apply Hone|].
    destruct (c =? 44); [inversion H; subst; apply Hone|].
    destruct (c =? 58); [inversion H; subst; apply Hone|].
    destruct (c =? c_quote).
    { destruct (lex_string rest) as [[[raw v] out']|] eqn:E; [|discriminate].
      inversion H; subst. pose proof (lex_string_split _ _ _ _ E) as ->.
      exists (c :: raw ++ [c_quote]). simpl. rewrite <- ?app_assoc. simpl.
      split; [reflexivity|congruence]. }
    destruct ((c =? 45) || is_digit c).
    { destruct (lex_number (c :: rest)) as [[n' out']|] eqn:E; [|discriminate].
      inversion H; subst.
      destruct (lex_number_split _ _ _ E) as (pre & Hs & Hne & Hf). eauto. }
    destruct (startsWith lit_true (c :: rest)) eqn:E1.
    { inversion H; subst. exists lit_true.
      split; [apply (startsWith_split _ _ E1)|discriminate]. }
    destruct (startsWith lit_false (c :: rest)) eqn:E2.
    { inversion H; subst. exists lit_false.
      split; [apply (startsWith_split _ _ E2)|discriminate]. }
    destruct (startsWith lit_null (c :: rest)) eqn:E3.
    { inversion H; subst. exists lit_null.
      split; [apply (startsWith_split _ _ E3)|discriminate]. }
    discriminate. }
  destruct Hs as (pre & -> & Hne). rewrite length_app.
  destruct pre; [congruence|simpl; lia].
Qed.

Lemma junk_not_in_literals c :
  junk c = true ->
  forallb (fun x => negb (x =? c)) lit_true = true
  /\ forallb (fun x => negb (x =? c)) lit_false = true
  /\ forallb (fun x => negb (x =? c)) lit_null = true.
Proof.
  unfold junk, is_digit, lit_true, lit_false, lit_null. intros H.
  repeat split; cbn [forallb]; nbool.
Qed.

Lemma next_token_snoc s c :
  junk c = true -> s <> [] ->
  next_token (s ++ [c]) = out_snoc c (next_token s).
Proof.
  intros Hj Hne. destruct s as [|d rest]; [congruence|].
  destruct (junk_not_in_literals _ Hj) as (Ht & Hf & Hn).
  assert (Hq : c <> c_quote) by (unfold junk, is_digit, c_quote in *; nbool).
  change ((d :: rest) ++ [c]) with (d :: (rest ++ [c])). unfold next_token.
  destruct (is_json_ws d); [reflexivity|].
  destruct (d =? 123); [reflexivity|].
  destruct (d =? 125); [reflexivity|].
  destruct (d =? 91); [reflexivity|].
  destruct (d =? 93); [reflexivity|].
  destruct (d =? 44); [reflexivity|].
  destruct (d =? 58); [reflexivity|].
  destruct (d =? c_quote).
  { rewrite lex_string_snoc by assumption.
    destruct (lex_string rest) as [[[? ?] ?]|]; reflexivity. }
  destruct ((d =? 45) || is_digit d).
  { change (d :: rest ++ [c]) with ((d :: rest) ++ [c]).
    rewrite lex_number_snoc by assumption.
    destruct (lex_number (d :: rest)) as [[? ?]|]; reflexivity. }
  change (d :: rest ++ [c]) with ((d :: rest) ++ [c]).
  rewrite !startsWith_snoc by assumption.
  destruct (startsWith lit_true (d :: rest)) eqn:E1.
  { simpl out_snoc. rewrite skipn_snoc; [reflexivity|].
    apply startsWith_length in E1. exact E1. }
  destruct (startsWith lit_false (d :: rest)) eqn:E2.
  { simpl out_snoc. rewrite skipn_snoc; [reflexivity|].
    apply startsWith_length in E2. exact E2. }
  destruct (startsWith lit_null (d :: rest)) eqn:E3.
  { simpl out_snoc. rewrite skipn_snoc; [reflexivity|].
    apply startsWith_length in E3. exact E3. }
  reflexivity.
Qed.

(** ** The lexer *)

Lemma lex_unfold f s :
  lex (S f) s =
  match s with
  | [] => Some []
  | _ :: _ =>
      match next_token s with
      | None => None
      | Some (None, out) => lex f out
      | Some (Some t, out) => cons_tok t (lex f out)
      end
  end.
Proof. reflexivity. Qed.

(** Fuel above the length of the text is never used up: the result is
    the same for every such amount. *)
Lemma lex_enough f' : forall s f ts,
  (length s < f')%nat -> lex f s = Some ts -> lex f' s = Some ts.
Proof.
  induction f' as [|f' IH]; intros s f ts Hl H; [lia|].
  destruct f as [|f]; [discriminate|].
  rewrite lex_unfold in *. destruct s as [|c rest]; [assumption|].
  destruct (next_token (c :: rest)) as [[ot out]|] eqn:E; [|discriminate].
  pose proof (next_token_shorter _ _ _ E) as Hs.
  destruct ot as [t|].
  - destruct (lex f out) as [ts'|] eqn:E'; [|discriminate].
    rewrite (IH out f ts'); [assumption|simpl in *; lia|assumption].
  - apply (IH out f); [simpl in *; lia|assumption].
Qed.

Lemma lex_fuel s f1 f2 :
  (length s < f1)%nat -> (length s < f2)%nat -> lex f1 s = lex f2 s.
Proof.
  intros H1 H2. destruct (lex f1 s) as [ts|] eqn:E1.
  - symmetry. eapply lex_enough; eauto.
  - destruct (lex f2 s) as [ts|] eqn:E2; [|reflexivity].
    rewrite (lex_enough f1 s f2 ts) in E1; [discriminate|assumption|assumption].
Qed.

Lemma tokens_lex s f ts : lex f s = Some ts -> tokens s = Some ts.
Proof. intros H. unfold tokens. eapply lex_enough; eauto. Qed.

(** A junk character at the end of a text that has tokens is white
    space, and the text before it has the same tokens. *)
Lemma lex_snoc f : forall s c ts,
  junk c = true -> lex f (s ++ [c]) = Some ts ->
  is_json_ws c = true /\ lex f s = Some ts.
Proof.
  induction f as [|f IH]; intros s c ts Hj H; [discriminate|].
  destruct s as [|d rest].
  - simpl app in H. rewrite lex_unfold in H. unfold next_token in H.
    destruct (is_json_ws c) eqn:Hws.
    + split; [reflexivity|]. destruct f; [discriminate|]. simpl in H.
      inversion H. reflexivity.
    + exfalso. pose proof (junk_not_digit _ Hj) as Hd.
      destruct (junk_not_in_literals _ Hj) as (Ht & Hf & Hn).
      unfold junk, is_digit, c_quote in *.
      assert (E1 : startsWith lit_true [c] = false)
        by (unfold lit_true; cbn [startsWith]; nbool).
      assert (E2 : startsWith lit_false [c] = false)
        by (unfold lit_false; cbn [startsWith]; nbool).
      assert (E3 : startsWith lit_null [c] = false)
        by (unfold lit_null; cbn [startsWith]; nbool).
      rewrite E1, E2, E3 in H. clear E1 E2 E3 Ht Hf Hn. nbool.
  - rewrite lex_unfold in *. change ((d :: rest) ++ [c]) with (d :: (rest ++ [c])) in H.
    change (d :: (rest ++ [c])) with ((d :: rest) ++ [c]) in H.
    rewrite next_token_snoc in H by (assumption || congruence).
    destruct (next_token (d :: rest)) as [[ot out]|]; simpl in H; [|discriminate].
    destruct ot as [t|].
    + destruct (lex f (out ++ [c])) as [ts'|] eqn:E; [|discriminate].
      destruct (IH _ _ _ Hj E) as [Hws ->]. auto.
    + apply IH; assumption.
Qed.

(** On a text that has tokens, none of which ends in a backslash before
    its closing quote, the scan changes nothing. *)
Lemma lex_scan f : forall s ts p,
  lex f s = Some ts -> forallb clean_token ts = true ->
  p <> Some c_backslash -> scan p false s = s.
Proof.
  induction f as [|f IH]; intros s ts p H Hc Hp; [discriminate|].
  rewrite lex_unfold in H. destruct s as [|c rest]; [reflexivity|].
  destruct (next_token (c :: rest)) as [[ot out]|] eqn:E; [|discriminate].
  assert (Hot : match ot with Some t => clean_token t = true | None => True end
                /\ exists ts', lex f out = Some ts' /\ forallb clean_token ts' = true).
  { destruct ot as [t|].
    - destruct (lex f out) as [ts'|]; [|discriminate]. inversion H; subst.
      simpl in Hc. apply andb_true_iff in Hc as [? ?]. eauto.
    - eauto. }
  destruct Hot as (Hcl & ts' & Hl & Hc').
  destruct (next_token_scan _ _ _ E Hcl) as (pre & Hs & _ & Hscan).
  destruct (Hscan p Hp) as (p' & Hp' & Heq).
  rewrite Hs, Heq. f_equal. eapply IH; eauto.
Qed.

(** ** Trimming *)

Lemma trimEnd_snoc s c :
  trimEnd (s ++ [c]) = if is_js_space c then trimEnd s else s ++ [c].
Proof.
  unfold trimEnd. rewrite rev_app_distr. simpl.
  destruct (is_js_space c); [reflexivity|].
  simpl. rewrite rev_involutive. reflexivity.
Qed.

Lemma next_token_junk c rest r :
  junk c = true -> next_token (c :: rest) = Some r -> is_json_ws c = true.
Proof.
  intros Hj H. destruct (is_json_ws c) eqn:Hws; [reflexivity|]. exfalso.
  unfold next_token in H. rewrite Hws in H.
  unfold junk, is_digit, lit_true, lit_false, lit_null, c_quote in *.
  cbn [startsWith] in H. nbool.
Qed.

Lemma tokens_cons_ws c rest :
  is_json_ws c = true -> tokens (c :: rest) = tokens rest.
Proof.
  intros Hws. unfold tokens. simpl length. rewrite lex_unfold.
  unfold next_token. rewrite Hws. reflexivity.
Qed.

Lemma tokens_trimStart s ts :
  tokens s = Some ts -> tokens (trimStart s) = Some ts.
Proof.
  induction s as [|c rest IH]; intros H; [assumption|]. simpl trimStart.
  destruct (is_js_space c) eqn:Hsp; [|assumption].
  assert (Hws : is_json_ws c = true).
  { unfold tokens in H. simpl length in H. rewrite lex_unfold in H.
    destruct (next_token (c :: rest)) as [r|] eqn:E; [|discriminate].
    eapply next_token_junk; eauto using js_space_junk. }
  rewrite tokens_cons_ws in H by assumption. auto.
Qed.

Lemma tokens_snoc s c ts :
  junk c = true -> tokens (s ++ [c]) = Some ts ->
  is_json_ws c = true /\ tokens s = Some ts.
Proof.
  intros Hj H. unfold tokens in H. apply lex_snoc in H as [Hws H]; [|assumption].
  split; [assumption|]. eapply tokens_lex; eauto.
Qed.

Lemma tokens_trimEnd s ts :
  tokens s = Some ts -> tokens (trimEnd s) = Some ts.
Proof.
  induction s as [|c s IH] using rev_ind; intros H; [assumption|].
  rewrite trimEnd_snoc. destruct (is_js_space c) eqn:Hsp; [|assumption].
  apply tokens_snoc in H as [_ H]; auto using js_space_junk.
Qed.

Lemma tokens_trim s ts : tokens s = Some ts -> tokens (trim s) = Some ts.
Proof. intros H. apply tokens_trimEnd, tokens_trimStart, H. Qed.

(** A text that has tokens neither starts nor ends with a backtick. *)
Lemma tokens_no_fence s ts : tokens s = Some ts -> strip_fences s = s.
Proof.
  intros H. unfold strip_fences.
  assert (H1 : startsWith fence_json s = false /\ startsWith fence s = false).
  { destruct s as [|c rest]; [split; reflexivity|].
    unfold tokens in H. simpl length in H. rewrite lex_unfold in H.
    destruct (next_token (c :: rest)) as [r|] eqn:E; [|discriminate].
    unfold fence_json, fence. cbn [startsWith].
    destruct (N.eqb_spec 96 c) as [<-|]; [|split; reflexivity].
    apply next_token_junk in E; [discriminate|reflexivity]. }
  destruct H1 as [-> ->].
  assert (H2 : endsWith fence s = false).
  { unfold endsWith, fence.
    destruct s as [|c s] using rev_ind; [reflexivity|].
    rewrite rev_app_distr. cbn [rev app startsWith].
    destruct (N.eqb_spec 96 c) as [<-|]; [|reflexivity].
    apply tokens_snoc in H as [H _]; [discriminate|reflexivity]. }
  rewrite H2. reflexivity.
Qed.

(** On valid JSON without the blind spot of the scan, the repair leaves
    the tokens as they are. *)
Lemma tokens_sanitize j ts :
  tokens j = Some ts -> forallb clean_token ts = true ->
  tokens (sanitizeJsonResponse j) = Some ts.
Proof.
  intros H Hc. unfold sanitizeJsonResponse.
  pose proof (tokens_trim _ _ H) as H1.
  rewrite (tokens_no_fence _ _ H1).
  pose proof (tokens_trim _ _ H1) as H2.
  rewrite (lex_scan _ _ ts None H2 Hc); [assumption|discriminate].
Qed.

(** C7 (amended).  For every valid JSON text in which no string literal
    has a backslash right before its closing quote, repairing and then
    parsing gives the structure that parsing the text itself gives. *)
Theorem repair_preserves_valid_json (j : str) (v : json) :
  JSON_parse j = Some v ->
  closing_quotes_clean j = true ->
  JSON_parse (sanitizeJsonResponse j) = Some v.
Proof.
  unfold JSON_parse, closing_quotes_clean. intros H Hc.
  destruct (tokens j) as [ts|] eqn:E; [|discriminate].
  rewrite (tokens_sanitize _ _ E Hc). assumption.
Qed.

Lemma repair_preserves_valid_json_witness :
  JSON_parse (sanitizeJsonResponse pretty_array)
  = Some (JArray [JString [97; 34; 98];
                  JNumber {| neg := false; mant := 1; exp10 := 0 |}]).
Proof.
  apply (repair_preserves_valid_json pretty_array); reflexivity.
Defined.

(** The claim as first stated fails: the text is valid JSON, no string
    literal of it holds a raw newline, and the repaired text does not
    parse.  The closing quote after the escaped backslash is taken for
    an escaped quote, and the line break after the comma is escaped. *)
Lemma repair_breaks_valid_json :
  JSON_parse backslash_array
  = Some (JArray [JString [c_backslash];
                  JNumber {| neg := false; mant := 1; exp10 := 0 |}])
  /\ no_raw_newline backslash_array = true
  /\ JSON_parse (sanitizeJsonResponse backslash_array) = None.
Proof. vm_compute. repeat split. Qed.

(** ** The repair round trip *)





Lemma trimStart_spaces ws a rest :
  forallb is_js_space ws = true -> is_js_space a = false ->
  trimStart (ws ++ a :: rest) = a :: rest.
Proof.
  induction ws as [|x ws IH]; intros H Ha; simpl.
  - rewrite Ha. reflexivity.
  - simpl in H. apply andb_true_iff in H as [-> H]. auto.
Qed.

Lemma trimEnd_spaces ws x z :
  forallb is_js_space ws = true -> is_js_space z = false ->
  trimEnd ((x ++ [z]) ++ ws) = x ++ [z].
Proof.
  induction ws as [|y ws IH] using rev_ind; intros H Hz.
  - rewrite app_nil_r, trimEnd_snoc, Hz. reflexivity.
  - rewrite forallb_app in H. apply andb_true_iff in H as [H Hy].
    simpl in Hy. rewrite andb_true_r in Hy.
    rewrite app_assoc, trimEnd_snoc, Hy. auto.
Qed.

Lemma trim_spaces ws1 ws2 a mid z :
  forallb is_js_space ws1 = true -> forallb is_js_space ws2 = true ->
  is_js_space a = false -> is_js_space z = false ->
  trim (ws1 ++ (a :: mid ++ [z]) ++ ws2) = a :: mid ++ [z].
Proof.
  intros H1 H2 Ha Hz. unfold trim.
  change ((a :: mid ++ [z]) ++ ws2) with (a :: ((mid ++ [z]) ++ ws2)).
  rewrite trimStart_spaces by assumption.
  change (a :: (mid ++ [z]) ++ ws2) with (((a :: mid) ++ [z]) ++ ws2).
  rewrite trimEnd_spaces by assumption. reflexivity.
Qed.

Lemma strip_fences_wrapped X :
  strip_fences (fence_json ++ X ++ fence) = X.
Proof.
  unfold strip_fences.
  assert (H1 : startsWith fence_json (fence_json ++ X ++ fence) = true) by reflexivity.
  rewrite H1. unfold slice_from.
  change (skipn 7 (fence_json ++ X ++ fence)) with (X ++ fence).
  assert (H2 : endsWith fence (X ++ fence) = true).
  { unfold endsWith. rewrite rev_app_distr. reflexivity. }
  rewrite H2. unfold slice_drop_last. rewrite length_app. simpl length.
  replace (length X + 3 - 3)%nat with (length X) by lia.
  rewrite firstn_app, firstn_all, Nat.sub_diag. simpl. apply app_nil_r.
Qed.







(** ** The gateway on malformed output *)




(** C6 (the code at the failing input).  The model answers a page with an
    empty question list in a fenced code block.  The text does not parse
    as it is and parses once repaired; [generateJson] returns the parsed
    object for it; the extraction of the page raises the parse error, and
    the repair is never called. *)
Theorem analyzeImage_does_not_repair :
  JSON_parse fenced_empty_page = None
  /\ JSON_parse (sanitizeJsonResponse fenced_empty_page)
     = Some (JObject [(key_questions, JArray [])])
  /\ fst (generateJson (constant_world fenced_empty_page) [] initSys)
     = Ok (JObject [(key_questions, JArray [])], zeroUsage)
  /\ fst (extractQuestionsFromPage (constant_world fenced_empty_page) page1 initSys)
     = Throw (Error (parse_failure ++ fenced_empty_page))
  /\ filter is_repair
       (trace (snd (extractQuestionsFromPage (constant_world fenced_empty_page)
                      page1 initSys))) = [].
Proof. vm_compute. repeat split. Qed.


(** ** Traces *)

Lemma writes_of_app a b : writes_of (a ++ b) = writes_of a ++ writes_of b.
Proof. induction a as [|[] a IH]; simpl; rewrite ?IH; reflexivity. Qed.

Lemma explained_of_app a b : explained_of (a ++ b) = explained_of a ++ explained_of b.
Proof. induction a as [|[] a IH]; simpl; rewrite ?IH; reflexivity. Qed.

Lemma errors_of_app a b : errors_of (a ++ b) = errors_of a ++ errors_of b.
Proof. induction a as [|[] a IH]; simpl; rewrite ?IH; reflexivity. Qed.

Lemma progress_of_app a b : progress_of (a ++ b) = progress_of a ++ progress_of b.
Proof. induction a as [|[] a IH]; simpl; rewrite ?IH; reflexivity. Qed.

Lemma page_marks_app p a b : page_marks p (a ++ b) = page_marks p a ++ page_marks p b.
Proof. induction a as [|[] a IH]; simpl; rewrite ?IH; reflexivity. Qed.

Lemma warned_of_app a b : warned_of (a ++ b) = warned_of a ++ warned_of b.
Proof. induction a as [|[] a IH]; simpl; rewrite ?IH; reflexivity. Qed.

Lemma gateway_events_quiet evs :
  forallb gateway_event evs = true ->
  writes_of evs = [] /\ explained_of evs = [] /\ errors_of evs = []
  /\ progress_of evs = [] /\ (forall p, page_marks p evs = []) /\ warned_of evs = [].
Proof.
  induction evs as [|e evs IH]; simpl; [auto 10|].
  intros H. apply andb_true_iff in H as [He H]. destruct e; try discriminate; auto.
Qed.

(** ** The explanation of one question *)

Ltac run_m :=
  cbv beta iota zeta delta
    [bind ret throw lift emit modify get try_catch add_event liftSys
     updateUsage call_sanitize generateContent getGeminiClient
     incr_errors incr_processed add_tokens assign_explanation fst snd].

Lemma generateJson_run w prompt s :
  exists evs,
    fst (generateJson w prompt s) =
      match model w (calls s) (text_request prompt) with
      | Rejected e => Throw e
      | Response t um =>
          match JSON_parse (text_of t) with
          | Some d => Ok (d, usage_of um)
          | None =>
              match JSON_parse (sanitizeJsonResponse (text_of t)) with
              | Some d => Ok (d, usage_of um)
              | None => Throw (Error (parse_failure ++ substring0 500 (text_of t)
                                      ++ ellipsis))
              end
          end
      end
    /\ calls (snd (generateJson w prompt s)) = S (calls s)
    /\ reads (snd (generateJson w prompt s)) = reads s
    /\ writes (snd (generateJson w prompt s)) = writes s
    /\ trace (snd (generateJson w prompt s)) = trace s ++ evs
    /\ forallb gateway_event evs = true.
Proof.
  unfold generateJson, text_request. run_m.
  destruct (model w (calls s) _) as [e|t um]; cbn [fst snd].
  - eexists. repeat split; reflexivity.
  - destruct (JSON_parse (text_of t)) as [d|]; cbn [fst snd].
    + eexists. repeat split; reflexivity.
    + destruct (JSON_parse (sanitizeJsonResponse (text_of t))) as [d|];
        cbn [fst snd calls reads writes trace];
        exists [EvModelCall {| req_prompt := prompt; req_images := []; req_json := true |};
                EvRepair (text_of t)];
        rewrite <- app_assoc; repeat split; reflexivity.
Qed.

Lemma generateExplanation_run w q s :
  exists evs,
    fst (generateExplanation w q s) = outcome w q (calls s)
    /\ calls (snd (generateExplanation w q s)) = (calls s + calls_made w q)%nat
    /\ reads (snd (generateExplanation w q s)) = reads s
    /\ writes (snd (generateExplanation w q s)) = writes s
    /\ trace (snd (generateExplanation w q s)) = trace s ++ evs
    /\ forallb gateway_event evs = true.
Proof.
  unfold generateExplanation, outcome, calls_made, getGeminiClient.
  destruct (apiKey w).
  2:{ exists []. run_m. rewrite app_nil_r, Nat.add_0_r. repeat split; reflexivity. }
  destruct (buildPrompt w q) as [p|e].
  2:{ exists []. run_m. rewrite app_nil_r, Nat.add_0_r. repeat split; reflexivity. }
  destruct (generateJson_run w p s) as (evs & Hf & Hc & Hr & Hw & Ht & Hg).
  exists evs. unfold bind, lift, ret.
  destruct (generateJson w p s) as [[[d u]|e] s'] eqn:E; cbn [fst snd] in *.
  - unfold explain_reply.
    destruct (model w (calls s) (text_request p)) as [e|t um]; [discriminate|].
    assert (Hd : match JSON_parse (text_of t) with
                 | Some d' => d' = d /\ usage_of um = u
                 | None => JSON_parse (sanitizeJsonResponse (text_of t)) = Some d
                           /\ usage_of um = u
                 end).
    { destruct (JSON_parse (text_of t)); [inversion Hf; auto|].
      destruct (JSON_parse (sanitizeJsonResponse (text_of t)));
        inversion Hf; auto. }
    destruct (JSON_parse (text_of t)) as [d'|].
    + destruct Hd as [-> ->].
      destruct (get_prop d key_explanation); cbn [fst snd];
        rewrite Hc, Nat.add_1_r; repeat split; auto.
    + destruct Hd as [-> ->].
      destruct (get_prop d key_explanation); cbn [fst snd];
        rewrite Hc, Nat.add_1_r; repeat split; auto.
  - rewrite Hc, Nat.add_1_r. repeat split; auto.
    unfold explain_reply.
    destruct (model w (calls s) (text_request p)) as [e'|t um];
      [inversion Hf; reflexivity|].
    destruct (JSON_parse (text_of t)); [discriminate|].
    destruct (JSON_parse (sanitizeJsonResponse (text_of t))); [discriminate|].
    inversion Hf; reflexivity.
Qed.

Lemma process_question_run w b idx r q :
  pd_questions (data r) !! idx = Some q ->
  exists r1 evs,
    process_question w b idx r = (Ok tt, r1)
    /\ trace (sys r1) = trace (sys r) ++ evs
    /\ calls (sys r1) = (calls (sys r) + calls_made w q)%nat
    /\ explained_of evs = [idx]
    /\ match outcome w q (calls (sys r)) with
       | Throw e =>
           data r1 = data r /\ processed r1 = processed r
           /\ run_totalTokens r1 = run_totalTokens r
           /\ errors r1 = (errors r + 1)%Z
           /\ errors_of evs = [idx] /\ writes_of evs = []
       | Ok (ex, t) =>
           data r1 = assign idx ex (data r)
           /\ processed r1 = (processed r + 1)%Z
           /\ run_totalTokens r1 = (run_totalTokens r + t)%Z
           /\ writes_of evs
              = (if checkpoint_due (processed r + 1) b then [data r1] else [])
           /\ errors r1 = (errors r + Z.of_nat (length (errors_of evs)))%Z
           /\ ((forall n, write_error w n = None) -> errors_of evs = [])
       end.
Proof.
  intros Hq.
  set (s0 := add_event (EvExplain idx) (sys r)).
  destruct (generateExplanation_run w q s0) as (gevs & Hf & Hc & _ & Hw & Ht & Hg).
  destruct (gateway_events_quiet _ Hg) as (Gw & Ge & Gr & _).
  assert (Hstep : process_question w b idx r =
    match generateExplanation w q s0 with
    | (Throw e, s1) =>
        (Ok tt, {| data := data r; processed := processed r;
                   run_totalTokens := run_totalTokens r;
                   errors := (errors r + 1)%Z;
                   sys := add_event (EvError idx e) s1 |})
    | (Ok (ex, t), s1) =>
        let d' := assign idx ex (data r) in
        let p' := (processed r + 1)%Z in
        let t' := (run_totalTokens r + t)%Z in
        if checkpoint_due p' b then
          match write_error w (writes s1) with
          | None =>
              (Ok tt, {| data := d'; processed := p'; run_totalTokens := t';
                         errors := errors r;
                         sys := {| cumulativeUsage := cumulativeUsage s1;
                                   calls := calls s1; reads := reads s1;
                                   writes := S (writes s1);
                                   trace := trace s1 ++ [EvWrite d' true] |} |})
          | Some e =>
              (Ok tt, {| data := d'; processed := p'; run_totalTokens := t';
                         errors := (errors r + 1)%Z;
                         sys := add_event (EvError idx e)
                                  {| cumulativeUsage := cumulativeUsage s1;
                                     calls := calls s1; reads := reads s1;
                                     writes := S (writes s1);
                                     trace := trace s1 ++ [EvWrite d' false] |} |})
          end
        else (Ok tt, {| data := d'; processed := p'; run_totalTokens := t';
                        errors := errors r; sys := s1 |})
    end).
  { unfold process_question, try_catch, bind at 1, get at 1. rewrite Hq.
    unfold bind at 1. unfold liftSys at 1, emit, modify. fold s0.
    cbn [sys data processed run_totalTokens errors].
    unfold bind at 1. unfold liftSys at 1. cbn [sys].
    destruct (generateExplanation w q s0) as [[[ex t]|e] s1]; cbn [fst snd].
    - unfold bind at 1. unfold assign_explanation.
      cbn [sys data processed run_totalTokens errors]. rewrite Hq.
      unfold bind at 1, add_tokens, modify.
      unfold bind at 1, incr_processed, modify.
      unfold bind at 1, get.
      cbn [sys data processed run_totalTokens errors].
      unfold assign. rewrite Hq. cbn zeta.
      destruct (checkpoint_due (processed r + 1) b).
      + unfold liftSys, saveCheckpoint. cbn [sys data processed run_totalTokens errors].
        destruct (write_error w (writes s1)); reflexivity.
      + reflexivity.
    - reflexivity. }
  rewrite Hstep. clear Hstep.
  change (calls s0) with (calls (sys r)) in Hf, Hc. rewrite <- Hf.
  assert (Hc0 : calls s0 = calls (sys r)) by reflexivity.
  assert (Ht0 : trace s0 = trace (sys r) ++ [EvExplain idx]) by reflexivity.
  destruct (generateExplanation w q s0) as [[[ex t]|e] s1]; cbn [fst snd] in *.
  - cbn zeta. destruct (checkpoint_due (processed r + 1) b).
    + destruct (write_error w (writes s1)) as [e|] eqn:Ew.
      * eexists _, ([EvExplain idx] ++ gevs ++ [EvWrite _ false; EvError idx e]).
        split; [reflexivity|]. cbn [sys trace calls data processed run_totalTokens errors add_event].
        rewrite Ht, Ht0, Hc, <- !app_assoc.
        rewrite !explained_of_app, !writes_of_app, !errors_of_app, Ge, Gw, Gr.
        repeat split; try reflexivity. intros Hall. rewrite Hall in Ew. discriminate.
      * eexists _, ([EvExplain idx] ++ gevs ++ [EvWrite _ true]).
        split; [reflexivity|]. cbn [sys trace calls data processed run_totalTokens errors].
        rewrite Ht, Ht0, Hc, <- !app_assoc.
        rewrite !explained_of_app, !writes_of_app, !errors_of_app, Ge, Gw, Gr.
        cbn. rewrite Z.add_0_r. repeat split; reflexivity.
    + eexists _, ([EvExplain idx] ++ gevs).
      split; [reflexivity|]. cbn [sys trace calls data processed run_totalTokens errors].
      rewrite Ht, Ht0, Hc, <- !app_assoc.
      rewrite !explained_of_app, !writes_of_app, !errors_of_app, Ge, Gw, Gr.
      cbn. rewrite Z.add_0_r. repeat split; reflexivity.
  - eexists _, ([EvExplain idx] ++ gevs ++ [EvError idx e]).
    split; [reflexivity|]. cbn [sys trace calls data processed run_totalTokens errors add_event].
    rewrite Ht, Ht0, Hc, <- !app_assoc.
    rewrite !explained_of_app, !writes_of_app, !errors_of_app, Ge, Gw, Gr.
    repeat split; reflexivity.
Qed.

(** ** The backfill loop *)

Lemma outcomes_ext w qs1 qs2 l : forall n,
  (forall i, In i l -> qs1 !! i = qs2 !! i) ->
  outcomes w qs1 n l = outcomes w qs2 n l.
Proof.
  induction l as [|idx rest IH]; intros n H; [reflexivity|].
  simpl. rewrite (H idx) by (left; reflexivity).
  destruct (qs2 !! idx); f_equal; apply IH; intros i Hi; apply H; right; exact Hi.
Qed.

Lemma map_fst_outcomes w qs l : forall n, map fst (outcomes w qs n l) = l.
Proof.
  induction l as [|idx rest IH]; intros n; [reflexivity|].
  simpl. destruct (qs !! idx); simpl; f_equal; apply IH.
Qed.

Lemma assign_lookup_ne idx e d i :
  i <> idx -> pd_questions (assign idx e d) !! i = pd_questions d !! i.
Proof.
  intros Hne. unfold assign. destruct (pd_questions d !! idx); [|reflexivity].
  cbn [pd_questions set_questions]. apply list_lookup_insert_ne. congruence.
Qed.

Lemma assign_lookup_eq idx e d :
  pd_questions (assign idx e d) !! idx
  = set_explanation e <$> pd_questions d !! idx.
Proof.
  unfold assign. destruct (pd_questions d !! idx) as [q|] eqn:E.
  - cbn [pd_questions set_questions]. rewrite list_lookup_insert_eq; [reflexivity|].
    apply lookup_lt_Some in E. exact E.
  - rewrite E. reflexivity.
Qed.

Lemma assign_is_Some idx e d i :
  is_Some (pd_questions d !! i) -> is_Some (pd_questions (assign idx e d) !! i).
Proof.
  intros H. destruct (Nat.eq_dec i idx) as [->|Hne].
  - rewrite assign_lookup_eq. destruct H as [q ->]. eexists; reflexivity.
  - rewrite assign_lookup_ne by assumption. exact H.
Qed.

Lemma for_each_unfold body idx rest (r : Run) :
  for_each body (idx :: rest) r =
  match body idx r with
  | (Ok _, r1) => for_each body rest r1
  | (Throw e, r1) => (Throw e, r1)
  end.
Proof. reflexivity. Qed.

Lemma for_each_run w b : forall l r,
  NoDup l ->
  (forall i, In i l -> is_Some (pd_questions (data r) !! i)) ->
  exists r' evs,
    for_each (process_question w b) l r = (Ok tt, r')
    /\ trace (sys r') = trace (sys r) ++ evs
    /\ data r' = apply_steps
                   (successes (outcomes w (pd_questions (data r)) (calls (sys r)) l))
                   (data r)
    /\ processed r'
       = (processed r + Z.of_nat (length
            (successes (outcomes w (pd_questions (data r)) (calls (sys r)) l))))%Z
    /\ explained_of evs = l
    /\ writes_of evs
       = at_multiples (processed r) b
           (snapshots (data r)
              (successes (outcomes w (pd_questions (data r)) (calls (sys r)) l)))
    /\ errors r' = (errors r + Z.of_nat (length (errors_of evs)))%Z
    /\ failures (outcomes w (pd_questions (data r)) (calls (sys r)) l)
       `sublist_of` errors_of evs
    /\ ((forall n, write_error w n = None) ->
        errors_of evs = failures (outcomes w (pd_questions (data r)) (calls (sys r)) l)).
Proof.
  induction l as [|idx rest IH]; intros r Hnd Hin.
  - exists r, []. cbn. rewrite app_nil_r, !Z.add_0_r.
    repeat split; auto.
  - apply NoDup_cons in Hnd as [Hnotin Hnd].
    destruct (Hin idx (or_introl eq_refl)) as [q Hq].
    destruct (process_question_run w b idx r q Hq)
      as (r1 & evs1 & Hrun & Htr & Hcalls & Hex & Hcase).
    rewrite for_each_unfold, Hrun. cbn [outcomes]. rewrite Hq.
    assert (Hrest : forall d1, (d1 = data r \/ exists ex, d1 = assign idx ex (data r)) ->
              data r1 = d1 ->
              outcomes w (pd_questions (data r1)) (calls (sys r1)) rest
              = outcomes w (pd_questions (data r)) (calls (sys r) + calls_made w q) rest
              /\ (forall i, In i rest -> is_Some (pd_questions (data r1) !! i))).
    { intros d1 Hd1 E. rewrite Hcalls, E. split.
      - apply outcomes_ext. intros i Hi. destruct Hd1 as [->|[ex ->]]; [reflexivity|].
        apply assign_lookup_ne. intros ->. apply Hnotin.
        apply list_elem_of_In. exact Hi.
      - intros i Hi. destruct Hd1 as [->|[ex ->]].
        + apply Hin. right. exact Hi.
        + apply assign_is_Some, Hin. right. exact Hi. }
    assert (Hnd' : NoDup rest) by exact Hnd.
    destruct (outcome w q (calls (sys r))) as [[ex t]|e].
    + destruct Hcase as (Hd & Hp & Ht & Hw & He & Hall).
      destruct (Hrest (assign idx ex (data r)) (or_intror (ex_intro _ ex eq_refl)) Hd)
        as [Hos Hin1].
      destruct (IH r1 Hnd' Hin1)
        as (r' & evs & Hfor & Htr' & Hd' & Hp' & Hex' & Hw' & He' & Hlen & Hall').
      rewrite Hos in *. clear Hos.
      exists r', (evs1 ++ evs). cbn [successes failures snapshots apply_steps fold_left
                                     at_multiples length fst snd].
      rewrite Htr', Htr, <- app_assoc.
      rewrite explained_of_app, writes_of_app, errors_of_app, Hex, Hex', Hw, Hw'.
      rewrite Hd', Hp', He', He, Hd, Hp, length_app.
      repeat split; try reflexivity; try lia.
      * exact Hfor.
      * apply sublist_inserts_l. exact Hlen.
      * intros Hn. rewrite (Hall Hn), (Hall' Hn). reflexivity.
    + destruct Hcase as (Hd & Hp & Ht & He & Herr & Hw).
      destruct (Hrest (data r) (or_introl eq_refl) Hd) as [Hos Hin1].
      destruct (IH r1 Hnd' Hin1)
        as (r' & evs & Hfor & Htr' & Hd' & Hp' & Hex' & Hw' & He' & Hlen & Hall').
      rewrite Hos in *. clear Hos.
      exists r', (evs1 ++ evs). cbn [successes failures length].
      rewrite Htr', Htr, <- app_assoc.
      rewrite explained_of_app, writes_of_app, errors_of_app, Hex, Hex', Hw, Hw', Herr.
      rewrite Hd', Hp', He', He, Hd, Hp. cbn [app length].
      repeat split; try reflexivity; try lia.
      * exact Hfor.
      * apply sublist_skip. exact Hlen.
      * intros Hn. rewrite (Hall' Hn). reflexivity.
Qed.

(** ** The pending set *)

Lemma questionsToProcess_from_filter skip qs : forall i,
  questionsToProcess_from skip i qs
  = List.filter (fun j => pending_at skip qs (j - i)) (seq i (length qs)).
Proof.
  induction qs as [|q rest IH]; intros i; [reflexivity|].
  cbn [questionsToProcess_from length seq List.filter].
  rewrite Nat.sub_diag. unfold pending_at at 1. cbn [lookup list_lookup].
  rewrite IH.
  assert (E : List.filter (fun j => pending_at skip (q :: rest) (j - i)) (seq (S i) (length rest))
              = List.filter (fun j => pending_at skip rest (j - S i)) (seq (S i) (length rest))).
  { apply filter_ext_in. intros j Hj. apply in_seq in Hj.
    replace (j - i)%nat with (S (j - S i)) by lia. reflexivity. }
  rewrite E. unfold is_pending.
  destruct (skip && truthy (explanation q)); [reflexivity|].
  destruct (is_null (correctChoice q)); reflexivity.
Qed.

Lemma questionsToProcess_filter skip d :
  questionsToProcess skip d
  = List.filter (pending_at skip (pd_questions d)) (seq 0 (length (pd_questions d))).
Proof.
  unfold questionsToProcess. rewrite questionsToProcess_from_filter.
  apply filter_ext. intros j. rewrite Nat.sub_0_r. reflexivity.
Qed.

Lemma questionsToProcess_NoDup skip d : NoDup (questionsToProcess skip d).
Proof.
  rewrite questionsToProcess_filter. apply NoDup_ListNoDup.
  apply List.NoDup_filter, seq_NoDup.
Qed.

Lemma questionsToProcess_In skip d i :
  In i (questionsToProcess skip d) <->
  exists q, pd_questions d !! i = Some q /\ is_pending skip q = true.
Proof.
  rewrite questionsToProcess_filter, filter_In, in_seq. unfold pending_at.
  split.
  - intros [_ H]. destruct (pd_questions d !! i) as [q|]; [eauto|discriminate].
  - intros (q & Hq & Hp). rewrite Hq. split; [|exact Hp].
    apply lookup_lt_Some in Hq. lia.
Qed.

(** ** The whole backfill run *)

Lemma main_run w opts files s d :
  apiKey w = true ->
  load opts files = Ok d ->
  questionsToProcess (skipExisting opts) d <> [] ->
  let pending := questionsToProcess (skipExisting opts) d in
  let os := outcomes w (pd_questions d) (calls s) pending in
  exists code r evs ok,
    main w opts files s = Finished code r
    /\ trace (sys r) = trace s ++ evs ++ [EvWrite (data r) ok]
    /\ code = (if ok then 0 else 1)%Z
    /\ ((forall n, write_error w n = None) -> ok = true)
    /\ data r = apply_steps (successes os) d
    /\ processed r = Z.of_nat (length (successes os))
    /\ explained_of evs = pending
    /\ writes_of evs = at_multiples 0 (batchSize opts) (snapshots d (successes os))
    /\ errors r = Z.of_nat (length (errors_of evs))
    /\ failures os `sublist_of` errors_of evs
    /\ ((forall n, write_error w n = None) -> errors_of evs = failures os).
Proof.
  intros Hkey Hload Hne. cbv zeta. unfold main. rewrite Hkey, Hload. cbn [negb].
  remember (questionsToProcess (skipExisting opts) d) as pending eqn:Ep.
  destruct pending as [|i0 rest]; [congruence|].
  rewrite Ep. rewrite Ep in Hne. clear Ep i0 rest.
  set (pending := questionsToProcess (skipExisting opts) d).
  set (r0 := {| data := d; processed := 0; run_totalTokens := 0; errors := 0; sys := s |}).
  destruct (for_each_run w (batchSize opts) pending r0)
    as (r' & evs & Hfor & Htr & Hd & Hp & Hex & Hw & He & Hsub & Hall).
  { apply questionsToProcess_NoDup. }
  { intros i Hi. apply questionsToProcess_In in Hi as (q & Hq & _).
    exists q. exact Hq. }
  cbn [data processed errors sys r0] in *.
  unfold bind at 1. rewrite Hfor. unfold bind, get, liftSys, saveCheckpoint.
  destruct (write_error w (writes (sys r'))) as [e|] eqn:Ew.
  - eexists 1%Z, _, evs, false. split; [reflexivity|].
    cbn [sys data processed errors trace]. rewrite Htr, <- app_assoc.
    repeat split; auto. intros Hn. rewrite Hn in Ew. discriminate.
  - eexists 0%Z, _, evs, true. split; [reflexivity|].
    cbn [sys data processed errors trace]. rewrite Htr, <- app_assoc.
    repeat split; auto.
Qed.

Lemma main_nothing_pending w opts files s d :
  apiKey w = true ->
  load opts files = Ok d ->
  questionsToProcess (skipExisting opts) d = [] ->
  main w opts files s = Exited 0 s.
Proof.
  intros Hkey Hload Hp. unfold main. rewrite Hkey, Hload, Hp. reflexivity.
Qed.

(** ** What the steps change *)

Lemma assign_frame idx e d :
  name (assign idx e d) = name d /\ source (assign idx e d) = source d
  /\ startPage (assign idx e d) = startPage d /\ endPage (assign idx e d) = endPage d
  /\ stats (assign idx e d) = stats d
  /\ length (pd_questions (assign idx e d)) = length (pd_questions d).
Proof.
  unfold assign. destruct (pd_questions d !! idx); cbn; rewrite ?length_insert; auto 10.
Qed.

Lemma apply_steps_frame steps : forall d,
  name (apply_steps steps d) = name d /\ source (apply_steps steps d) = source d
  /\ startPage (apply_steps steps d) = startPage d
  /\ endPage (apply_steps steps d) = endPage d
  /\ stats (apply_steps steps d) = stats d
  /\ length (pd_questions (apply_steps steps d)) = length (pd_questions d).
Proof.
  induction steps as [|[i e] steps IH]; intros d; [cbn; auto 10|].
  cbn [apply_steps fold_left fst snd].
  destruct (IH (assign i e d)) as (H1 & H2 & H3 & H4 & H5 & H6).
  destruct (assign_frame i e d) as (A1 & A2 & A3 & A4 & A5 & A6).
  unfold apply_steps in *. rewrite H1, H2, H3, H4, H5, H6. auto 10.
Qed.

Lemma outcome_of_None i os : ~ In i (map fst os) -> outcome_of i os = None.
Proof.
  induction os as [|[j r] os IH]; intros H; [reflexivity|].
  cbn in *. destruct (Nat.eqb_spec i j); [subst; tauto|]. apply IH. tauto.
Qed.

Lemma apply_steps_lookup os : forall d i,
  NoDup (map fst os) ->
  pd_questions (apply_steps (successes os) d) !! i
  = updated os i <$> pd_questions d !! i.
Proof.
  induction os as [|[j r] os IH]; intros d i Hnd.
  - cbn. destruct (pd_questions d !! i); reflexivity.
  - cbn [map fst] in Hnd. apply NoDup_cons in Hnd as [Hnotin Hnd].
    assert (Hj : ~ In j (map fst os)) by (rewrite <- list_elem_of_In; exact Hnotin).
    unfold updated. cbn [outcome_of successes].
    destruct r as [[e t]|err].
    + cbn [apply_steps fold_left fst snd]. fold (apply_steps (successes os) (assign j e d)).
      rewrite IH by assumption. unfold updated.
      destruct (Nat.eqb_spec i j) as [->|Hne].
      * rewrite (outcome_of_None _ _ Hj), assign_lookup_eq.
        destruct (pd_questions d !! j); reflexivity.
      * rewrite assign_lookup_ne by assumption. reflexivity.
    + rewrite IH by assumption. unfold updated.
      destruct (Nat.eqb_spec i j) as [->|Hne]; [|reflexivity].
      rewrite (outcome_of_None _ _ Hj). reflexivity.
Qed.


Lemma snapshots_lookup steps : forall d k,
  (k < length steps)%nat ->
  snapshots d steps !! k = Some (apply_steps (firstn (S k) steps) d).
Proof.
  induction steps as [|s steps IH]; intros d k Hk; [cbn in Hk; lia|].
  destruct k as [|k]; [reflexivity|].
  cbn [snapshots lookup list_lookup]. rewrite IH by (cbn in Hk; lia). reflexivity.
Qed.

Lemma snapshots_length steps : forall d, length (snapshots d steps) = length steps.
Proof. induction steps as [|s steps IH]; intros d; cbn; auto. Qed.

(** ** Rasterizing *)

Lemma collect_pages_numbers pageSet doc : forall i,
  Forall (fun img => In (pi_pageNumber img) pageSet) (collect_pages pageSet i doc).
Proof.
  induction doc as [|image rest IH]; intros i; cbn [collect_pages]; [constructor|].
  apply Forall_app. split; [|apply IH].
  destruct (existsb (Z.eqb i) pageSet) eqn:E; [|constructor].
  constructor; [|constructor]. cbn. apply existsb_exists in E as (x & Hx & Ex).
  apply Z.eqb_eq in Ex. subst. exact Hx.
Qed.

Lemma insert_page_Forall (P : PageImage -> Prop) x l :
  P x -> Forall P l -> Forall P (insert_page x l).
Proof.
  intros Hx. induction 1 as [|y l Hy Hl IH]; cbn.
  - repeat constructor. exact Hx.
  - destruct (pi_pageNumber x <=? pi_pageNumber y)%Z; repeat constructor; auto.
Qed.

Lemma sort_pages_Forall (P : PageImage -> Prop) l :
  Forall P l -> Forall P (sort_pages l).
Proof.
  induction 1 as [|x l Hx Hl IH]; cbn; [constructor|].
  apply insert_page_Forall; assumption.
Qed.

Lemma convert_run w pageNumbers s :
  convertPdfPagesToImages w pageNumbers s =
  match pdf w (reads s) with
  | Ok document =>
      (Ok (sort_pages (collect_pages pageNumbers 1 document)),
       {| cumulativeUsage := cumulativeUsage s; calls := calls s;
          reads := S (reads s); writes := writes s; trace := trace s |})
  | Throw e =>
      (Throw e,
       {| cumulativeUsage := cumulativeUsage s; calls := calls s;
          reads := S (reads s); writes := writes s;
          trace := trace s ++ [EvLog (of_string "Failed to convert PDF pages:")] |})
  end.
Proof.
  unfold convertPdfPagesToImages, read_pdf. run_m.
  destruct (pdf w (reads s)); reflexivity.
Qed.

Lemma convert_page_number w p s img imgs s' :
  convertPdfPagesToImages w [p] s = (Ok (img :: imgs), s') ->
  pi_pageNumber img = p /\ trace s' = trace s.
Proof.
  rewrite convert_run. destruct (pdf w (reads s)) as [doc|e]; [|discriminate].
  intros H. inversion H as [[Himgs Hs]]. split; [|reflexivity].
  pose proof (sort_pages_Forall _ _ (collect_pages_numbers [p] doc 1)) as HF.
  rewrite Himgs in HF. inversion HF as [|? ? Hin _]. cbn in Hin.
  destruct Hin as [Hin|[]]. symmetry. exact Hin.
Qed.

(** ** The extraction of one page *)

Lemma map_questions_pages pageNum qs : forall idx l,
  map_questions pageNum idx qs = Ok l ->
  Forall (fun q => pageNumber q = pageNum) l.
Proof.
  induction qs as [|q rest IH]; intros idx l H; cbn [map_questions] in H.
  - inversion H. constructor.
  - destruct (get_prop q key_questionText), (get_prop q key_choices),
      (get_prop q key_correctChoice); try discriminate.
    destruct (map_questions pageNum (idx + 1) rest) as [l'|] eqn:E; [|discriminate].
    inversion H. constructor; [reflexivity|]. eapply IH; eauto.
Qed.

Lemma extract_run w img s :
  exists evs,
    trace (snd (extractQuestionsFromPage w img s)) = trace s ++ evs
    /\ forallb gateway_event evs = true
    /\ forall pr, fst (extractQuestionsFromPage w img s) = Ok pr ->
         per_pageNumber pr = pi_pageNumber img
         /\ Forall (fun q => pageNumber q = pi_pageNumber img) (per_questions pr).
Proof.
  unfold extractQuestionsFromPage, analyzeImage. run_m.
  destruct (apiKey w); [|exists []; cbn; rewrite app_nil_r; repeat split; discriminate].
  destruct (model w (calls s) _) as [e|t um]; cbn [fst snd trace].
  { eexists [_]. repeat split; discriminate. }
  destruct (JSON_parse (text_of t)) as [d|]; cbn [fst snd trace].
  2:{ eexists [_]. repeat split; discriminate. }
  destruct (questions_of d) as [qs|e]; cbn [fst snd trace].
  2:{ eexists [_]. repeat split; discriminate. }
  destruct (map_questions (pi_pageNumber img) 0 qs) as [l|e] eqn:E; cbn [fst snd trace].
  2:{ eexists [_]. repeat split; discriminate. }
  eexists [_]. repeat split; try reflexivity.
  - inversion H. reflexivity.
  - inversion H. cbn. eapply map_questions_pages; eauto.
Qed.

(** ** The page loop *)

Lemma page_body_run w startPage totalPages cb acc p s acc' s' :
  page_body w startPage totalPages cb acc p s = (Ok acc', s') ->
  exists evs prs,
    trace s' = trace s ++ evs
    /\ allQuestions acc' = allQuestions acc ++ concat (map per_questions prs)
    /\ Forall (extracted w) prs
    /\ ((prs = [] /\ warned_of evs = [p] /\ progress_of evs = []
         /\ page_marks startPage evs = [(p - startPage + 1)%Z])
        \/ (exists pr, prs = [pr] /\ per_pageNumber pr = p /\ warned_of evs = []
            /\ progress_of evs
               = (if cb then [progress_args startPage totalPages pr] else [])
            /\ (cb = true -> page_marks startPage evs = [(p - startPage + 1)%Z]))).
Proof.
  unfold page_body. unfold bind at 1.
  destruct (convertPdfPagesToImages w [p] s) as [[imgs|e] s1] eqn:Ec; [|discriminate].
  destruct imgs as [|img imgs].
  - rewrite convert_run in Ec. destruct (pdf w (reads s)); [|discriminate].
    inversion Ec; subst. run_m. intros H. inversion H; subst.
    exists [EvWarn p], []. cbn. rewrite app_nil_r. repeat split; auto.
  - destruct (convert_page_number _ _ _ _ _ _ Ec) as [Hp Ht1].
    unfold bind at 1.
    destruct (extract_run w img s1) as (gevs & Hg & Hq & Hpr).
    destruct (gateway_events_quiet _ Hq) as (_ & _ & _ & Gp & Gm & Gw).
    destruct (extractQuestionsFromPage w img s1) as [[pr|e] s2] eqn:Ee; [|discriminate].
    cbn [fst snd] in *. destruct (Hpr pr eq_refl) as [Hn _].
    assert (Hex : extracted w pr).
    { exists img, s1, s2. split; [congruence|exact Ee]. }
    destruct cb; run_m; intros H; inversion H; subst; cbn [allQuestions trace].
    + exists (gevs ++ [EvProgress (pi_pageNumber img - startPage + 1) totalPages
                         (Z.of_nat (length (per_questions pr))); EvDelay 100]), [pr].
      rewrite Hg, Ht1, <- !app_assoc. cbn [map concat]. rewrite app_nil_r.
      repeat split; auto. right. exists pr.
      rewrite warned_of_app, progress_of_app, page_marks_app, Gp, Gm, Gw.
      unfold progress_args. rewrite Hn. repeat split; auto.
    + exists (gevs ++ [EvDelay 100]), [pr].
      rewrite Hg, Ht1, <- !app_assoc. cbn [map concat]. rewrite app_nil_r.
      repeat split; auto. right. exists pr.
      rewrite warned_of_app, progress_of_app, Gp, Gw.
      repeat split; auto. discriminate.
Qed.

Lemma for_pages_run w startPage totalPages cb : forall n p acc s acc' s',
  for_pages (page_body w startPage totalPages cb) n p acc s = (Ok acc', s') ->
  exists evs prs,
    trace s' = trace s ++ evs
    /\ allQuestions acc' = allQuestions acc ++ concat (map per_questions prs)
    /\ Forall (extracted w) prs
    /\ map per_pageNumber prs `sublist_of` pages_from p n
    /\ progress_of evs
       = (if cb then map (progress_args startPage totalPages) prs else [])
    /\ (cb = true ->
        page_marks startPage evs
        = map (fun q => (q - startPage + 1)%Z) (pages_from p n))
    /\ (warned_of evs = [] -> map per_pageNumber prs = pages_from p n).
Proof.
  induction n as [|n IH]; intros p acc s acc' s' H.
  - cbn in H. inversion H; subst. exists [], []. cbn. rewrite !app_nil_r.
    repeat split; auto. destruct cb; reflexivity.
  - cbn [for_pages] in H. unfold bind in H.
    destruct (page_body w startPage totalPages cb acc p s) as [[acc1|e] s1] eqn:Eb;
      [|discriminate].
    destruct (page_body_run _ _ _ _ _ _ _ _ _ Eb) as (evs1 & prs1 & Ht1 & Ha1 & Hf1 & Hc1).
    destruct (IH _ _ _ _ _ H) as (evs2 & prs2 & Ht2 & Ha2 & Hf2 & Hs2 & Hp2 & Hm2 & Hw2).
    exists (evs1 ++ evs2), (prs1 ++ prs2).
    rewrite Ht2, Ht1, Ha2, Ha1, <- !app_assoc, map_app, concat_app, map_app.
    rewrite progress_of_app, page_marks_app, warned_of_app, Hp2.
    cbn [pages_from map].
    split; [reflexivity|]. split; [reflexivity|].
    split; [apply Forall_app; auto|].
    destruct Hc1 as [(-> & Hw1 & Hpr1 & Hm1) | (pr & -> & Hn & Hw1 & Hpr1 & Hm1)].
    + rewrite Hpr1, Hw1, Hm1. cbn [map app].
      split; [apply sublist_cons; exact Hs2|].
      split; [reflexivity|].
      split; [intros Hcb; rewrite (Hm2 Hcb); reflexivity|].
      discriminate.
    + rewrite Hpr1, Hw1. cbn [map app]. rewrite Hn.
      split; [apply sublist_skip; exact Hs2|].
      split; [destruct cb; reflexivity|].
      split; [intros Hcb; rewrite (Hm1 Hcb), (Hm2 Hcb); reflexivity|].
      intros Hw. rewrite (Hw2 Hw). reflexivity.
Qed.

Lemma for_pages_abort body : forall n1 n2 p acc s acc1 s1 e s2,
  for_pages body n1 p acc s = (Ok acc1, s1) ->
  body acc1 (p + Z.of_nat n1)%Z s1 = (Throw e, s2) ->
  for_pages body (n1 + S n2) p acc s = (Throw e, s2).
Proof.
  induction n1 as [|n1 IH]; intros n2 p acc s acc1 s1 e s2 H1 H2.
  - cbn in H1. inversion H1; subst. cbn [Nat.add for_pages]. unfold bind.
    rewrite Z.add_0_r in H2. rewrite H2. reflexivity.
  - cbn [Nat.add for_pages] in *. unfold bind in *.
    destruct (body acc p s) as [[acc0|e0] s0]; [|discriminate].
    eapply IH; eauto. rewrite <- H2. f_equal. lia.
Qed.

(** ** Renumbering *)

Lemma renumber_numbers qs : forall idx,
  map questionNumber (renumber idx qs)
  = map (fun k => (idx + Z.of_nat k)%Z) (seq 1 (length qs)).
Proof.
  induction qs as [|q rest IH]; intros idx; [reflexivity|].
  cbn [renumber map length seq questionNumber]. f_equal.
  rewrite IH, <- (seq_shift (length rest) 1), map_map. apply map_ext. intros k. lia.
Qed.

Lemma renumber_same qs : forall idx,
  Forall2 same_question qs (renumber idx qs).
Proof.
  induction qs as [|q rest IH]; intros idx; constructor; [|apply IH].
  repeat split.
Qed.






(** ** The claims about the backfill driver *)



(** C10.  A backfill run changes nothing but the explanation of the
    questions whose generation succeeded: the name, source, page range
    and stats of the paper and the number of questions are unchanged;
    every question keeps its text, choices, correct choice and order
    index; and a question that is not pending, or whose generation
    failed, keeps its explanation. *)
Theorem backfill_frame w opts files s d code r :
  load opts files = Ok d ->
  main w opts files s = Finished code r ->
  let os := outcomes w (pd_questions d) (calls s)
              (questionsToProcess (skipExisting opts) d) in
  name (data r) = name d /\ source (data r) = source d
  /\ startPage (data r) = startPage d /\ endPage (data r) = endPage d
  /\ stats (data r) = stats d
  /\ length (pd_questions (data r)) = length (pd_questions d)
  /\ forall i q,
       pd_questions d !! i = Some q ->
       exists q',
         pd_questions (data r) !! i = Some q'
         /\ questionText q' = questionText q /\ choices q' = choices q
         /\ correctChoice q' = correctChoice q /\ orderIndex q' = orderIndex q
         /\ explanation q'
            = match outcome_of i os with
              | Some (Ok (e, _)) => e
              | _ => explanation q
              end.
Proof.
  intros Hload Hmain os.
  destruct (apiKey w) eqn:Hkey.
  2:{ unfold main in Hmain. rewrite Hkey in Hmain. discriminate. }
  destruct (questionsToProcess (skipExisting opts) d) as [|i0 rest] eqn:Ep.
  { rewrite (main_nothing_pending _ _ _ _ _ Hkey Hload Ep) in Hmain. discriminate. }
  destruct (main_run w opts files s d Hkey Hload) as
    (code' & r' & evs & ok & Hmain' & _ & _ & _ & Hd & _).
  { rewrite Ep. discriminate. }
  rewrite Hmain in Hmain'. inversion Hmain'; subst code' r'. clear Hmain'.
  rewrite Ep in Hd. fold os in Hd. rewrite Hd.
  destruct (apply_steps_frame (successes os) d) as (H1 & H2 & H3 & H4 & H5 & H6).
  repeat (split; [assumption|]).
  intros i q Hq.
  assert (Hnd : NoDup (map fst os)).
  { unfold os. rewrite map_fst_outcomes, <- Ep. apply questionsToProcess_NoDup. }
  rewrite (apply_steps_lookup os d i Hnd), Hq. cbn [fmap option_fmap option_map].
  exists (updated os i q). split; [reflexivity|]. unfold updated.
  destruct (outcome_of i os) as [[[e t]|err]|]; repeat split; reflexivity.
Qed.

Lemma backfill_frame_witness :
  exists r,
    main third_fails_world (options 10) (files_of paper5) initSys = Finished 0 r
    /\ name (data r) = name paper5
    /\ length (pd_questions (data r)) = 6%nat
    /\ exists q', pd_questions (data r) !! 2%nat = Some q'
                  /\ correctChoice q' = Some one /\ explanation q' = None.
Proof.
  eexists. split; [vm_compute; reflexivity|].
  match goal with |- context [data ?r] =>
    pose proof (backfill_frame third_fails_world (options 10) (files_of paper5)
                  initSys paper5 0%Z r eq_refl eq_refl)
      as (H1 & _ & _ & _ & _ & H6 & Hq)
  end.
  split; [exact H1|]. split; [exact H6|].
  destruct (Hq 2%nat (question (Some one) None) eq_refl)
    as (q' & Hl & _ & _ & Hc & _ & He).
  exists q'. split; [exact Hl|]. split; [exact Hc|]. exact He.
Defined.

Lemma successes_sublist os : map fst (successes os) `sublist_of` map fst os.
Proof.
  induction os as [|[j [[e t]|err]] os IH]; cbn.
  - constructor.
  - apply sublist_skip. exact IH.
  - apply sublist_cons. exact IH.
Qed.

Lemma successes_all os : failures os = [] -> map fst (successes os) = map fst os.
Proof.
  induction os as [|[j [[e t]|err]] os IH]; cbn; intros H;
    [reflexivity| |discriminate]. f_equal. auto.
Qed.

Lemma checkpoint_due_multiple k b :
  (0 < b)%Z -> checkpoint_due k (Int b) = true <-> exists m, (k = m * b)%Z.
Proof.
  intros Hb. unfold checkpoint_due. destruct b as [|b|b]; try lia.
  rewrite Z.eqb_eq, Z.rem_divide by lia. reflexivity.
Qed.

Lemma at_multiples_23 (snaps : list PaperData) :
  length snaps = 23%nat ->
  exists a b, snaps !! 9%nat = Some a /\ snaps !! 19%nat = Some b
              /\ at_multiples 0 (Int 10) snaps = [a; b].
Proof.
  intros H.
  do 23 (destruct snaps as [|? snaps]; [discriminate H|]).
  destruct snaps; [|discriminate H].
  eexists _, _. repeat split.
Qed.

(** C3 (amended).  A run with nothing pending exits at once and writes
    nothing.  In every other run the whole current paper data is written
    every time the count of successfully processed questions is an exact
    multiple of the batch size, and once more when the loop has ended,
    whatever the count is then.  With a batch size of 10 and 23 pending
    questions that all succeed there are exactly three writes: of the
    data after the 10th, after the 20th and after the 23rd success. *)
Theorem checkpoint_cadence :
  (forall w opts files s d,
     apiKey w = true -> load opts files = Ok d ->
     questionsToProcess (skipExisting opts) d = [] ->
     main w opts files s = Exited 0 s)
  /\ (forall k b, (0 < b)%Z ->
      checkpoint_due k (Int b) = true <-> exists m, (k = m * b)%Z)
  /\ (forall w opts files s d,
      apiKey w = true -> load opts files = Ok d ->
      questionsToProcess (skipExisting opts) d <> [] ->
      exists code r evs steps,
        main w opts files s = Finished code r
        /\ trace (sys r) = trace s ++ evs
        /\ map fst steps `sublist_of` questionsToProcess (skipExisting opts) d
        /\ processed r = Z.of_nat (length steps)
        /\ data r = apply_steps steps d
        /\ writes_of evs
           = at_multiples 0 (batchSize opts) (snapshots d steps) ++ [data r])
  /\ (forall w opts files s d code r,
      load opts files = Ok d ->
      batchSize opts = Int 10 ->
      length (questionsToProcess (skipExisting opts) d) = 23%nat ->
      main w opts files s = Finished code r ->
      errors r = 0%Z ->
      exists evs steps,
        trace (sys r) = trace s ++ evs
        /\ map fst steps = questionsToProcess (skipExisting opts) d
        /\ data r = apply_steps steps d
        /\ writes_of evs
           = [apply_steps (firstn 10 steps) d; apply_steps (firstn 20 steps) d;
              apply_steps steps d]).
Proof.
  split; [exact main_nothing_pending|].
  split; [exact checkpoint_due_multiple|]. split.
  - intros w opts files s d Hkey Hload Hne.
    destruct (main_run w opts files s d Hkey Hload Hne) as
      (code & r & evs & ok & Hmain & Htr & _ & _ & Hd & Hp & _ & Hw & _).
    set (os := outcomes w (pd_questions d) (calls s)
                 (questionsToProcess (skipExisting opts) d)) in *.
    exists code, r, (evs ++ [EvWrite (data r) ok]), (successes os).
    split; [exact Hmain|]. split; [exact Htr|].
    split.
    { pose proof (successes_sublist os) as Hs. unfold os in Hs at 2.
      rewrite map_fst_outcomes in Hs. exact Hs. }
    split; [exact Hp|]. split; [exact Hd|].
    rewrite writes_of_app, Hw. reflexivity.
  - intros w opts files s d code r Hload Hb Hlen Hmain Herr.
    destruct (apiKey w) eqn:Hkey.
    2:{ unfold main in Hmain. rewrite Hkey in Hmain. discriminate. }
    assert (Hne : questionsToProcess (skipExisting opts) d <> []).
    { intros E. rewrite E in Hlen. discriminate. }
    destruct (main_run w opts files s d Hkey Hload Hne) as
      (code' & r' & evs & ok & Hmain' & Htr & _ & _ & Hd & Hp & _ & Hw & He & Hsub & _).
    rewrite Hmain in Hmain'. inversion Hmain'; subst code' r'. clear Hmain'.
    set (os := outcomes w (pd_questions d) (calls s)
                 (questionsToProcess (skipExisting opts) d)) in *.
    assert (Hnoerr : errors_of evs = []).
    { destruct (errors_of evs); [reflexivity|]. rewrite Herr in He. cbn in He. lia. }
    rewrite Hnoerr in Hsub. apply sublist_nil_r in Hsub.
    pose proof (successes_all os Hsub) as Hall.
    unfold os in Hall at 2. rewrite map_fst_outcomes in Hall.
    exists (evs ++ [EvWrite (data r) ok]), (successes os).
    split; [exact Htr|]. split; [exact Hall|]. split; [exact Hd|].
    assert (Hl : length (successes os) = 23%nat).
    { rewrite <- Hlen, <- Hall, length_map. reflexivity. }
    destruct (at_multiples_23 (snapshots d (successes os))) as (a & b & Ha & Hb' & Hm).
    { rewrite snapshots_length. exact Hl. }
    rewrite snapshots_lookup in Ha, Hb' by lia.
    inversion Ha; inversion Hb'; subst a b.
    rewrite writes_of_app, Hw, Hb, Hm. cbn [writes_of app]. rewrite Hd.
    reflexivity.
Qed.

(** The claim as first stated fails: with no marked answer, nothing is
    pending, and the run ends without any write. *)
Lemma checkpoint_cadence_counterexample :
  questionsToProcess true paper_unmarked = []
  /\ main third_fails_world (options 10) (files_of paper_unmarked) initSys
     = Exited 0 initSys
  /\ writes_of
       (trace (final_sys (main third_fails_world (options 10)
                            (files_of paper_unmarked) initSys))) = [].
Proof. vm_compute. repeat split. Qed.

Lemma checkpoint_cadence_witness :
  main explaining_world (options 10) (files_of paper_unmarked) initSys
  = Exited 0 initSys
  /\ (checkpoint_due 20 (Int 10) = true <-> exists m, (20 = m * 10)%Z)
  /\ (exists code r evs (steps : list (nat * jsvalue)),
        main explaining_world (options 10) (files_of paper5) initSys = Finished code r
        /\ trace (sys r) = trace initSys ++ evs
        /\ length (writes_of evs) = 1%nat
        /\ processed r = Z.of_nat (length steps))
  /\ (exists r evs,
        main explaining_world (options 10) (files_of paper23) initSys = Finished 0 r
        /\ trace (sys r) = trace initSys ++ evs
        /\ length (writes_of evs) = 3%nat).
Proof.
  destruct checkpoint_cadence as (H1 & H2 & H3 & H4).
  split; [apply (H1 _ _ _ _ paper_unmarked); reflexivity|].
  split; [apply H2; reflexivity|]. split.
  - destruct (H3 explaining_world (options 10) (files_of paper5) initSys paper5
                eq_refl eq_refl) as (code & r & evs & steps & Hm & Ht & Hs & Hp & Hd & Hw).
    { vm_compute. discriminate. }
    exists code, r, evs, steps. split; [exact Hm|]. split; [exact Ht|].
    split; [|exact Hp].
    vm_compute in Hm. inversion Hm; subst. clear Hm. vm_compute in Ht.
    subst evs. reflexivity.
  - assert (Hm : exists r, main explaining_world (options 10) (files_of paper23) initSys
                 = Finished 0 r) by (eexists; vm_compute; reflexivity).
    destruct Hm as [r Hm].
    destruct (H4 explaining_world (options 10) (files_of paper23) initSys paper23 0%Z r
                eq_refl eq_refl eq_refl Hm) as (evs & steps & Ht & Hs & Hd & Hw).
    { vm_compute in Hm. inversion Hm. reflexivity. }
    exists r, evs. split; [exact Hm|]. split; [exact Ht|]. rewrite Hw. reflexivity.
Defined.

(** ** The two error models *)

Lemma extract_gateway_error w img s :
  apiKey w = true ->
  (forall e, model w (calls s) (image_request w img) = Rejected e ->
             fst (extractQuestionsFromPage w img s) = Throw e)
  /\ (forall t um, model w (calls s) (image_request w img) = Response t um ->
                   JSON_parse (text_of t) = None ->
                   fst (extractQuestionsFromPage w img s)
                   = Throw (Error (parse_failure ++ text_of t))).
Proof.
  intros Hkey. unfold extractQuestionsFromPage, analyzeImage, image_request.
  run_m. rewrite Hkey. split.
  - intros e ->. reflexivity.
  - intros t um -> Hp. cbn [fst snd]. rewrite Hp. reflexivity.
Qed.

Lemma extraction_aborts w startPage endPage cb s k acc1 s1 img imgs s1' e s2 :
  (k < Z.to_nat (endPage - startPage + 1))%nat ->
  for_pages (page_body w startPage (endPage - startPage + 1) cb) k startPage
    {| allQuestions := []; acc_totalUsage := zeroUsage |} s = (Ok acc1, s1) ->
  convertPdfPagesToImages w [(startPage + Z.of_nat k)%Z] s1 = (Ok (img :: imgs), s1') ->
  extractQuestionsFromPage w img s1' = (Throw e, s2) ->
  extractQuestionsFromPages w startPage endPage cb s = (Throw e, s2).
Proof.
  intros Hk Hpre Hconv Hext. unfold extractQuestionsFromPages. unfold bind.
  replace (Z.to_nat (endPage - startPage + 1))
    with (k + S (Z.to_nat (endPage - startPage + 1) - S k))%nat by lia.
  erewrite for_pages_abort; [reflexivity|exact Hpre|].
  unfold page_body. unfold bind at 1. rewrite Hconv. unfold bind at 1.
  rewrite Hext. reflexivity.
Qed.

Lemma NoDup_5 (i1 i2 i3 i4 i5 : nat) :
  NoDup [i1; i2; i3; i4; i5] ->
  i1 <> i2 /\ i1 <> i3 /\ i1 <> i4 /\ i1 <> i5 /\ i2 <> i3 /\ i2 <> i4 /\ i2 <> i5
  /\ i3 <> i4 /\ i3 <> i5 /\ i4 <> i5.
Proof.
  intros H. repeat (apply NoDup_cons in H as [? H]).
  repeat match goal with
  | Hn : ?x ∉ _ |- _ => rewrite !not_elem_of_cons in Hn
  end. intuition congruence.
Qed.

(** C1.  Extraction fails closed: when the pages before a page were
    processed and the extraction of that page raises (because the model
    call is rejected, or its text does not parse), the whole range run
    raises that error; the result carries no questions.  Backfill fails
    open: every pending question is attempted in order, whatever failed
    before; each failed generation is logged with the index of its
    question and counted; the run ends by the final write.  With five
    pending questions of which the third generation raises, and a file
    system that works, the run ends with exit code 0, questions 1, 2, 4
    and 5 have their explanation, question 3 keeps its own, and the error
    counter is 1. *)
Theorem error_model_asymmetry :
  (forall w img s,
     apiKey w = true ->
     (forall e, model w (calls s) (image_request w img) = Rejected e ->
                fst (extractQuestionsFromPage w img s) = Throw e)
     /\ (forall t um, model w (calls s) (image_request w img) = Response t um ->
                      JSON_parse (text_of t) = None ->
                      fst (extractQuestionsFromPage w img s)
                      = Throw (Error (parse_failure ++ text_of t))))
  /\ (forall w startPage endPage cb s k acc1 s1 img imgs s1' e s2,
      (k < Z.to_nat (endPage - startPage + 1))%nat ->
      for_pages (page_body w startPage (endPage - startPage + 1) cb) k startPage
        {| allQuestions := []; acc_totalUsage := zeroUsage |} s = (Ok acc1, s1) ->
      convertPdfPagesToImages w [(startPage + Z.of_nat k)%Z] s1
      = (Ok (img :: imgs), s1') ->
      extractQuestionsFromPage w img s1' = (Throw e, s2) ->
      extractQuestionsFromPages w startPage endPage cb s = (Throw e, s2))
  /\ (forall w opts files s d,
      apiKey w = true -> load opts files = Ok d ->
      questionsToProcess (skipExisting opts) d <> [] ->
      let os := outcomes w (pd_questions d) (calls s)
                  (questionsToProcess (skipExisting opts) d) in
      exists code r evs ok,
        main w opts files s = Finished code r
        /\ trace (sys r) = trace s ++ evs ++ [EvWrite (data r) ok]
        /\ code = (if ok then 0 else 1)%Z
        /\ explained_of evs = questionsToProcess (skipExisting opts) d
        /\ failures os `sublist_of` errors_of evs
        /\ errors r = Z.of_nat (length (errors_of evs))
        /\ ((forall n, write_error w n = None) ->
            ok = true /\ errors_of evs = failures os))
  /\ (forall w opts files s d i1 i2 i3 i4 i5 e1 t1 e2 t2 err e4 t4 e5 t5,
      apiKey w = true -> load opts files = Ok d ->
      (forall n, write_error w n = None) ->
      questionsToProcess (skipExisting opts) d = [i1; i2; i3; i4; i5] ->
      outcomes w (pd_questions d) (calls s) [i1; i2; i3; i4; i5]
      = [(i1, Ok (e1, t1)); (i2, Ok (e2, t2)); (i3, Throw err);
         (i4, Ok (e4, t4)); (i5, Ok (e5, t5))] ->
      exists r evs,
        main w opts files s = Finished 0 r
        /\ trace (sys r) = trace s ++ evs
        /\ errors r = 1%Z /\ processed r = 4%Z /\ errors_of evs = [i3]
        /\ explanation_at (data r) i1 = Some e1
        /\ explanation_at (data r) i2 = Some e2
        /\ explanation_at (data r) i3 = explanation_at d i3
        /\ explanation_at (data r) i4 = Some e4
        /\ explanation_at (data r) i5 = Some e5).
Proof.
  split; [exact extract_gateway_error|].
  split; [exact extraction_aborts|]. split.
  - intros w opts files s d Hkey Hload Hne os.
    destruct (main_run w opts files s d Hkey Hload Hne) as
      (code & r & evs & ok & Hmain & Htr & Hcode & Hok & _ & _ & Hex & _ & He & Hsub & Hall).
    exists code, r, evs, ok. repeat split; auto.
  - intros w opts files s d i1 i2 i3 i4 i5 e1 t1 e2 t2 err e4 t4 e5 t5
      Hkey Hload Hwr Hpend Hos.
    assert (Hne : questionsToProcess (skipExisting opts) d <> [])
      by (rewrite Hpend; discriminate).
    pose proof (questionsToProcess_NoDup (skipExisting opts) d) as Hnd.
    rewrite Hpend in Hnd.
    destruct (NoDup_5 _ _ _ _ _ Hnd)
      as (N12 & N13 & N14 & N15 & N23 & N24 & N25 & N34 & N35 & N45).
    destruct (main_run w opts files s d Hkey Hload Hne) as
      (code & r & evs & ok & Hmain & Htr & Hcode & Hok & Hd & Hp & Hex & _ & He & _ & Hall).
    rewrite Hpend, Hos in *. rewrite (Hok Hwr) in *. subst code.
    specialize (Hall Hwr). cbn [failures successes length] in *.
    exists r, (evs ++ [EvWrite (data r) true]).
    split; [exact Hmain|]. split; [exact Htr|].
    rewrite errors_of_app, Hall in *. cbn [errors_of app length] in *.
    split; [exact He|]. split; [exact Hp|]. split; [reflexivity|].
    assert (Hin : forall i, In i [i1; i2; i3; i4; i5] ->
              exists q, pd_questions d !! i = Some q).
    { intros i Hi. rewrite <- Hpend in Hi.
      apply questionsToProcess_In in Hi as (q & Hq & _). eauto. }
    assert (Hlook : forall i,
              explanation_at (data r) i
              = explanation <$>
                  (updated [(i1, Ok (e1, t1)); (i2, Ok (e2, t2)); (i3, Throw err);
                            (i4, Ok (e4, t4)); (i5, Ok (e5, t5))] i
                   <$> pd_questions d !! i)).
    { intros i. unfold explanation_at. rewrite Hd.
      change [(i1, e1); (i2, e2); (i4, e4); (i5, e5)]
        with (successes [(i1, Ok (e1, t1)); (i2, Ok (e2, t2)); (i3, Throw err);
                         (i4, Ok (e4, t4)); (i5, Ok (e5, t5))]).
      rewrite apply_steps_lookup; [reflexivity|]. exact Hnd. }
    rewrite !Hlook. unfold updated, explanation_at. cbn [outcome_of].
    rewrite !Nat.eqb_refl.
    repeat match goal with
    | Hn : ?a <> ?b |- _ =>
        first [rewrite (proj2 (Nat.eqb_neq a b) Hn)
              | rewrite (proj2 (Nat.eqb_neq b a) (not_eq_sym Hn))];
        clear Hn
    end.
    destruct (Hin i1) as [q1 ->]; [cbn; tauto|].
    destruct (Hin i2) as [q2 ->]; [cbn; tauto|].
    destruct (Hin i3) as [q3 ->]; [cbn; tauto|].
    destruct (Hin i4) as [q4 ->]; [cbn; tauto|].
    destruct (Hin i5) as [q5 ->]; [cbn; tauto|].
    repeat split; reflexivity.
Qed.

Lemma error_model_asymmetry_witness :
  fst (extractQuestionsFromPage second_page_fails_world page1 after_one_call)
  = Throw (Error (of_string "503"))
  /\ (exists s2,
        extractQuestionsFromPages second_page_fails_world 1 3 true initSys
        = (Throw (Error (of_string "503")), s2))
  /\ (exists code r evs ok,
        main third_fails_world (options 10) (files_of paper5) initSys = Finished code r
        /\ trace (sys r) = trace initSys ++ evs ++ [EvWrite (data r) ok]
        /\ explained_of evs = [0; 1; 2; 3; 4]%nat
        /\ ok = true)
  /\ (exists r evs,
        main third_fails_world (options 10) (files_of paper5) initSys = Finished 0 r
        /\ trace (sys r) = trace initSys ++ evs
        /\ errors r = 1%Z /\ errors_of evs = [2%nat]
        /\ explanation_at (data r) 0 = Some (Some (JString because))
        /\ explanation_at (data r) 2 = Some None
        /\ explanation_at (data r) 4 = Some (Some (JString because))).
Proof.
  destruct error_model_asymmetry as (A1 & A2 & B1 & B2).
  split; [|split; [|split]].
  - destruct (A1 second_page_fails_world page1 after_one_call eq_refl) as [H _].
    apply H. reflexivity.
  - eexists.
    eapply (A2 second_page_fails_world 1%Z 3%Z true initSys 1%nat).
    + vm_compute. lia.
    + vm_compute. reflexivity.
    + vm_compute. reflexivity.
    + vm_compute. reflexivity.
  - destruct (B1 third_fails_world (options 10) (files_of paper5) initSys paper5
                eq_refl eq_refl) as (code & r & evs & ok & Hm & Ht & _ & He & _ & _ & Hw).
    { vm_compute. discriminate. }
    exists code, r, evs, ok. split; [exact Hm|]. split; [exact Ht|].
    split; [exact He|]. apply Hw. reflexivity.
  - destruct (B2 third_fails_world (options 10) (files_of paper5) initSys paper5
                0 1 2 3 4
                (Some (JString because)) 12%Z (Some (JString because)) 12%Z
                (Error (of_string "503"))
                (Some (JString because)) 12%Z (Some (JString because)) 12%Z
                eq_refl eq_refl (fun _ => eq_refl) eq_refl eq_refl)%nat
      as (r & evs & Hm & Ht & He & Hp & Herr & H1 & H2 & H3 & H4 & H5).
    exists r, evs. repeat split; assumption.
Defined.

(** ** The claims about the extraction driver *)

Lemma extracted_pages w pr :
  extracted w pr ->
  Forall (fun q => pageNumber q = per_pageNumber pr) (per_questions pr).
Proof.
  intros (img & s1 & s2 & Hn & He).
  destruct (extract_run w img s1) as (_ & _ & _ & H).
  rewrite He in H. destruct (H pr eq_refl) as [_ Hf]. rewrite <- Hn. exact Hf.
Qed.

Lemma renumber_pages qs : forall idx,
  map pageNumber (renumber idx qs) = map pageNumber qs.
Proof. induction qs as [|q rest IH]; intros idx; cbn; f_equal; auto. Qed.

Lemma renumber_length qs : forall idx, length (renumber idx qs) = length qs.
Proof. induction qs as [|q rest IH]; intros idx; cbn; f_equal; auto. Qed.

Lemma one_to_numbers n :
  map (fun k => (0 + Z.of_nat k)%Z) (seq 1 n) = one_to n.
Proof. unfold one_to. apply map_ext. intros k. lia. Qed.

(** C4.  When a range run returns, its questions are those of the pages
    that yielded an image, page after page in the order of the range and
    within a page in the order of the page, and they are numbered 1 to N
    in that order, whatever number they had before.  If the first page of
    the range yields two questions, the second none and the third one,
    the result has exactly three questions, numbered 1, 2, 3, of the
    first, the first and the third page. *)
Theorem extraction_renumbering w startPage endPage cb s r s' :
  extractQuestionsFromPages w startPage endPage cb s = (Ok r, s') ->
  exists evs prs,
    trace s' = trace s ++ evs
    /\ Forall (extracted w) prs
    /\ map per_pageNumber prs
       `sublist_of` pages_from startPage (Z.to_nat (endPage - startPage + 1))
    /\ Forall2 same_question (concat (map per_questions prs)) (questions r)
    /\ map questionNumber (questions r) = one_to (length (questions r))
    /\ (cb = true ->
        progress_of evs
        = map (progress_args startPage (endPage - startPage + 1)) prs)
    /\ (forall p1 p2 p3,
        prs = [p1; p2; p3] ->
        length (per_questions p1) = 2%nat -> length (per_questions p2) = 0%nat ->
        length (per_questions p3) = 1%nat ->
        map questionNumber (questions r) = [1; 2; 3]%Z
        /\ map pageNumber (questions r)
           = [per_pageNumber p1; per_pageNumber p1; per_pageNumber p3])
    /\ (cb = true ->
        progress_of evs = [(1, 3, 2); (2, 3, 0); (3, 3, 1)]%Z ->
        map questionNumber (questions r) = [1; 2; 3]%Z
        /\ map pageNumber (questions r) = [startPage; startPage; startPage + 2]%Z).
Proof.
  unfold extractQuestionsFromPages. unfold bind, ret. intros H.
  destruct (for_pages _ _ _ _ s) as [[acc|e] s1] eqn:Ef; [|discriminate].
  inversion H; subst r s'. clear H. cbn [questions].
  destruct (for_pages_run _ _ _ _ _ _ _ _ _ _ Ef)
    as (evs & prs & Ht & Ha & Hf & Hs & Hp & _ & _).
  cbn [allQuestions app] in Ha.
  exists evs, prs. rewrite Ha.
  split; [exact Ht|]. split; [exact Hf|]. split; [exact Hs|].
  split; [apply renumber_same|].
  split; [rewrite renumber_numbers, renumber_length; apply one_to_numbers|].
  split; [intros ->; exact Hp|].
  assert (Hthree : forall p1 p2 p3,
            prs = [p1; p2; p3] ->
            length (per_questions p1) = 2%nat -> length (per_questions p2) = 0%nat ->
            length (per_questions p3) = 1%nat ->
            map questionNumber (renumber 0 (concat (map per_questions prs)))
            = [1; 2; 3]%Z
            /\ map pageNumber (renumber 0 (concat (map per_questions prs)))
               = [per_pageNumber p1; per_pageNumber p1; per_pageNumber p3]).
  { intros p1 p2 p3 -> L1 L2 L3.
    apply Forall_cons in Hf as [F1 Hf]. apply Forall_cons in Hf as [F2 Hf].
    apply Forall_cons in Hf as [F3 _].
    apply extracted_pages in F1, F2, F3. cbn [map concat app].
    destruct (per_questions p1) as [|q1 [|q2 [|]]]; try discriminate L1.
    destruct (per_questions p2) as [|]; try discriminate L2.
    destruct (per_questions p3) as [|q3 [|]]; try discriminate L3.
    cbn [map concat app]. rewrite renumber_pages. cbn [renumber map questionNumber].
    apply Forall_cons in F1 as [P1 F1]. apply Forall_cons in F1 as [P2 _].
    apply Forall_cons in F3 as [P3 _].
    split; [reflexivity|]. rewrite P1, P2, P3. reflexivity. }
  split; [exact Hthree|].
  intros -> Hprog. rewrite Hp in Hprog.
  destruct prs as [|p1 [|p2 [|p3 [|]]]]; try discriminate Hprog.
  cbn [map] in Hprog. unfold progress_args in Hprog.
  injection Hprog as G1 G2 G3 G4 G5 G6 G7 G8 G9.
  destruct (Hthree p1 p2 p3 eq_refl) as [N1 N2]; try lia.
  split; [exact N1|]. rewrite N2. repeat f_equal; lia.
Qed.

Lemma extraction_renumbering_witness :
  exists r s',
    extractQuestionsFromPages (paged_world 3) 1 3 true initSys = (Ok r, s')
    /\ map questionNumber (questions r) = [1; 2; 3]%Z
    /\ map pageNumber (questions r) = [1; 1; 3]%Z.
Proof.
  assert (Hrun : exists r s',
             extractQuestionsFromPages (paged_world 3) 1 3 true initSys = (Ok r, s'))
    by (eexists _, _; vm_compute; reflexivity).
  destruct Hrun as (r & s' & Hrun).
  destruct (extraction_renumbering _ _ _ _ _ _ _ Hrun)
    as (evs & prs & Ht & _ & _ & _ & _ & _ & _ & Hinst).
  exists r, s'. split; [exact Hrun|]. apply Hinst; [reflexivity|].
  vm_compute in Hrun. inversion Hrun; subst r s'. vm_compute in Ht. subst evs.
  reflexivity.
Defined.





(* ===================================================================== *)
(** * Further properties *)
(* ===================================================================== *)

(** ** The repair as a function on texts *)

Lemma trimStart_idem s : trimStart (trimStart s) = trimStart s.
Proof.
  induction s as [|c s IH]; [reflexivity|].
  simpl. destruct (is_js_space c) eqn:E; [exact IH|].
  simpl. rewrite E. reflexivity.
Qed.

Lemma trimEnd_idem s : trimEnd (trimEnd s) = trimEnd s.
Proof. unfold trimEnd. rewrite rev_involutive, trimStart_idem. reflexivity. Qed.

Lemma trimEnd_prefix s : exists ws, s = trimEnd s ++ ws.
Proof.
  induction s as [|c s IH] using rev_ind.
  - exists []. reflexivity.
  - rewrite trimEnd_snoc. destruct (is_js_space c).
    + destruct IH as [ws IH]. exists (ws ++ [c]).
      rewrite app_assoc, <- IH. reflexivity.
    + exists []. rewrite app_nil_r. reflexivity.
Qed.

Lemma trimStart_trimEnd s : trimStart s = s -> trimStart (trimEnd s) = trimEnd s.
Proof.
  intros H. destruct (trimEnd_prefix s) as [ws E].
  destruct (trimEnd s) as [|c r] eqn:Et; [reflexivity|].
  destruct s as [|a s]; [destruct ws; discriminate|].
  simpl in E. injection E as -> E. simpl in H |- *.
  destruct (is_js_space c) eqn:Ec; [|reflexivity].
  exfalso. assert (L : (length (trimStart s) <= length s)%nat).
  { clear. induction s as [|a s IH]; simpl; [lia|].
    destruct (is_js_space a); simpl; lia. }
  rewrite H in L. simpl in L. lia.
Qed.

Lemma trim_trimStart s : trimStart (trim s) = trim s.
Proof. unfold trim. apply trimStart_trimEnd, trimStart_idem. Qed.

Lemma trim_trimEnd s : trimEnd (trim s) = trim s.
Proof. unfold trim. apply trimEnd_idem. Qed.

Lemma trim_idem s : trim (trim s) = trim s.
Proof. unfold trim at 1. rewrite trim_trimStart. apply trim_trimEnd. Qed.

(** The last character of a text that [trimEnd] leaves as it is. *)
Lemma trimEnd_fixed_last s :
  trimEnd s = s -> s = [] \/ exists r z, s = r ++ [z] /\ is_js_space z = false.
Proof.
  destruct s as [|c s] using rev_ind; [auto|]. clear IHs.
  rewrite trimEnd_snoc. destruct (is_js_space c) eqn:E; intros H.
  - exfalso. destruct (trimEnd_prefix s) as [ws P].
    assert (L : length s = (length (trimEnd s) + length ws)%nat)
      by (rewrite P at 1; apply length_app).
    rewrite H, length_app in L. simpl in L. lia.
  - right. eauto.
Qed.

Lemma control_is_space c : raw_control c = true -> is_js_space c = true.
Proof. unfold raw_control, is_js_space, c_lf, c_cr, c_tab. intros H. nbool. Qed.

Lemma scan_cons_plain p b c rest :
  raw_control c = false ->
  scan p b (c :: rest)
  = c :: scan (Some c)
           (if (c =? c_quote) && negb (after_backslash p) then negb b else b) rest.
Proof.
  intros H. unfold raw_control in H.
  apply orb_false_iff in H as [H H3]. apply orb_false_iff in H as [H1 H2].
  cbn [scan]. rewrite H1, H2, H3.
  assert (E : match p with
              | Some p0 => negb (p0 =? c_backslash)
              | None => true
              end = negb (after_backslash p)) by (destruct p; reflexivity).
  rewrite E.
  destruct ((c =? c_quote) && negb (after_backslash p)); [reflexivity|].
  destruct b; reflexivity.
Qed.

Lemma scan_no_control s :
  forallb not_control s = true -> forall p b, scan p b s = s.
Proof.
  induction s as [|c s IH]; [reflexivity|].
  intros H p b. cbn [forallb] in H. apply andb_true_iff in H as [Hc H].
  unfold not_control in Hc. apply negb_true_iff in Hc.
  rewrite scan_cons_plain by exact Hc. rewrite IH by exact H. reflexivity.
Qed.

Lemma scan_no_quote s :
  forallb not_quote s = true -> forall p, scan p false s = s.
Proof.
  induction s as [|c s IH]; [reflexivity|].
  intros H p. cbn [forallb] in H. apply andb_true_iff in H as [Hc H].
  unfold not_quote in Hc. apply negb_true_iff in Hc.
  cbn [scan]. rewrite Hc. cbn [andb]. rewrite IH by exact H. reflexivity.
Qed.

Lemma startsWith_fence_json s :
  startsWith fence_json s = true -> startsWith fence s = true.
Proof.
  unfold fence_json, fence.
  destruct s as [|a [|b [|c s]]]; cbn [startsWith]; try (intros; discriminate);
    try (rewrite ?andb_false_r; intros; discriminate).
  intros H. apply andb_true_iff in H as [-> H]. apply andb_true_iff in H as [-> H].
  apply andb_true_iff in H as [-> H]. reflexivity.
Qed.

Lemma strip_fences_none s :
  startsWith fence s = false -> endsWith fence s = false -> strip_fences s = s.
Proof.
  intros H1 H2. unfold strip_fences.
  destruct (startsWith fence_json s) eqn:E.
  - apply startsWith_fence_json in E. congruence.
  - rewrite H1, H2. reflexivity.
Qed.

(** X1.  A text that has no fence at either end once trimmed, and that
    holds no raw line feed, carriage return or tab, or else no double
    quote, is repaired to its trimmed self: the repair changes nothing
    but white space around the text, fences, and those three characters
    between quotes. *)
Theorem repair_leaves_plain_text (t : str) :
  startsWith fence (trim t) = false ->
  endsWith fence (trim t) = false ->
  forallb not_control (trim t) = true \/ forallb not_quote (trim t) = true ->
  sanitizeJsonResponse t = trim t.
Proof.
  intros H1 H2 H. unfold sanitizeJsonResponse.
  rewrite strip_fences_none by assumption. rewrite trim_idem.
  destruct H as [H|H]; [apply scan_no_control|apply scan_no_quote]; exact H.
Qed.

Lemma repair_leaves_plain_text_witness :
  sanitizeJsonResponse [32; 91; 49; 44; 10; 50; 93; 10] = [91; 49; 44; 10; 50; 93].
Proof.
  apply (repair_leaves_plain_text [32; 91; 49; 44; 10; 50; 93; 10]);
    [reflexivity|reflexivity|right; reflexivity].
Defined.

(** Scanning what a scan wrote changes nothing. *)
Lemma scan_scan s : forall p p' b,
  after_backslash p = after_backslash p' ->
  scan p' b (scan p b s) = scan p b s.
Proof.
  induction s as [|c s IH]; [reflexivity|].
  intros p p' b Hp.
  assert (E : forall q, match q with
                        | Some p0 => negb (p0 =? c_backslash)
                        | None => true
                        end = negb (after_backslash q)) by (destruct q; reflexivity).
  cbn [scan]. rewrite E.
  destruct ((c =? c_quote) && negb (after_backslash p)) eqn:Hq.
  - cbn [scan]. rewrite E, <- Hp, Hq. f_equal. apply IH. reflexivity.
  - destruct b.
    + destruct (N.eqb_spec c c_lf) as [->|Hlf].
      { cbn [app scan]. cbn. f_equal. f_equal. apply IH. reflexivity. }
      destruct (N.eqb_spec c c_cr) as [->|Hcr].
      { cbn [app scan]. cbn. f_equal. f_equal. apply IH. reflexivity. }
      destruct (N.eqb_spec c c_tab) as [->|Htab].
      { cbn [app scan]. cbn. f_equal. f_equal. apply IH. reflexivity. }
      cbn [app scan]. rewrite E, <- Hp, Hq.
      apply N.eqb_neq in Hlf, Hcr, Htab. rewrite Hlf, Hcr, Htab.
      cbn [app]. f_equal. apply IH. reflexivity.
    + cbn [scan]. rewrite E, <- Hp, Hq. f_equal. apply IH. reflexivity.
Qed.

Lemma scan_snoc s z : forall p b,
  raw_control z = false ->
  exists out, scan p b (s ++ [z]) = out ++ [z] /\ (s = [] -> out = []).
Proof.
  induction s as [|c s IH]; intros p b Hz.
  - exists []. split; [|reflexivity]. cbn [app]. rewrite scan_cons_plain by exact Hz.
    reflexivity.
  - cbn [app scan].
    destruct ((c =? c_quote) && _).
    + destruct (IH (Some c) (negb b) Hz) as (out & -> & _).
      exists (c :: out). split; [reflexivity|discriminate].
    + destruct b.
      * destruct (IH (Some c) true Hz) as (out & -> & _).
        eexists. split; [rewrite app_assoc; reflexivity|discriminate].
      * destruct (IH (Some c) false Hz) as (out & -> & _).
        exists (c :: out). split; [reflexivity|discriminate].
Qed.

Lemma scan_trimmed c :
  trimStart c = c -> trimEnd c = c ->
  trim (scan None false c) = scan None false c.
Proof.
  intros Hs He. destruct (trimEnd_fixed_last c He) as [->|(r & z & -> & Hz)];
    [reflexivity|].
  assert (Hc : raw_control z = false).
  { destruct (raw_control z) eqn:E; [|reflexivity].
    apply control_is_space in E. congruence. }
  destruct (scan_snoc r z None false Hc) as (out & Eo & Hnil).
  rewrite Eo. unfold trim.
  assert (Hst : trimStart (out ++ [z]) = out ++ [z]).
  { destruct r as [|a r].
    - rewrite (Hnil eq_refl). simpl. rewrite Hz. reflexivity.
    - cbn [app] in Hs, Eo. cbn [trimStart] in Hs.
      destruct (is_js_space a) eqn:Ea.
      + exfalso. assert (L : forall x, (length (trimStart x) <= length x)%nat).
        { clear. induction x as [|a s IH]; simpl; [lia|].
          destruct (is_js_space a); simpl; lia. }
        specialize (L (r ++ [z])). rewrite Hs in L. simpl in L. lia.
      + assert (Ha : raw_control a = false).
        { destruct (raw_control a) eqn:E; [|reflexivity].
          apply control_is_space in E. congruence. }
        rewrite scan_cons_plain in Eo by exact Ha.
        destruct out as [|o out]; [simpl; rewrite Hz; reflexivity|].
        cbn [app] in Eo. injection Eo as <- _. simpl. rewrite Ea. reflexivity. }
  rewrite Hst, trimEnd_snoc, Hz. reflexivity.
Qed.

(** X2.  Unless the repaired text still begins or ends with a fence, it
    is a fixed point of the repair: repairing twice gives what repairing
    once gives. *)
Theorem repair_idempotent (t : str) :
  startsWith fence (sanitizeJsonResponse t) = false ->
  endsWith fence (sanitizeJsonResponse t) = false ->
  sanitizeJsonResponse (sanitizeJsonResponse t) = sanitizeJsonResponse t.
Proof.
  intros H1 H2.
  set (c := trim (strip_fences (trim t))).
  assert (E : sanitizeJsonResponse t = scan None false c) by reflexivity.
  rewrite E in *. unfold sanitizeJsonResponse at 1.
  assert (T : trim (scan None false c) = scan None false c)
    by (apply scan_trimmed; [apply trim_trimStart|apply trim_trimEnd]).
  rewrite T, strip_fences_none, T by assumption.
  apply scan_scan. reflexivity.
Qed.

Lemma repair_idempotent_witness :
  sanitizeJsonResponse
    (sanitizeJsonResponse (fence_json ++ [10] ++ object_text [97] [120; 10; 121] ++ fence))
  = sanitizeJsonResponse (fence_json ++ [10] ++ object_text [97] [120; 10; 121] ++ fence).
Proof.
  apply (repair_idempotent
           (fence_json ++ [10] ++ object_text [97] [120; 10; 121] ++ fence));
    reflexivity.
Defined.

Lemma startsWith_tag_fence body rest :
  startsWith tag_json body = false ->
  startsWith tag_json (body ++ fence ++ rest) = false.
Proof.
  unfold tag_json, fence.
  destruct body as [|a [|b [|c [|d body]]]]; cbn [app startsWith]; intros H;
    exact H.
Qed.

Lemma strip_fences_bare X :
  startsWith tag_json X = false -> strip_fences (fence ++ X ++ fence) = X.
Proof.
  intros Ht. unfold strip_fences.
  assert (H0 : startsWith fence_json (fence ++ X ++ fence) = false).
  { change (startsWith fence_json (fence ++ X ++ fence))
      with (startsWith tag_json (X ++ fence ++ [])).
    apply startsWith_tag_fence, Ht. }
  assert (H1 : startsWith fence (fence ++ X ++ fence) = true) by reflexivity.
  rewrite H0, H1. unfold slice_from.
  change (skipn 3 (fence ++ X ++ fence)) with (X ++ fence).
  assert (H2 : endsWith fence (X ++ fence) = true).
  { unfold endsWith. rewrite rev_app_distr. reflexivity. }
  rewrite H2. unfold slice_drop_last. rewrite length_app. simpl length.
  replace (length X + 3 - 3)%nat with (length X) by lia.
  rewrite firstn_app, firstn_all, Nat.sub_diag. simpl. apply app_nil_r.
Qed.

Lemma trim_fenced ws0 ws1 X :
  forallb is_js_space ws0 = true -> forallb is_js_space ws1 = true ->
  trim (ws0 ++ (fence ++ X ++ fence) ++ ws1) = fence ++ X ++ fence.
Proof.
  intros H0 H1.
  pose proof (trim_spaces ws0 ws1 96 ([96; 96] ++ X ++ [96; 96]) 96
                H0 H1 eq_refl eq_refl) as T.
  unfold fence. cbn [app] in T |- *.
  replace (X ++ [96; 96; 96]) with ((X ++ [96; 96]) ++ [96])
    by (rewrite <- app_assoc; reflexivity).
  exact T.
Qed.

(** X3.  A text between a leading fence, tagged [json] or bare, and a
    trailing fence, with any white space around the fences, is repaired
    to what its body alone is repaired to, when the trimmed body has no
    fence of its own left; with a bare fence the body must not begin with
    the letters [json], which would be read as the tag. *)
Theorem repair_strips_fences (body ws0 ws1 : str) :
  forallb is_js_space ws0 = true ->
  forallb is_js_space ws1 = true ->
  startsWith fence (trim body) = false ->
  endsWith fence (trim body) = false ->
  sanitizeJsonResponse (ws0 ++ (fence_json ++ body ++ fence) ++ ws1)
  = sanitizeJsonResponse body
  /\ (startsWith tag_json body = false ->
      sanitizeJsonResponse (ws0 ++ (fence ++ body ++ fence) ++ ws1)
      = sanitizeJsonResponse body).
Proof.
  intros H0 H1 Hs He.
  assert (Hb : sanitizeJsonResponse body = scan None false (trim body)).
  { unfold sanitizeJsonResponse. rewrite strip_fences_none by assumption.
    rewrite trim_idem. reflexivity. }
  split.
  - rewrite Hb. unfold sanitizeJsonResponse.
    change (fence_json ++ body ++ fence) with (fence ++ (tag_json ++ body) ++ fence).
    rewrite trim_fenced by assumption.
    change (fence ++ (tag_json ++ body) ++ fence) with (fence_json ++ body ++ fence).
    rewrite strip_fences_wrapped. reflexivity.
  - intros Ht. rewrite Hb. unfold sanitizeJsonResponse.
    rewrite trim_fenced by assumption. rewrite strip_fences_bare by exact Ht.
    reflexivity.
Qed.

Lemma repair_strips_fences_witness :
  sanitizeJsonResponse ([10] ++ (fence_json ++ [10; 91; 49; 93; 10] ++ fence) ++ [32])
  = sanitizeJsonResponse [10; 91; 49; 93; 10]
  /\ sanitizeJsonResponse ([10] ++ (fence ++ [10; 91; 49; 93; 10] ++ fence) ++ [32])
     = sanitizeJsonResponse [10; 91; 49; 93; 10].
Proof.
  destruct (repair_strips_fences [10; 91; 49; 93; 10] [10] [32]
              eq_refl eq_refl eq_refl eq_refl) as [A B].
  split; [exact A|apply B; reflexivity].
Defined.

(** ** The client *)

Ltac run_client :=
  cbv beta iota zeta delta
    [analyzeImage analyzeMultipleImages generateText generateJson
     bind ret throw lift emit modify get try_catch add_event
     updateUsage call_sanitize generateContent getGeminiClient fst snd].

(** X4.  Every method of the client adds the usage of the reply to the
    cumulative counters as soon as the reply is there, before its text is
    parsed: a reply whose text does not parse is counted all the same,
    and a rejected request adds nothing.  After [resetUsage] the counters are zero. *)
Theorem usage_accounting (w : World) (s : Sys) :
  (forall img mime prompt,
     cumulativeUsage (snd (analyzeImage w img mime prompt s))
     = usage_after w s (images_request prompt [(img, mime)]))
  /\ (forall images prompt,
      cumulativeUsage (snd (analyzeMultipleImages w images prompt s))
      = usage_after w s (images_request prompt images))
  /\ (forall prompt,
      cumulativeUsage (snd (generateJson w prompt s))
      = usage_after w s (text_request prompt))
  /\ (forall prompt,
      cumulativeUsage (snd (generateText w prompt s))
      = usage_after w s (plain_request prompt))
  /\ fst (getCumulativeUsage (snd (resetUsage s))) = Ok zeroUsage
  /\ (forall prompt,
      fst (getCumulativeUsage (snd (generateJson w prompt (snd (resetUsage s)))))
      = Ok (match model w (calls s) (text_request prompt) with
            | Rejected _ => zeroUsage
            | Response _ um => usage_of um
            end)).
Proof.
  unfold usage_after, images_request, text_request, plain_request.
  split; [|split; [|split; [|split; [|split]]]].
  - intros img mime prompt. run_client.
    destruct (model w (calls s) _) as [e|t um]; [reflexivity|].
    destruct (JSON_parse (text_of t)); reflexivity.
  - intros images prompt. run_client.
    destruct (model w (calls s) _) as [e|t um]; [reflexivity|].
    destruct (JSON_parse (text_of t)); reflexivity.
  - intros prompt. run_client.
    destruct (model w (calls s) _) as [e|t um]; [reflexivity|].
    destruct (JSON_parse (text_of t)); [reflexivity|].
    destruct (JSON_parse (sanitizeJsonResponse (text_of t))); reflexivity.
  - intros prompt. run_client.
    destruct (model w (calls s) _) as [e|t um]; reflexivity.
  - reflexivity.
  - intros prompt. unfold getCumulativeUsage, resetUsage. run_client.
    cbn [calls]. destruct (model w (calls s) _) as [e|t um]; [reflexivity|].
    assert (Z0 : forall u, {| promptTokens := 0 + promptTokens u;
                             completionTokens := 0 + completionTokens u;
                             totalTokens := 0 + totalTokens u |}%Z = u)
      by (intros []; reflexivity).
    destruct (JSON_parse (text_of t)); [cbn; rewrite Z0; reflexivity|].
    destruct (JSON_parse (sanitizeJsonResponse (text_of t)));
      cbn; rewrite Z0; reflexivity.
Qed.

(** X5.  When the text of the reply parses as it is, [generateJson]
    returns what [JSON.parse] gives and the usage of the reply, and the
    repair is not called: a valid reply never goes through the repair. *)
Theorem generateJson_valid_reply (w : World) (prompt : str) (s : Sys)
    (text : option str) (um : option UsageMetadata) (d : json) :
  model w (calls s) (text_request prompt) = Response text um ->
  JSON_parse (text_of text) = Some d ->
  fst (generateJson w prompt s) = Ok (d, usage_of um)
  /\ trace (snd (generateJson w prompt s))
     = trace s ++ [EvModelCall (text_request prompt)]
  /\ calls (snd (generateJson w prompt s)) = S (calls s).
Proof.
  unfold text_request. intros Hm Hp. run_client. rewrite Hm.
  cbv beta iota. rewrite Hp. repeat split.
Qed.

Lemma generateJson_valid_reply_witness :
  fst (generateJson explaining_world [] initSys)
  = Ok (JObject [(key_explanation, JString because)], usage_of some_usage)
  /\ trace (snd (generateJson explaining_world [] initSys))
     = [EvModelCall (text_request [])].
Proof.
  destruct (generateJson_valid_reply explaining_world [] initSys
              (Some (explanation_text because)) some_usage
              (JObject [(key_explanation, JString because)]) eq_refl eq_refl)
    as (A & B & _).
  split; [exact A|exact B].
Defined.



(** ** The rasterizer *)

Lemma collect_pages_map pns doc : forall i,
  map pi_pageNumber (collect_pages pns i doc)
  = List.filter (requested pns) (map (fun k => (i + Z.of_nat k)%Z) (seq 0 (length doc))).
Proof.
  induction doc as [|image rest IH]; intros i; [reflexivity|].
  cbn [collect_pages length seq map List.filter].
  rewrite map_app, IH, Z.add_0_r. unfold requested at 2.
  rewrite <- seq_shift, map_map.
  assert (E : map (fun k => (i + 1 + Z.of_nat k)%Z) (seq 0 (length rest))
              = map (fun k => (i + Z.of_nat (S k))%Z) (seq 0 (length rest))).
  { apply map_ext. intros k. lia. }
  rewrite E. destruct (existsb (Z.eqb i) pns); reflexivity.
Qed.

Lemma collect_pages_from pns doc : forall i,
  Forall (fun img => (i <= pi_pageNumber img)%Z) (collect_pages pns i doc).
Proof.
  induction doc as [|image rest IH]; intros i; [constructor|].
  cbn [collect_pages]. apply Forall_app. split.
  - destruct (existsb _ _); constructor; [cbn; lia|constructor].
  - eapply Forall_impl; [apply IH|]. cbn. intros. lia.
Qed.

Lemma insert_page_first x l :
  Forall (fun img => (pi_pageNumber x <= pi_pageNumber img)%Z) l ->
  insert_page x l = x :: l.
Proof.
  destruct l as [|y l]; [reflexivity|]. intros H. apply Forall_cons in H as [H _].
  cbn [insert_page]. apply Z.leb_le in H. rewrite H. reflexivity.
Qed.

(** The pages come out of the loop in order, so the sort changes nothing. *)
Lemma sort_collect_pages pns doc : forall i,
  sort_pages (collect_pages pns i doc) = collect_pages pns i doc.
Proof.
  induction doc as [|image rest IH]; intros i; [reflexivity|].
  cbn [collect_pages]. destruct (existsb _ _); [|apply IH].
  cbn [app]. unfold sort_pages in *. cbn [fold_right]. rewrite IH.
  apply insert_page_first. eapply Forall_impl; [apply collect_pages_from|].
  cbn. intros. lia.
Qed.

Lemma collect_pages_data pns rest : forall pre,
  Forall (fun img => image_of (pre ++ rest) (pi_pageNumber img) = Some img)
    (collect_pages pns (Z.of_nat (S (length pre))) rest).
Proof.
  induction rest as [|image rest IH]; intros pre; [constructor|].
  cbn [collect_pages]. apply Forall_app. split.
  - destruct (existsb _ _); constructor; [|constructor].
    unfold image_of. cbn [pi_pageNumber].
    replace (1 <=? Z.of_nat (S (length pre)))%Z with true by (symmetry; apply Z.leb_le; lia).
    replace (Z.to_nat (Z.of_nat (S (length pre)) - 1)) with (length pre) by lia.
    rewrite list_lookup_middle by reflexivity. reflexivity.
  - specialize (IH (pre ++ [image])). rewrite <- app_assoc in IH. cbn [app] in IH.
    rewrite length_app in IH. cbn [length] in IH.
    replace (Z.of_nat (S (length pre)) + 1)%Z with (Z.of_nat (S (length pre + 1))) by lia.
    exact IH.
Qed.

(** X7.  [convertPdfPagesToImages] reads the file once and returns one
    image for every page of the document whose number was asked for, in
    ascending order of the page numbers: a number asked for twice gives
    one image, the order of the numbers asked for does not matter, and a
    number that is no page of the document gives none and no error.
    Every image carries its page number, the data of that page and the
    type image/png.  When the file cannot be read or rendered, the error
    is logged and raised again. *)
Theorem rasterizer_pages (w : World) (pageNumbers : list Z) (s : Sys) :
  (forall document, pdf w (reads s) = Ok document ->
     exists images s',
       convertPdfPagesToImages w pageNumbers s = (Ok images, s')
       /\ reads s' = S (reads s) /\ calls s' = calls s /\ trace s' = trace s
       /\ map pi_pageNumber images
          = List.filter (requested pageNumbers) (one_to (length document))
       /\ Forall (fun img => image_of document (pi_pageNumber img) = Some img) images)
  /\ (forall e, pdf w (reads s) = Throw e ->
      fst (convertPdfPagesToImages w pageNumbers s) = Throw e
      /\ trace (snd (convertPdfPagesToImages w pageNumbers s))
         = trace s ++ [EvLog (of_string "Failed to convert PDF pages:")]).
Proof.
  split.
  - intros document Hd. rewrite convert_run, Hd. eexists _, _.
    split; [reflexivity|]. cbn [reads calls trace].
    split; [reflexivity|]. split; [reflexivity|]. split; [reflexivity|].
    rewrite sort_collect_pages. split.
    + rewrite collect_pages_map. unfold one_to. rewrite <- seq_shift, map_map.
      f_equal. apply map_ext. intros k. lia.
    + apply (collect_pages_data pageNumbers document []).
  - intros e He. rewrite convert_run, He. split; reflexivity.
Qed.

Lemma rasterizer_pages_witness :
  exists images s',
    convertPdfPagesToImages (paged_world 3) [3; 7; 1; 3]%Z initSys = (Ok images, s')
    /\ map pi_pageNumber images = [1; 3]%Z.
Proof.
  destruct (rasterizer_pages (paged_world 3) [3; 7; 1; 3]%Z initSys) as [H _].
  destruct (H (repeat [112] 3) eq_refl) as (images & s' & E & _ & _ & _ & Hp & _).
  exists images, s'. split; [exact E|exact Hp].
Defined.

Lemma requested_range startPage n p :
  requested (map (fun i => (startPage + Z.of_nat i)%Z) (seq 0 n)) p
  = ((startPage <=? p) && (p <? startPage + Z.of_nat n))%Z.
Proof.
  unfold requested. apply eq_true_iff_eq. rewrite existsb_exists, andb_true_iff.
  rewrite Z.leb_le, Z.ltb_lt. split.
  - intros (x & Hin & Hx). apply Z.eqb_eq in Hx. subst x.
    apply in_map_iff in Hin as (i & <- & Hi). apply in_seq in Hi. lia.
  - intros [H1 H2]. exists p. split; [|apply Z.eqb_refl].
    apply in_map_iff. exists (Z.to_nat (p - startPage)). split; [lia|].
    apply in_seq. lia.
Qed.

Lemma filter_in_range a b : forall n i,
  List.filter (in_range a b) (map Z.of_nat (seq i n))
  = pages_from (Z.max a (Z.of_nat i))
      (Z.to_nat (Z.min b (Z.of_nat i + Z.of_nat n - 1) - Z.max a (Z.of_nat i) + 1)).
Proof.
  induction n as [|n IH]; intros i.
  - cbn [seq map List.filter].
    replace (Z.to_nat _) with O by lia. reflexivity.
  - cbn [seq map List.filter]. rewrite IH. unfold in_range.
    destruct (Z.leb_spec a (Z.of_nat i)); destruct (Z.leb_spec (Z.of_nat i) b);
      cbn [andb].
    + replace (Z.max a (Z.of_nat i)) with (Z.of_nat i) by lia.
      replace (Z.to_nat (Z.min b (Z.of_nat i + Z.of_nat (S n) - 1) - Z.of_nat i + 1))
        with (S (Z.to_nat (Z.min b (Z.of_nat (S i) + Z.of_nat n - 1)
                           - Z.max a (Z.of_nat (S i)) + 1))) by lia.
      cbn [pages_from]. f_equal. f_equal. lia.
    + replace (Z.to_nat (Z.min b (Z.of_nat (S i) + Z.of_nat n - 1)
                         - Z.max a (Z.of_nat (S i)) + 1)) with O by lia.
      replace (Z.to_nat (Z.min b (Z.of_nat i + Z.of_nat (S n) - 1)
                         - Z.max a (Z.of_nat i) + 1)) with O by lia.
      reflexivity.
    + replace (Z.max a (Z.of_nat (S i))) with (Z.max a (Z.of_nat i)) by lia.
      f_equal. lia.
    + replace (Z.max a (Z.of_nat (S i))) with (Z.max a (Z.of_nat i)) by lia.
      f_equal. lia.
Qed.

(** X8.  [convertPdfPageRange] returns the images of exactly the pages
    of the range that the document has, in ascending order: all pages of
    the range when the range lies within the document, and none when the
    end lies before the start; the file is read once in every case. *)
Theorem page_range_images (w : World) (startPage endPage : Z) (s : Sys)
    (document : list str) :
  pdf w (reads s) = Ok document ->
  (endPage - startPage + 1 <= max_array_length)%Z ->
  exists images s',
    convertPdfPageRange w startPage endPage s = (Ok images, s')
    /\ reads s' = S (reads s)
    /\ map pi_pageNumber images
       = List.filter (in_range startPage endPage) (one_to (length document))
    /\ Forall (fun img => image_of document (pi_pageNumber img) = Some img) images
    /\ ((1 <= startPage)%Z -> (endPage <= Z.of_nat (length document))%Z ->
        map pi_pageNumber images
        = pages_from startPage (Z.to_nat (endPage - startPage + 1)))
    /\ ((endPage < startPage)%Z -> images = []).
Proof.
  intros Hd Hlen. unfold convertPdfPageRange, range_numbers, bind, lift.
  apply Z.leb_le in Hlen. rewrite Z.leb_antisym in Hlen.
  apply negb_true_iff in Hlen. rewrite Hlen.
  rewrite convert_run, Hd. eexists _, _. split; [reflexivity|].
  cbn [reads]. split; [reflexivity|].
  rewrite sort_collect_pages.
  assert (Hp : map pi_pageNumber
                 (collect_pages
                    (map (fun i => (startPage + Z.of_nat i)%Z)
                       (seq 0 (Z.to_nat (endPage - startPage + 1)))) 1 document)
               = List.filter (in_range startPage endPage) (one_to (length document))).
  { rewrite collect_pages_map. unfold one_to. rewrite <- seq_shift, map_map.
    assert (E : map (fun k => (1 + Z.of_nat k)%Z) (seq 0 (length document))
                = map (fun k => Z.of_nat (S k)) (seq 0 (length document))).
    { apply map_ext. intros k. lia. }
    rewrite E. apply filter_ext. intros p. rewrite requested_range.
    unfold in_range.
    destruct (Z.leb_spec startPage p); cbn [andb]; [|reflexivity].
    destruct (Z.ltb_spec p (startPage + Z.of_nat (Z.to_nat (endPage - startPage + 1))));
      destruct (Z.leb_spec p endPage); try reflexivity; lia. }
  split; [exact Hp|]. split.
  { apply (collect_pages_data _ document []). }
  split.
  - intros H1 H2. rewrite Hp. unfold one_to. rewrite filter_in_range.
    replace (Z.max startPage (Z.of_nat 1)) with startPage by lia.
    f_equal. lia.
  - intros Hlt.
    assert (Hn : map pi_pageNumber
                   (collect_pages
                      (map (fun i => (startPage + Z.of_nat i)%Z)
                         (seq 0 (Z.to_nat (endPage - startPage + 1)))) 1 document) = []).
    { rewrite Hp. unfold one_to. rewrite filter_in_range.
      replace (Z.to_nat _) with O by lia. reflexivity. }
    destruct (collect_pages _ 1 document); [reflexivity|discriminate Hn].
Qed.

Lemma page_range_images_witness :
  exists images s',
    convertPdfPageRange (paged_world 3) 2 5 initSys = (Ok images, s')
    /\ map pi_pageNumber images = [2; 3]%Z.
Proof.
  destruct (page_range_images (paged_world 3) 2 5 initSys (repeat [112] 3) eq_refl)
    as (images & s' & E & _ & Hp & _); [vm_compute; discriminate|].
  exists images, s'. split; [exact E|exact Hp].
Defined.

(** ** What an extraction run costs *)

Lemma requests_of_app a b : requests_of (a ++ b) = requests_of a ++ requests_of b.
Proof. induction a as [|[] a IH]; simpl; rewrite ?IH; reflexivity. Qed.

Lemma delays_of_app a b : delays_of (a ++ b) = delays_of a ++ delays_of b.
Proof. induction a as [|[] a IH]; simpl; rewrite ?IH; reflexivity. Qed.

(** A page that is extracted costs one request, and its usage is added
    to the counters of the client. *)
Lemma extract_ok w img s pr s' :
  extractQuestionsFromPage w img s = (Ok pr, s') ->
  calls s' = S (calls s) /\ reads s' = reads s /\ writes s' = writes s
  /\ cumulativeUsage s' = addUsage (cumulativeUsage s) (per_usage pr)
  /\ trace s' = trace s ++ [EvModelCall (image_request w img)].
Proof.
  unfold extractQuestionsFromPage, analyzeImage, image_request. run_m.
  destruct (apiKey w); [|discriminate].
  destruct (model w (calls s) _) as [e|t um]; [discriminate|].
  destruct (JSON_parse (text_of t)) as [d|]; [|discriminate].
  destruct (questions_of d) as [qs|e]; [|discriminate].
  destruct (map_questions (pi_pageNumber img) 0 qs) as [l|e]; [|discriminate].
  intros H. inversion H; subst. cbn. repeat split.
Qed.

Lemma addUsage_assoc_swap a b c :
  addUsage (addUsage a b) c = addUsage a (addUsage c b).
Proof. unfold addUsage. cbn. f_equal; lia. Qed.

Lemma page_body_cost w startPage totalPages cb acc p s acc' s' :
  page_body w startPage totalPages cb acc p s = (Ok acc', s') ->
  exists evs,
    trace s' = trace s ++ evs
    /\ reads s' = S (reads s) /\ writes s' = writes s
    /\ calls s' = (calls s + length (requests_of evs))%nat
    /\ (length (requests_of evs) + length (warned_of evs) = 1)%nat
    /\ delays_of evs = repeat 100%Z (length (requests_of evs))
    /\ usage_step s acc s' acc'.
Proof.
  unfold page_body. unfold bind at 1. rewrite convert_run.
  destruct (pdf w (reads s)) as [doc|e]; [|discriminate].
  destruct (sort_pages (collect_pages [p] 1 doc)) as [|img imgs].
  - run_m. intros H. inversion H; subst. exists [EvWarn p].
    cbn. unfold usage_step. cbn. repeat split. lia.
  - unfold bind at 1.
    match goal with
    | |- context [extractQuestionsFromPage w img ?s0] =>
        destruct (extractQuestionsFromPage w img s0) as [[pr|e] s2] eqn:Ee;
        [|discriminate]
    end.
    destruct (extract_ok _ _ _ _ _ Ee) as (Hc & Hr & Hw & Hu & Ht).
    cbn [calls reads writes cumulativeUsage trace] in Hc, Hr, Hw, Hu, Ht.
    destruct cb; run_m; intros H; inversion H; subst;
      cbn [calls reads writes cumulativeUsage trace acc_totalUsage].
    + exists [EvModelCall (image_request w img);
              EvProgress (p - startPage + 1) totalPages
                (Z.of_nat (length (per_questions pr)));
              EvDelay 100].
      split; [rewrite Ht, <- !app_assoc; reflexivity|].
      rewrite Hc, Hr, Hw. cbn. unfold usage_step. cbn [acc_totalUsage cumulativeUsage].
      rewrite Hu. repeat split; try lia. apply addUsage_assoc_swap.
    + exists [EvModelCall (image_request w img); EvDelay 100].
      split; [rewrite Ht, <- !app_assoc; reflexivity|].
      rewrite Hc, Hr, Hw. cbn. unfold usage_step. cbn [acc_totalUsage cumulativeUsage].
      rewrite Hu. repeat split; try lia. apply addUsage_assoc_swap.
Qed.

Lemma usage_step_trans s0 a0 s1 a1 s2 a2 :
  usage_step s0 a0 s1 a1 -> usage_step s1 a1 s2 a2 -> usage_step s0 a0 s2 a2.
Proof.
  unfold usage_step, addUsage. intros H1 H2.
  injection H1 as A1 A2 A3. injection H2 as B1 B2 B3. f_equal; lia.
Qed.

Lemma for_pages_cost w startPage totalPages cb : forall n p acc s acc' s',
  for_pages (page_body w startPage totalPages cb) n p acc s = (Ok acc', s') ->
  exists evs,
    trace s' = trace s ++ evs
    /\ reads s' = (reads s + n)%nat /\ writes s' = writes s
    /\ calls s' = (calls s + length (requests_of evs))%nat
    /\ (length (requests_of evs) + length (warned_of evs) = n)%nat
    /\ delays_of evs = repeat 100%Z (length (requests_of evs))
    /\ usage_step s acc s' acc'.
Proof.
  induction n as [|n IH]; intros p acc s acc' s' H.
  - cbn in H. inversion H; subst. exists []. cbn. rewrite app_nil_r.
    repeat split; try lia.
  - cbn [for_pages] in H. unfold bind in H.
    destruct (page_body w startPage totalPages cb acc p s) as [[acc1|e] s1] eqn:Eb;
      [|discriminate].
    destruct (page_body_cost _ _ _ _ _ _ _ _ _ Eb)
      as (evs1 & Ht1 & Hr1 & Hw1 & Hc1 & Hn1 & Hd1 & Hu1).
    destruct (IH _ _ _ _ _ H) as (evs2 & Ht2 & Hr2 & Hw2 & Hc2 & Hn2 & Hd2 & Hu2).
    exists (evs1 ++ evs2).
    rewrite Ht2, Ht1, <- app_assoc, requests_of_app, warned_of_app, delays_of_app.
    rewrite !length_app, Hd1, Hd2, repeat_app.
    repeat split; try lia.
    eapply usage_step_trans; eauto.
Qed.

(** X9.  A range run that returns has read the file once for every page
    of the range, has sent one request for every page that gave an image
    and none for the others, has waited 100 ms after every request, and
    has written nothing; the total usage of its result is exactly what
    the counters of the client grew by, and the pages it reports as
    processed are all pages of the range, those without an image
    included.  When the end lies before the start, the run does nothing
    at all and returns no question and the count [endPage - startPage + 1],
    which is then zero or negative. *)
Theorem extraction_resources (w : World) (startPage endPage : Z) (cb : bool)
    (s : Sys) (r : PaperExtractionResult) (s' : Sys) :
  extractQuestionsFromPages w startPage endPage cb s = (Ok r, s') ->
  exists evs,
    trace s' = trace s ++ evs
    /\ reads s' = (reads s + Z.to_nat (endPage - startPage + 1))%nat
    /\ writes s' = writes s
    /\ calls s' = (calls s + length (requests_of evs))%nat
    /\ (length (requests_of evs) + length (warned_of evs)
        = Z.to_nat (endPage - startPage + 1))%nat
    /\ delays_of evs = repeat 100%Z (length (requests_of evs))
    /\ cumulativeUsage s' = addUsage (cumulativeUsage s) (totalUsage r)
    /\ pagesProcessed r = (endPage - startPage + 1)%Z
    /\ ((endPage < startPage)%Z ->
        s' = s /\ questions r = [] /\ totalUsage r = zeroUsage
        /\ (pagesProcessed r <= 0)%Z).
Proof.
  unfold extractQuestionsFromPages. unfold bind, ret. intros H.
  destruct (for_pages _ _ _ _ s) as [[acc|e] s1] eqn:Ef; [|discriminate].
  inversion H; subst r s'. clear H. cbn [totalUsage pagesProcessed questions].
  destruct (for_pages_cost _ _ _ _ _ _ _ _ _ _ Ef)
    as (evs & Ht & Hr & Hw & Hc & Hn & Hd & Hu).
  exists evs. repeat split; try assumption.
  - unfold usage_step in Hu. cbn [acc_totalUsage] in Hu. rewrite <- Hu.
    unfold addUsage, zeroUsage. cbn. destruct (cumulativeUsage s1). cbn.
    f_equal; lia.
  - replace (Z.to_nat (endPage - startPage + 1)) with O in Ef by lia.
    cbn in Ef. inversion Ef. reflexivity.
  - replace (Z.to_nat (endPage - startPage + 1)) with O in Ef by lia.
    cbn in Ef. inversion Ef. reflexivity.
  - replace (Z.to_nat (endPage - startPage + 1)) with O in Ef by lia.
    cbn in Ef. inversion Ef. reflexivity.
  - lia.
Qed.

Lemma extraction_resources_witness :
  exists r s' evs,
    extractQuestionsFromPages (paged_world 2) 1 3 true initSys = (Ok r, s')
    /\ trace s' = trace initSys ++ evs
    /\ reads s' = 3%nat /\ calls s' = 2%nat
    /\ length (warned_of evs) = 1%nat
    /\ cumulativeUsage s' = addUsage zeroUsage (totalUsage r)
    /\ pagesProcessed r = 3%Z.
Proof.
  assert (Hrun : exists r s',
             extractQuestionsFromPages (paged_world 2) 1 3 true initSys = (Ok r, s'))
    by (eexists _, _; vm_compute; reflexivity).
  destruct Hrun as (r & s' & Hrun).
  destruct (extraction_resources _ _ _ _ _ _ _ Hrun)
    as (evs & Ht & Hr & _ & Hc & Hn & _ & Hu & Hp & _).
  exists r, s', evs. split; [exact Hrun|]. split; [exact Ht|].
  split; [exact Hr|]. vm_compute in Hrun. inversion Hrun; subst r s'.
  vm_compute in Ht. subst evs. repeat split.
Defined.

(** ** The shapes of a page reply *)

Lemma question_of_shift pageNum i l :
  imap (fun k => question_of pageNum (S i + k)) l
  = imap ((fun k => question_of pageNum (i + k)) ∘ S) l.
Proof. apply imap_ext. intros k x _. cbn. f_equal. lia. Qed.

Lemma map_questions_entries pageNum l : forall i,
  existsb is_JNull l = false ->
  map_questions pageNum (Z.of_nat i) l
  = Ok (imap (fun k => question_of pageNum (i + k)) l).
Proof.
  induction l as [|q rest IH]; intros i H; [reflexivity|].
  cbn [existsb] in H. apply orb_false_iff in H as [Hq H].
  cbn [map_questions imap].
  replace (Z.of_nat i + 1)%Z with (Z.of_nat (S i)) by lia.
  rewrite (IH (S i) H).
  rewrite <- question_of_shift.
  unfold question_of at 2. rewrite Nat.add_0_r.
  destruct q; try discriminate Hq; reflexivity.
Qed.

Lemma map_questions_null pageNum l : forall idx,
  existsb is_JNull l = true -> map_questions pageNum idx l = Throw TypeError.
Proof.
  induction l as [|q rest IH]; intros idx H; [discriminate|].
  cbn [existsb] in H. cbn [map_questions].
  destruct q; cbn [is_JNull orb] in H; try reflexivity;
    cbn [get_prop]; rewrite (IH _ H); reflexivity.
Qed.

(** X10.  What [extractQuestionsFromPage] makes of a reply that parses.
    When the reply is [null], a [TypeError] is raised.  When it is any
    other value whose [questions] is missing or falsy (a number, a
    string, an array, an object without the key or with [null], [false],
    0 or the empty string under it), the page has no question and no
    error is raised.  When [questions] is truthy and no array, a
    [TypeError] is raised.  When it is an array, a [null] entry raises a
    [TypeError]; otherwise every entry gives one question, in order,
    numbered from 1, with the page number of the image and the three
    members of the entry, [undefined] where the entry lacks one or is no
    object. *)
Theorem page_reply_shapes (w : World) (img : PageImage) (s : Sys)
    (text : option str) (um : option UsageMetadata) (data : json) :
  apiKey w = true ->
  model w (calls s) (image_request w img) = Response text um ->
  JSON_parse (text_of text) = Some data ->
  let result := fst (extractQuestionsFromPage w img s) in
  (data = JNull -> result = Throw TypeError)
  /\ (data <> JNull -> truthy (member data key_questions) = false ->
      result = Ok (empty_page img um))
  /\ (forall v, data <> JNull -> member data key_questions = Some v ->
      truthy (Some v) = true -> (forall l, v <> JArray l) ->
      result = Throw TypeError)
  /\ (forall l, member data key_questions = Some (JArray l) ->
      (existsb is_JNull l = true -> result = Throw TypeError)
      /\ (existsb is_JNull l = false ->
          result = Ok {| per_pageNumber := pi_pageNumber img;
                         per_questions := imap (question_of (pi_pageNumber img)) l;
                         per_usage := usage_of um |})).
Proof.
  intros Hkey Hm Hp result. subst result.
  unfold extractQuestionsFromPage, analyzeImage. unfold image_request in Hm. run_m.
  rewrite Hkey, Hm. cbv beta iota. rewrite Hp. cbv beta iota.
  assert (Hq : data <> JNull ->
               questions_of data
               = if truthy (member data key_questions) then
                   match member data key_questions with
                   | Some (JArray l) => Ok l
                   | _ => Throw TypeError
                   end
                 else Ok []).
  { intros Hn. unfold questions_of, member. destruct data; try congruence; reflexivity. }
  split; [|split; [|split]].
  - intros ->. reflexivity.
  - intros Hn Hf. rewrite (Hq Hn), Hf. reflexivity.
  - intros v Hn Hv Ht Harr. rewrite (Hq Hn), Hv, Ht.
    destruct v; try reflexivity. exfalso. eapply Harr. reflexivity.
  - intros l Hl.
    assert (Hn : data <> JNull) by (intros ->; discriminate Hl).
    rewrite (Hq Hn), Hl. cbn [truthy]. cbv beta iota.
    split; intros Hnull.
    + change 0%Z with (Z.of_nat 0). rewrite map_questions_null by exact Hnull.
      reflexivity.
    + change 0%Z with (Z.of_nat 0). rewrite (map_questions_entries _ _ 0 Hnull).
      reflexivity.
Qed.

Lemma page_reply_shapes_witness :
  fst (extractQuestionsFromPage (constant_world [91; 49; 93]) page1 initSys)
  = Ok (empty_page page1 no_usage).
Proof.
  destruct (page_reply_shapes (constant_world [91; 49; 93]) page1 initSys
              (Some [91; 49; 93]) no_usage (JArray [one]) eq_refl eq_refl eq_refl)
    as (_ & H & _).
  apply H; [discriminate|reflexivity].
Defined.

(** ** Without an API key *)





(** ** What a backfill run costs *)

Lemma generateExplanation_cost w q s :
  totalTokens (cumulativeUsage (snd (generateExplanation w q s)))
  = (totalTokens (cumulativeUsage s) + billed w q (calls s))%Z
  /\ requests_of (trace (snd (generateExplanation w q s)))
     = requests_of (trace s) ++ request_for w q
  /\ writes_of (trace (snd (generateExplanation w q s))) = writes_of (trace s)
  /\ (forall ex t, fst (generateExplanation w q s) = Ok (ex, t) ->
                   t = billed w q (calls s)).
Proof.
  unfold generateExplanation, generateJson, billed, request_for, text_request. run_m.
  destruct (apiKey w).
  2:{ cbn. rewrite app_nil_r. repeat split; try lia. discriminate. }
  destruct (buildPrompt w q) as [p|e].
  2:{ cbn. rewrite app_nil_r. repeat split; try lia. discriminate. }
  destruct (model w (calls s) _) as [e|t um].
  { cbn. rewrite requests_of_app, writes_of_app. cbn.
    rewrite app_nil_r. repeat split; try lia. discriminate. }
  destruct (JSON_parse (text_of t)) as [d|].
  { destruct (get_prop d key_explanation); cbn;
      rewrite requests_of_app, writes_of_app; cbn;
      rewrite app_nil_r; repeat split; try lia; try discriminate.
    intros ex t' H. inversion H. reflexivity. }
  destruct (JSON_parse (sanitizeJsonResponse (text_of t))) as [d|].
  { destruct (get_prop d key_explanation); cbn;
      rewrite <- !app_assoc, requests_of_app, writes_of_app; cbn;
      rewrite app_nil_r; repeat split; try lia; try discriminate.
    intros ex t' H. inversion H. reflexivity. }
  cbn. rewrite <- !app_assoc, requests_of_app, writes_of_app. cbn.
  rewrite app_nil_r. repeat split; try lia. discriminate.
Qed.

(** One turn of the loop, written out. *)
Lemma process_question_step w b idx r q :
  pd_questions (data r) !! idx = Some q ->
  process_question w b idx r =
  match generateExplanation w q (add_event (EvExplain idx) (sys r)) with
  | (Throw e, s1) =>
      (Ok tt, {| data := data r; processed := processed r;
                 run_totalTokens := run_totalTokens r;
                 errors := (errors r + 1)%Z;
                 sys := add_event (EvError idx e) s1 |})
  | (Ok (ex, t), s1) =>
      let d' := assign idx ex (data r) in
      let p' := (processed r + 1)%Z in
      let t' := (run_totalTokens r + t)%Z in
      if checkpoint_due p' b then
        match write_error w (writes s1) with
        | None =>
            (Ok tt, {| data := d'; processed := p'; run_totalTokens := t';
                       errors := errors r;
                       sys := {| cumulativeUsage := cumulativeUsage s1;
                                 calls := calls s1; reads := reads s1;
                                 writes := S (writes s1);
                                 trace := trace s1 ++ [EvWrite d' true] |} |})
        | Some e =>
            (Ok tt, {| data := d'; processed := p'; run_totalTokens := t';
                       errors := (errors r + 1)%Z;
                       sys := add_event (EvError idx e)
                                {| cumulativeUsage := cumulativeUsage s1;
                                   calls := calls s1; reads := reads s1;
                                   writes := S (writes s1);
                                   trace := trace s1 ++ [EvWrite d' false] |} |})
        end
      else (Ok tt, {| data := d'; processed := p'; run_totalTokens := t';
                      errors := errors r; sys := s1 |})
  end.
Proof.
  intros Hq. set (s0 := add_event (EvExplain idx) (sys r)).
  unfold process_question, try_catch, bind at 1, get at 1. rewrite Hq.
  unfold bind at 1. unfold liftSys at 1, emit, modify. fold s0.
  cbn [sys data processed run_totalTokens errors].
  unfold bind at 1. unfold liftSys at 1. cbn [sys].
  destruct (generateExplanation w q s0) as [[[ex t]|e] s1]; cbn [fst snd].
  - unfold bind at 1. unfold assign_explanation.
    cbn [sys data processed run_totalTokens errors]. rewrite Hq.
    unfold bind at 1, add_tokens, modify.
    unfold bind at 1, incr_processed, modify.
    unfold bind at 1, get.
    cbn [sys data processed run_totalTokens errors].
    unfold assign. rewrite Hq. cbn zeta.
    destruct (checkpoint_due (processed r + 1) b).
    + unfold liftSys, saveCheckpoint. cbn [sys data processed run_totalTokens errors].
      destruct (write_error w (writes s1)); reflexivity.
    + reflexivity.
  - reflexivity.
Qed.

Lemma process_question_cost w b idx r q :
  pd_questions (data r) !! idx = Some q ->
  let r1 := snd (process_question w b idx r) in
  totalTokens (cumulativeUsage (sys r1))
  = (totalTokens (cumulativeUsage (sys r)) + billed w q (calls (sys r)))%Z
  /\ requests_of (trace (sys r1)) = requests_of (trace (sys r)) ++ request_for w q
  /\ (writes (sys r1) + length (writes_of (trace (sys r)))
      = writes (sys r) + length (writes_of (trace (sys r1))))%nat
  /\ (forall ex t, outcome w q (calls (sys r)) = Ok (ex, t) ->
                   t = billed w q (calls (sys r))).
Proof.
  intros Hq r1. subst r1. rewrite (process_question_step w b idx r q Hq).
  set (s0 := add_event (EvExplain idx) (sys r)).
  destruct (generateExplanation_cost w q s0) as (Hu & Hn & Hw & Ht).
  destruct (generateExplanation_run w q s0) as (gevs & Hf & _ & _ & Hws & _ & _).
  assert (Hr0 : requests_of (trace s0) = requests_of (trace (sys r))).
  { unfold s0, add_event. cbn. rewrite requests_of_app. cbn. apply app_nil_r. }
  assert (Hw0 : writes_of (trace s0) = writes_of (trace (sys r))).
  { unfold s0, add_event. cbn. rewrite writes_of_app. cbn. apply app_nil_r. }
  change (calls s0) with (calls (sys r)) in *.
  change (cumulativeUsage s0) with (cumulativeUsage (sys r)) in *.
  change (writes s0) with (writes (sys r)) in *.
  rewrite Hr0 in Hn. rewrite Hw0 in Hw.
  assert (Hout : forall ex t, outcome w q (calls (sys r)) = Ok (ex, t) ->
                              t = billed w q (calls (sys r))).
  { intros ex t Ho. rewrite <- Hf in Ho. eapply Ht. exact Ho. }
  destruct (generateExplanation w q s0) as [[[ex t]|e] s1]; cbn [fst snd] in *.
  - cbn zeta. destruct (checkpoint_due (processed r + 1) b).
    + destruct (write_error w (writes s1)); cbn [snd sys cumulativeUsage trace writes add_event];
        rewrite ?requests_of_app, ?writes_of_app, ?length_app, Hw; cbn;
        rewrite ?app_nil_r, ?Nat.add_0_r; repeat split; try assumption; try lia.
    + cbn [snd sys]. rewrite Hw. repeat split; try assumption; lia.
  - cbn [snd sys cumulativeUsage trace writes add_event].
    rewrite requests_of_app, writes_of_app, Hw. cbn.
    rewrite !app_nil_r. repeat split; try assumption; lia.
Qed.

Lemma requests_for_ext w qs1 qs2 l :
  (forall i, In i l -> qs1 !! i = qs2 !! i) ->
  requests_for w qs1 l = requests_for w qs2 l.
Proof.
  induction l as [|idx rest IH]; intros H; [reflexivity|].
  cbn [requests_for]. rewrite (H idx) by (left; reflexivity).
  rewrite IH by (intros i Hi; apply H; right; exact Hi). reflexivity.
Qed.


Lemma requests_made_ext w qs1 qs2 l :
  (forall i, In i l -> qs1 !! i = qs2 !! i) ->
  requests_made w qs1 l = requests_made w qs2 l.
Proof.
  induction l as [|idx rest IH]; intros H; [reflexivity|].
  cbn [requests_made]. rewrite (H idx) by (left; reflexivity).
  rewrite IH by (intros i Hi; apply H; right; exact Hi). reflexivity.
Qed.

Lemma wasted_ext w qs1 qs2 l : forall n,
  (forall i, In i l -> qs1 !! i = qs2 !! i) ->
  wasted w qs1 n l = wasted w qs2 n l.
Proof.
  induction l as [|idx rest IH]; intros n H; [reflexivity|].
  cbn [wasted]. rewrite (H idx) by (left; reflexivity).
  destruct (qs2 !! idx); rewrite IH by (intros i Hi; apply H; right; exact Hi);
    reflexivity.
Qed.


Lemma for_each_cost w b : forall l r,
  NoDup l ->
  (forall i, In i l -> is_Some (pd_questions (data r) !! i)) ->
  let os := outcomes w (pd_questions (data r)) (calls (sys r)) l in
  let r' := snd (for_each (process_question w b) l r) in
  run_totalTokens r' = (run_totalTokens r + tokens_of os)%Z
  /\ calls (sys r') = (calls (sys r) + requests_made w (pd_questions (data r)) l)%nat
  /\ requests_of (trace (sys r'))
     = requests_of (trace (sys r)) ++ requests_for w (pd_questions (data r)) l
  /\ totalTokens (cumulativeUsage (sys r'))
     = (totalTokens (cumulativeUsage (sys r)) + tokens_of os
        + wasted w (pd_questions (data r)) (calls (sys r)) l)%Z
  /\ (writes (sys r') + length (writes_of (trace (sys r)))
      = writes (sys r) + length (writes_of (trace (sys r'))))%nat.
Proof.
  induction l as [|idx rest IH]; intros r Hnd Hin.
  - cbn. rewrite app_nil_r. repeat split; lia.
  - apply NoDup_cons in Hnd as [Hnotin Hnd].
    destruct (Hin idx (or_introl eq_refl)) as [q Hq].
    destruct (process_question_run w b idx r q Hq)
      as (r1 & evs1 & Hrun & Htr & Hcalls & Hex & Hcase).
    destruct (process_question_cost w b idx r q Hq) as (Cu & Cn & Cw & Ct).
    rewrite Hrun in Cu, Cn, Cw. cbn [snd] in Cu, Cn, Cw.
    cbv zeta. rewrite for_each_unfold, Hrun.
    cbn [outcomes requests_made requests_for wasted]. rewrite Hq.
    assert (Hsame : forall i, In i rest ->
              pd_questions (data r1) !! i = pd_questions (data r) !! i).
    { intros i Hi.
      assert (Hne : i <> idx).
      { intros ->. apply Hnotin. apply list_elem_of_In. exact Hi. }
      destruct (outcome w q (calls (sys r))) as [[ex t]|e].
      - destruct Hcase as (-> & _). apply assign_lookup_ne. exact Hne.
      - destruct Hcase as (-> & _). reflexivity. }
    assert (Hin1 : forall i, In i rest -> is_Some (pd_questions (data r1) !! i)).
    { intros i Hi. rewrite (Hsame i Hi). apply Hin. right. exact Hi. }
    destruct (IH r1 Hnd Hin1) as (It & Ic & In' & Iu & Iw).
    rewrite (outcomes_ext w _ _ rest _ Hsame) in It, Iu.
    rewrite (requests_made_ext w _ _ rest Hsame) in Ic.
    rewrite (requests_for_ext w _ _ rest Hsame) in In'.
    rewrite (wasted_ext w _ _ rest _ Hsame) in Iu.
    rewrite Hcalls in It, Ic, Iu.
    rewrite It, Ic, In', Iu, Cu, Cn, <- app_assoc.
    destruct (outcome w q (calls (sys r))) as [[ex t]|e] eqn:Eo.
    + destruct Hcase as (_ & _ & Ht & _). rewrite Ht. cbn [tokens_of].
      rewrite <- (Ct ex t eq_refl). repeat split; lia.
    + destruct Hcase as (_ & _ & Ht & _). rewrite Ht. cbn [tokens_of].
      repeat split; lia.
Qed.


(** How a run that finishes is made up. *)
Lemma main_finished w opts files s d code r :
  load opts files = Ok d ->
  main w opts files s = Finished code r ->
  apiKey w = true
  /\ questionsToProcess (skipExisting opts) d <> []
  /\ data r = data (after_loop w opts d s)
  /\ processed r = processed (after_loop w opts d s)
  /\ run_totalTokens r = run_totalTokens (after_loop w opts d s)
  /\ errors r = errors (after_loop w opts d s)
  /\ sys r = snd (saveCheckpoint w (data r) (sys (after_loop w opts d s))).
Proof.
  intros Hload. unfold main, after_loop. rewrite Hload.
  destruct (apiKey w); [|discriminate]. cbn [negb].
  destruct (questionsToProcess (skipExisting opts) d) as [|i0 rest] eqn:Ep;
    [discriminate|].
  rewrite <- Ep.
  set (r0 := {| data := d; processed := 0; run_totalTokens := 0; errors := 0; sys := s |}).
  destruct (for_each_run w (batchSize opts) (questionsToProcess (skipExisting opts) d) r0)
    as (r' & evs & Hfor & _).
  { apply questionsToProcess_NoDup. }
  { intros i Hi. apply questionsToProcess_In in Hi as (q & Hq & _).
    exists q. exact Hq. }
  unfold bind at 1. rewrite Hfor. unfold bind, get, liftSys. cbn [snd].
  destruct (saveCheckpoint w (data r') (sys r')) as [[[]|e] s1] eqn:Es;
    intros H; inversion H; subst; cbn [data processed run_totalTokens errors sys];
    rewrite Es; repeat split; try reflexivity; rewrite Ep; discriminate.
Qed.



(** ** Batch sizes, failures and retries *)

Lemma at_multiples_never b snaps : forall p,
  (forall k, checkpoint_due k b = false) -> at_multiples p b snaps = [].
Proof.
  induction snaps as [|d rest IH]; intros p H; [reflexivity|].
  cbn [at_multiples]. rewrite H, IH by exact H. reflexivity.
Qed.

Lemma at_multiples_always b snaps : forall p,
  (forall k, checkpoint_due k b = true) -> at_multiples p b snaps = snaps.
Proof.
  induction snaps as [|d rest IH]; intros p H; [reflexivity|].
  cbn [at_multiples]. rewrite H, IH by exact H. reflexivity.
Qed.

Lemma at_multiples_ext b1 b2 snaps : forall p,
  (forall k, checkpoint_due k b1 = checkpoint_due k b2) ->
  at_multiples p b1 snaps = at_multiples p b2 snaps.
Proof.
  induction snaps as [|d rest IH]; intros p H; [reflexivity|].
  cbn [at_multiples]. rewrite H, IH by exact H. reflexivity.
Qed.

Lemma checkpoint_due_opp k b : checkpoint_due k (Int (- b)) = checkpoint_due k (Int b).
Proof.
  destruct b as [|b|b]; [reflexivity| |]; cbn [checkpoint_due Z.opp].
  - change (Z.neg b) with (- Z.pos b)%Z. rewrite Z.rem_opp_r by lia. reflexivity.
  - change (Z.neg b) with (- Z.pos b)%Z. rewrite Z.rem_opp_r by lia. reflexivity.
Qed.

(** X13.  The edges of the batch size.  When it is not a number or is 0,
    the remainder is never 0 and the only write of a run is the final
    one.  When it is 1 (or -1), the data are written after every success
    and once more at the end.  A negative batch size does what its
    absolute value does. *)
Theorem batch_size_edges (w : World) (opts : Options) (files : Files) (s : Sys)
    (d : PaperData) (code : Z) (r : Run) :
  load opts files = Ok d ->
  main w opts files s = Finished code r ->
  let os := outcomes w (pd_questions d) (calls s)
              (questionsToProcess (skipExisting opts) d) in
  exists evs,
    trace (sys r) = trace s ++ evs
    /\ (batchSize opts = NaN \/ batchSize opts = Int 0 -> writes_of evs = [data r])
    /\ (batchSize opts = Int 1 \/ batchSize opts = Int (-1) ->
        writes_of evs = snapshots d (successes os) ++ [data r])
    /\ (forall b, batchSize opts = Int (- b) ->
        writes_of evs
        = at_multiples 0 (Int b) (snapshots d (successes os)) ++ [data r]).
Proof.
  intros Hload Hmain os.
  destruct (main_finished _ _ _ _ _ _ _ Hload Hmain) as (Hkey & Hne & _).
  destruct (main_run w opts files s d Hkey Hload Hne)
    as (code' & r' & evs & ok & Hmain' & Htr & _ & _ & _ & _ & _ & Hw & _).
  rewrite Hmain in Hmain'. inversion Hmain'; subst code' r'. clear Hmain'.
  fold os in Hw.
  exists (evs ++ [EvWrite (data r) ok]). split; [exact Htr|].
  rewrite writes_of_app, Hw. cbn [writes_of].
  split; [|split].
  - intros [-> | ->]; rewrite at_multiples_never; reflexivity.
  - intros [-> | ->]; rewrite at_multiples_always; try reflexivity.
    + intros k. cbn [checkpoint_due]. rewrite Z.rem_1_r. reflexivity.
    + intros k. cbn [checkpoint_due]. change (Z.neg 1) with (Z.opp 1).
      rewrite Z.rem_opp_r, Z.rem_1_r by lia. reflexivity.
  - intros b ->. f_equal. apply at_multiples_ext. intros k. apply checkpoint_due_opp.
Qed.

Lemma batch_size_edges_witness :
  exists r evs,
    main explaining_world {| batchSize := NaN; resume := false; skipExisting := true |}
      (files_of paper23) initSys = Finished 0 r
    /\ trace (sys r) = trace initSys ++ evs
    /\ writes_of evs = [data r].
Proof.
  assert (Hm : exists r,
             main explaining_world
               {| batchSize := NaN; resume := false; skipExisting := true |}
               (files_of paper23) initSys = Finished 0 r)
    by (eexists; vm_compute; reflexivity).
  destruct Hm as [r Hm].
  destruct (batch_size_edges explaining_world
              {| batchSize := NaN; resume := false; skipExisting := true |}
              (files_of paper23) initSys paper23 0%Z r eq_refl Hm)
    as (evs & Ht & Hnan & _).
  exists r, evs. split; [exact Hm|]. split; [exact Ht|].
  apply Hnan. left. reflexivity.
Defined.

Lemma tokens_of_no_success os : successes os = [] -> tokens_of os = 0%Z.
Proof.
  induction os as [|[i [[e t]|e]] os IH]; cbn; [reflexivity|discriminate|exact IH].
Qed.

Lemma failures_all os : successes os = [] -> failures os = map fst os.
Proof.
  induction os as [|[i [[e t]|e]] os IH]; cbn; [reflexivity|discriminate|].
  intros H. rewrite IH by exact H. reflexivity.
Qed.

(** X14.  Failed questions do not fail the run.  The exit code of a run
    that reaches the loop is 0 when the final write succeeds and 1 when
    it fails, whatever the number of errors.  When every generation
    fails, the paper data are left as they were loaded, no success and no
    token is counted, the loop writes nothing, every pending question is
    logged as an error, and the final write still stores the unchanged
    data. *)
Theorem failures_do_not_fail_the_run (w : World) (opts : Options) (files : Files)
    (s : Sys) (d : PaperData) (code : Z) (r : Run) :
  load opts files = Ok d ->
  main w opts files s = Finished code r ->
  let pending := questionsToProcess (skipExisting opts) d in
  let os := outcomes w (pd_questions d) (calls s) pending in
  exists evs ok,
    trace (sys r) = trace s ++ evs ++ [EvWrite (data r) ok]
    /\ (code = 0%Z <-> ok = true) /\ (code = 1%Z <-> ok = false)
    /\ ((forall n, write_error w n = None) -> code = 0%Z)
    /\ (successes os = [] ->
        data r = d /\ processed r = 0%Z /\ run_totalTokens r = 0%Z
        /\ writes_of evs = [] /\ pending `sublist_of` errors_of evs
        /\ (Z.of_nat (length pending) <= errors r)%Z).
Proof.
  intros Hload Hmain pending os.
  destruct (main_finished _ _ _ _ _ _ _ Hload Hmain)
    as (Hkey & Hne & _ & _ & Ht & _).
  set (r0 := {| data := d; processed := 0; run_totalTokens := 0; errors := 0; sys := s |}).
  assert (Hnd : NoDup pending) by apply questionsToProcess_NoDup.
  assert (Hin : forall i, In i pending -> is_Some (pd_questions (data r0) !! i)).
  { intros i Hi. apply questionsToProcess_In in Hi as (q & Hq & _). exists q. exact Hq. }
  destruct (for_each_cost w (batchSize opts) pending r0 Hnd Hin) as (Ct & _).
  change (snd (for_each (process_question w (batchSize opts)) pending r0))
    with (after_loop w opts d s) in Ct.
  cbn [data sys run_totalTokens r0] in Ct. fold os in Ct.
  destruct (main_run w opts files s d Hkey Hload Hne)
    as (code' & r' & evs & ok & Hmain' & Htr & Hcode & Hok & Hd & Hpr & _ & Hw & Her & Hsub & _).
  rewrite Hmain in Hmain'. injection Hmain' as Ec Er. subst r'. rewrite <- Ec in Hcode.
  clear Ec code'.
  fold pending in Hd, Hpr, Hw, Hsub. fold os in Hd, Hpr, Hw, Hsub.
  exists evs, ok. split; [exact Htr|].
  split; [destruct ok; rewrite Hcode; split; intros; congruence|].
  split; [destruct ok; rewrite Hcode; split; intros; congruence|].
  split; [intros Hn; rewrite (Hok Hn) in Hcode; exact Hcode|].
  intros Hs. rewrite Hs in Hd, Hpr, Hw.
  assert (Hf : failures os = pending).
  { rewrite (failures_all os Hs). apply map_fst_outcomes. }
  rewrite Hf in Hsub.
  split; [exact Hd|]. split; [exact Hpr|].
  split; [rewrite Ht, Ct, (tokens_of_no_success os Hs); reflexivity|].
  split; [exact Hw|]. split; [exact Hsub|].
  rewrite Her. apply sublist_length in Hsub. lia.
Qed.

Lemma failures_do_not_fail_the_run_witness :
  exists r evs,
    main (constant_world [91]) (options 10) (files_of paper5) initSys = Finished 0 r
    /\ trace (sys r) = trace initSys ++ evs ++ [EvWrite (data r) true]
    /\ data r = paper5.
Proof.
  assert (Hm : exists r,
             main (constant_world [91]) (options 10) (files_of paper5) initSys
             = Finished 0 r) by (eexists; vm_compute; reflexivity).
  destruct Hm as [r Hm].
  destruct (failures_do_not_fail_the_run (constant_world [91]) (options 10)
              (files_of paper5) initSys paper5 0%Z r eq_refl Hm)
    as (evs & ok & Ht & Hc & _ & _ & Hall).
  exists r, evs. destruct Hc as [Hc _]. rewrite (Hc eq_refl) in Ht.
  split; [exact Hm|]. split; [exact Ht|].
  apply Hall. reflexivity.
Defined.






(** ** validateQuestions *)

Lemma complain_nil tail idx b : complain tail idx b = [] <-> b = false.
Proof. destruct b; cbn; split; intros H; congruence. Qed.

Lemma complain_heading tail rest idx b :
  tail = [58; 32] ++ rest ->
  Forall (fun m => heading idx `prefix_of` m) (complain tail idx b).
Proof.
  intros ->. destruct b; cbn [complain]; constructor; [|constructor].
  exists rest. unfold heading. rewrite <- app_assoc. reflexivity.
Qed.

Lemma complain_length tail idx b : (length (complain tail idx b) <= 1)%nat.
Proof. destruct b; cbn; lia. Qed.

(** What the callback pushes for a question of the declared types. *)
Lemma validate_one_typed idx q :
  typed q ->
  exists m,
    validate_one idx q = Returns m
    /\ (m = [] <-> well_formed q)
    /\ Forall (fun x => heading idx `prefix_of` x) m
    /\ (length m <= 3)%nat.
Proof.
  intros (s & l & Ht & Hc & Hk). unfold validate_one. rewrite Ht, Hc.
  set (b1 := match trim s with [] => true | _ :: _ => false end).
  assert (E1 : text_is_empty (Some (JString s)) = Returns b1).
  { unfold text_is_empty. cbn [truthy]. destruct s as [|c s]; [reflexivity|reflexivity]. }
  assert (E2 : too_few_choices (Some (JArray l))
               = Returns (Z.of_nat (length l) <? 2)%Z) by reflexivity.
  rewrite E1, E2. cbn [andThen].
  assert (Hb1 : b1 = false <-> trim s <> []).
  { unfold b1. destruct (trim s); split; intros H; congruence. }
  assert (Hm : forall b3,
            (b3 = false <->
             (eq_correctChoice q = Some JNull
              \/ exists n z, eq_correctChoice q = Some (JNumber n)
                             /\ integer_of n = Some z
                             /\ (0 <= z < Z.of_nat (length l))%Z)) ->
            exists m,
              Returns (complain empty_text idx b1
                       ++ complain few_choices idx (Z.of_nat (length l) <? 2)%Z
                       ++ complain invalid_choice idx b3) = Returns m
              /\ (m = [] <-> well_formed q)
              /\ Forall (fun x => heading idx `prefix_of` x) m
              /\ (length m <= 3)%nat).
  { intros b3 Hb3. eexists. split; [reflexivity|]. split; [|split].
    - split.
      + intros H. apply app_eq_nil in H as [H1 H]. apply app_eq_nil in H as [H2 H3].
        apply complain_nil in H1, H2, H3. exists s, l.
        split; [exact Ht|]. split; [exact Hc|]. split; [apply Hb1; exact H1|].
        split; [apply Z.ltb_ge in H2; lia|]. apply Hb3. exact H3.
      + intros (s' & l' & Ht' & Hc' & Hs & Hl & Hk').
        rewrite Ht in Ht'. rewrite Hc in Hc'. inversion Ht'; inversion Hc'; subst s' l'.
        apply Hb1 in Hs. apply Hb3 in Hk'. rewrite Hs, Hk'.
        replace (Z.of_nat (length l) <? 2)%Z with false
          by (symmetry; apply Z.ltb_ge; lia).
        reflexivity.
    - repeat (apply Forall_app; split); eapply complain_heading; reflexivity.
    - rewrite !length_app.
      pose proof (complain_length empty_text idx b1).
      pose proof (complain_length few_choices idx (Z.of_nat (length l) <? 2)%Z).
      pose proof (complain_length invalid_choice idx b3). lia. }
  destruct Hk as [Hk|(n & z & Hk & Hz)]; rewrite Hk.
  - cbn [choice_is_invalid is_null andThen]. apply Hm. split; [auto|reflexivity].
  - unfold choice_is_invalid. cbn [is_null to_number]. rewrite Hz.
    cbn [andThen js_lt]. destruct (Z.ltb_spec z 0).
    + apply Hm. split; [discriminate|].
      intros [Hn|(n' & z' & Hn & Hz' & Hr)]; [rewrite Hk in Hn; discriminate|].
      rewrite Hk in Hn. inversion Hn; subst n'. rewrite Hz in Hz'. inversion Hz'. lia.
    + cbn [length_of andThen js_ge]. apply Hm. split.
      * intros Hge. apply Z.leb_gt in Hge. right. exists n, z. repeat split; auto.
      * intros [Hn|(n' & z' & Hn & Hz' & Hr)]; [rewrite Hk in Hn; discriminate|].
        rewrite Hk in Hn. inversion Hn; subst n'. rewrite Hz in Hz'. inversion Hz'.
        subst z'. apply Z.leb_gt. lia.
Qed.

Lemma validate_from_typed qs : forall idx,
  Forall typed qs ->
  exists errs,
    validate_from idx qs = Returns errs
    /\ (errs = [] <-> Forall well_formed qs)
    /\ (forall k q, qs !! k = Some q -> ~ well_formed q ->
        exists m, In m errs /\ heading (idx + k) `prefix_of` m)
    /\ (forall m, In m errs ->
        exists k q, qs !! k = Some q /\ ~ well_formed q
                    /\ heading (idx + k) `prefix_of` m)
    /\ (length errs <= 3 * length qs)%nat.
Proof.
  induction qs as [|q rest IH]; intros idx Hall.
  - exists []. split; [reflexivity|]. split; [split; auto|].
    split; [intros k q H; discriminate H|]. split; [intros m []|]. cbn. lia.
  - apply Forall_cons in Hall as [Hq Hall].
    destruct (validate_one_typed idx q Hq) as (m1 & E1 & Hn1 & Hl1 & Hc1).
    destruct (IH (S idx) Hall) as (m2 & E2 & Hn2 & Hto2 & Hfrom2 & Hc2).
    exists (m1 ++ m2). cbn [validate_from]. rewrite E1. cbn [andThen]. rewrite E2.
    cbn [andThen]. split; [reflexivity|]. split; [|split; [|split]].
    + split.
      * intros H. apply app_eq_nil in H as [H1 H2]. constructor;
          [apply Hn1; exact H1|apply Hn2; exact H2].
      * intros H. apply Forall_cons in H as [H1 H2].
        apply Hn1 in H1. apply Hn2 in H2. rewrite H1, H2. reflexivity.
    + intros k q' Hk Hnw. destruct k as [|k].
      * cbn in Hk. inversion Hk; subst q'.
        destruct m1 as [|x m1]; [exfalso; apply Hnw, Hn1; reflexivity|].
        exists x. split; [left; reflexivity|]. rewrite Nat.add_0_r.
        apply Forall_cons in Hl1 as [Hx _]. exact Hx.
      * cbn in Hk. destruct (Hto2 k q' Hk Hnw) as (m & Hin & Hp).
        exists m. split; [apply in_or_app; right; exact Hin|].
        replace (idx + S k)%nat with (S idx + k)%nat by lia. exact Hp.
    + intros m Hin. apply in_app_or in Hin as [Hin|Hin].
      * exists 0%nat, q. split; [reflexivity|]. split.
        -- intros Hw. apply Hn1 in Hw. subst m1. destruct Hin.
        -- rewrite Nat.add_0_r. rewrite Forall_forall in Hl1. apply Hl1.
           apply list_elem_of_In. exact Hin.
      * destruct (Hfrom2 m Hin) as (k & q' & Hk & Hnw & Hp).
        exists (S k), q'. split; [exact Hk|]. split; [exact Hnw|].
        replace (idx + S k)%nat with (S idx + k)%nat by lia. exact Hp.
    + rewrite length_app. cbn [length]. lia.
Qed.

(** X16.  On questions whose fields have the declared types (a string, an
    array, and [null] or a number that denotes an integer),
    [validateQuestions] returns, and its messages name exactly the
    questions that are not well formed, by their position counted from 1:
    the list is empty when and only when every question has a text with a
    visible character, two choices or more, and a correct choice that is
    [null] or an index of its choices; every question that is not so has
    a message, every message belongs to such a question, and there are at
    most three for each. *)
Theorem validate_typed_questions (qs : list ExtractedQuestion) :
  Forall typed qs ->
  exists errs,
    validateQuestions qs = Returns errs
    /\ (errs = [] <-> Forall well_formed qs)
    /\ (forall k q, qs !! k = Some q -> ~ well_formed q ->
        exists m, In m errs /\ heading k `prefix_of` m)
    /\ (forall m, In m errs ->
        exists k q, qs !! k = Some q /\ ~ well_formed q /\ heading k `prefix_of` m)
    /\ (length errs <= 3 * length qs)%nat.
Proof. intros H. exact (validate_from_typed qs 0 H). Qed.

Lemma validate_typed_questions_witness :
  exists errs,
    validateQuestions [sample_question [32] 0 2; sample_question [81] 5 2] = Returns errs
    /\ errs <> [].
Proof.
  destruct (validate_typed_questions [sample_question [32] 0 2; sample_question [81] 5 2])
    as (errs & E & Hnil & _).
  { repeat constructor; eexists _, _; repeat split; right; eexists _, _;
      split; reflexivity. }
  exists errs. split; [exact E|]. intros Hn. rewrite Hn in E. vm_compute in E.
  discriminate E.
Defined.

Lemma text_is_empty_cases t :
  (exists b, text_is_empty t = Returns b) \/ text_is_empty t = Raises TypeError.
Proof.
  unfold text_is_empty. destruct (truthy t); cbn [negb]; [|eauto].
  destruct t as [[]|]; eauto.
Qed.

Lemma lacks_choices_few c :
  c = None \/ c = Some JNull ->
  too_few_choices c = Returns true /\ length_of c = Raises TypeError.
Proof. intros [-> | ->]; split; reflexivity. Qed.

(** X17.  [validateQuestions] can itself fail.  A question without
    choices ([undefined] or [null]) whose correct choice is [undefined]
    or a number that is not negative makes the function raise a
    [TypeError], whatever the other questions are, when the questions
    before it have the declared types: the index is compared with the
    length of choices that are not there.  The same question with the
    correct choice [null] or a negative number raises nothing and is
    reported. *)
Theorem validate_raises_without_choices (pre rest : list ExtractedQuestion)
    (q : ExtractedQuestion) :
  Forall typed pre ->
  lacks_choices q ->
  (unchecked_choice q -> validateQuestions (pre ++ q :: rest) = Raises TypeError)
  /\ (forall s, eq_questionText q = Some (JString s) ->
      eq_correctChoice q = Some JNull
      \/ (exists n z, eq_correctChoice q = Some (JNumber n) /\ integer_of n = Some z
                      /\ (z < 0)%Z) ->
      exists errs, validate_one (length pre) q = Returns errs
                   /\ In (label (length pre) ++ few_choices) errs).
Proof.
  intros Hpre Hlack.
  destruct (lacks_choices_few _ Hlack) as [Hfew Hlen]. split.
  - intros Hun. unfold validateQuestions. generalize 0%nat.
    induction pre as [|p pre IH]; intros idx.
    + cbn [app validate_from]. unfold validate_one.
      destruct (text_is_empty_cases (eq_questionText q)) as [[b ->]| ->];
        [|reflexivity].
      cbn [andThen]. rewrite Hfew. cbn [andThen].
      assert (E : choice_is_invalid (eq_correctChoice q) (eq_choices q)
                  = Raises TypeError).
      { unfold choice_is_invalid.
        destruct Hun as [-> |(n & z & -> & Hz & Hpos)].
        - cbn [is_null to_number andThen js_lt]. rewrite Hlen. reflexivity.
        - cbn [is_null to_number]. rewrite Hz. cbn [andThen js_lt].
          replace (z <? 0)%Z with false by (symmetry; apply Z.ltb_ge; exact Hpos).
          rewrite Hlen. reflexivity. }
      rewrite E. reflexivity.
    + apply Forall_cons in Hpre as [Hp Hpre].
      destruct (validate_one_typed idx p Hp) as (m & E & _).
      cbn [app validate_from]. rewrite E. cbn [andThen].
      rewrite (IH Hpre (S idx)). reflexivity.
  - intros s Hs Hk. unfold validate_one. rewrite Hs, Hfew.
    assert (E1 : exists b, text_is_empty (Some (JString s)) = Returns b).
    { unfold text_is_empty. cbn [truthy]. destruct s; cbn [negb]; eauto. }
    destruct E1 as [b ->]. cbn [andThen].
    assert (E3 : exists b3, choice_is_invalid (eq_correctChoice q) (eq_choices q)
                            = Returns b3).
    { unfold choice_is_invalid. destruct Hk as [-> |(n & z & -> & Hz & Hneg)].
      - cbn [is_null]. eauto.
      - cbn [is_null to_number]. rewrite Hz. cbn [andThen js_lt].
        apply Z.ltb_lt in Hneg. rewrite Hneg. eauto. }
    destruct E3 as [b3 ->]. cbn [andThen]. eexists. split; [reflexivity|].
    apply in_or_app. right. apply in_or_app. left. left. reflexivity.
Qed.

Lemma validate_raises_without_choices_witness :
  validateQuestions [sample_question [81] 0 2; choiceless_question]
  = Raises TypeError.
Proof.
  destruct (validate_raises_without_choices [sample_question [81] 0 2] []
              choiceless_question) as [H _].
  - repeat constructor. eexists _, _. repeat split. right. eexists _, _.
    split; reflexivity.
  - left. reflexivity.
  - apply H. right. exists {| neg := false; mant := 1; exp10 := 0 |}, 1%Z.
    split; [reflexivity|]. split; [reflexivity|lia].
Defined.

(** ** The generator of the server *)





(** ** A fenced reply *)

Lemma tokens_junk_head c rest :
  junk c = true -> is_json_ws c = false -> tokens (c :: rest) = None.
Proof.
  intros Hj Hw. unfold tokens. rewrite lex_unfold.
  destruct (next_token (c :: rest)) as [r|] eqn:E; [|reflexivity].
  apply (next_token_junk c rest r Hj) in E. congruence.
Qed.

Lemma tokens_spaces_backtick ws rest :
  forallb is_js_space ws = true -> tokens (ws ++ c_backtick :: rest) = None.
Proof.
  induction ws as [|c ws IH]; intros H.
  - apply tokens_junk_head; reflexivity.
  - cbn [forallb] in H. apply andb_true_iff in H as [Hc H]. cbn [app].
    destruct (is_json_ws c) eqn:Ew.
    + rewrite tokens_cons_ws by exact Ew. apply IH, H.
    + apply tokens_junk_head; [apply js_space_junk; exact Hc|exact Ew].
Qed.

Lemma sanitize_fenced_json j ts ws0 ws1 :
  tokens j = Some ts -> forallb clean_token ts = true ->
  forallb is_js_space ws0 = true -> forallb is_js_space ws1 = true ->
  sanitizeJsonResponse (ws0 ++ (fence_json ++ j ++ fence) ++ ws1) = trim j.
Proof.
  intros Ht Hc H0 H1. unfold sanitizeJsonResponse.
  change (fence_json ++ j ++ fence) with (fence ++ (tag_json ++ j) ++ fence).
  rewrite trim_fenced by assumption.
  change (fence ++ (tag_json ++ j) ++ fence) with (fence_json ++ j ++ fence).
  rewrite strip_fences_wrapped.
  apply tokens_trim in Ht. unfold tokens in Ht.
  apply (lex_scan _ _ _ None Ht Hc). discriminate.
Qed.

(** X19.  A valid JSON text that the model wraps in a json fence is
    accepted by [generateJson]: the wrapped text does not parse, the
    repair is called once, and the call returns the value of the text
    inside the fence.  This holds for every valid text in which no string
    literal has a backslash right before its closing quote, with any
    white space around the fence. *)
Theorem generateJson_accepts_fenced_json (w : World) (prompt : str) (s : Sys)
    (j ws0 ws1 : str) (v : json) (um : option UsageMetadata) :
  JSON_parse j = Some v ->
  closing_quotes_clean j = true ->
  forallb is_js_space ws0 = true ->
  forallb is_js_space ws1 = true ->
  let text := ws0 ++ (fence_json ++ j ++ fence) ++ ws1 in
  model w (calls s) (text_request prompt) = Response (Some text) um ->
  JSON_parse text = None
  /\ fst (generateJson w prompt s) = Ok (v, usage_of um)
  /\ trace (snd (generateJson w prompt s))
     = trace s ++ [EvModelCall (text_request prompt); EvRepair text].
Proof.
  intros Hv Hc H0 H1 text Hm.
  unfold JSON_parse, closing_quotes_clean in Hv, Hc.
  destruct (tokens j) as [ts|] eqn:Et; [|discriminate].
  assert (Hnone : JSON_parse text = None).
  { unfold JSON_parse, text.
    change ((fence_json ++ j ++ fence) ++ ws1)
      with (c_backtick :: ([96; 96] ++ tag_json ++ j ++ fence) ++ ws1).
    rewrite tokens_spaces_backtick by exact H0. reflexivity. }
  assert (Hs : JSON_parse (sanitizeJsonResponse text) = Some v).
  { unfold text. rewrite (sanitize_fenced_json j ts ws0 ws1 Et Hc H0 H1).
    unfold JSON_parse. rewrite (tokens_trim j ts Et). exact Hv. }
  split; [exact Hnone|].
  unfold text_request in *. unfold generateJson. run_m. rewrite Hm.
  cbv beta iota. cbn [text_of]. fold text. rewrite Hnone, Hs.
  cbn [fst snd trace]. rewrite <- app_assoc. split; reflexivity.
Qed.

Lemma generateJson_accepts_fenced_json_witness :
  fst (generateJson (constant_world fenced_empty_page) [] initSys)
  = Ok (JObject [(key_questions, JArray [])], zeroUsage).
Proof.
  destruct (generateJson_accepts_fenced_json (constant_world fenced_empty_page) []
              initSys ([10; 123; 34] ++ key_questions ++ [34; 58; 91; 93; 125; 10])
              [] [] (JObject [(key_questions, JArray [])]) no_usage
              eq_refl eq_refl eq_refl eq_refl eq_refl) as (_ & H & _).
  exact H.
Defined.

(** ** What is sent for the pages *)

(** Asked for one page, the rasterizer gives the image of that page, or
    nothing when the document has no such page. *)
Lemma convert_single_page p doc :
  sort_pages (collect_pages [p] 1 doc)
  = match image_of doc p with
    | Some img => [img]
    | None => []
    end.
Proof.
  rewrite sort_collect_pages.
  pose proof (collect_pages_map [p] doc 1) as Hm.
  pose proof (collect_pages_data [p] doc []) as Hd. cbn [app length] in Hd.
  change (Z.of_nat 1) with 1%Z in Hd.
  assert (E : List.filter (requested [p])
                (map (fun k => (1 + Z.of_nat k)%Z) (seq 0 (length doc)))
              = pages_from (Z.max p 1)
                  (Z.to_nat (Z.min p (Z.of_nat (length doc)) - Z.max p 1 + 1))).
  { assert (E1 : map (fun k => (1 + Z.of_nat k)%Z) (seq 0 (length doc))
                 = map Z.of_nat (seq 1 (length doc))).
    { rewrite <- seq_shift, map_map. apply map_ext. intros k. lia. }
    rewrite E1.
    rewrite (filter_ext (requested [p]) (in_range p p)).
    - rewrite filter_in_range. f_equal. lia.
    - intros x. unfold requested, in_range. cbn [existsb]. rewrite orb_false_r.
      destruct (Z.eqb_spec x p); destruct (Z.leb_spec p x); destruct (Z.leb_spec x p);
        cbn; try reflexivity; lia. }
  rewrite E in Hm. clear E.
  unfold image_of in *.
  destruct (Z.leb_spec 1 p) as [H1|H1].
  - destruct (doc !! Z.to_nat (p - 1)) as [image|] eqn:El.
    + pose proof (lookup_lt_Some _ _ _ El) as Hlt.
      replace (Z.to_nat (Z.min p (Z.of_nat (length doc)) - Z.max p 1 + 1)) with 1%nat
        in Hm by lia.
      replace (Z.max p 1) with p in Hm by lia. cbn [pages_from] in Hm.
      destruct (collect_pages [p] 1 doc) as [|img [|img2 l]]; try discriminate Hm.
      cbn [map] in Hm. injection Hm as Hp.
      apply Forall_cons in Hd as [Hd _]. rewrite Hp in Hd.
      replace (1 <=? p)%Z with true in Hd by (symmetry; apply Z.leb_le; lia).
      rewrite El in Hd. cbn in Hd |- *. injection Hd as <-. reflexivity.
    + apply lookup_ge_None in El.
      replace (Z.to_nat (Z.min p (Z.of_nat (length doc)) - Z.max p 1 + 1)) with O
        in Hm by lia.
      cbn [pages_from] in Hm.
      destruct (collect_pages [p] 1 doc); [reflexivity|discriminate Hm].
  - replace (Z.to_nat (Z.min p (Z.of_nat (length doc)) - Z.max p 1 + 1)) with O
      in Hm by lia.
    cbn [pages_from] in Hm.
    destruct (collect_pages [p] 1 doc); [reflexivity|discriminate Hm].
Qed.

Lemma page_body_sends w startPage totalPages cb acc p s acc' s' :
  page_body w startPage totalPages cb acc p s = (Ok acc', s') ->
  exists evs,
    trace s' = trace s ++ evs
    /\ reads s' = S (reads s)
    /\ page_found w (reads s) p 0 <> None
    /\ requests_of evs = option_list (page_request w (reads s) p 0)
    /\ warned_of evs = option_list (page_warning w (reads s) p 0).
Proof.
  unfold page_body, page_request, page_warning, page_found.
  rewrite Nat.add_0_r, Z.add_0_r.
  unfold bind at 1. rewrite convert_run.
  destruct (pdf w (reads s)) as [doc|e]; [|discriminate].
  rewrite convert_single_page.
  destruct (image_of doc p) as [img|].
  - unfold bind at 1.
    match goal with
    | |- context [extractQuestionsFromPage w img ?s0] =>
        destruct (extractQuestionsFromPage w img s0) as [[pr|e] s2] eqn:Ee;
        [|discriminate]
    end.
    destruct (extract_ok _ _ _ _ _ Ee) as (_ & Hr & _ & _ & Ht).
    cbn [reads trace] in Hr, Ht.
    destruct cb; run_m; intros H; inversion H; subst; cbn [reads trace].
    + eexists. split; [rewrite Ht, <- !app_assoc; reflexivity|].
      split; [exact Hr|]. split; [discriminate|]. split; reflexivity.
    + eexists. split; [rewrite Ht, <- !app_assoc; reflexivity|].
      split; [exact Hr|]. split; [discriminate|]. split; reflexivity.
  - run_m. intros H. inversion H; subst. cbn [reads trace].
    eexists. split; [reflexivity|]. split; [reflexivity|].
    split; [discriminate|]. split; reflexivity.
Qed.

Lemma page_found_shift w reads0 startPage k :
  page_found w reads0 startPage (S k) = page_found w (S reads0) (startPage + 1) k.
Proof.
  unfold page_found. replace (reads0 + S k)%nat with (S reads0 + k)%nat by lia.
  replace (startPage + Z.of_nat (S k))%Z with (startPage + 1 + Z.of_nat k)%Z by lia.
  reflexivity.
Qed.

Lemma omap_cons_case {A B} (f : A -> option B) x l :
  omap f (x :: l) = match f x with Some y => y :: omap f l | None => omap f l end.
Proof. reflexivity. Qed.

Lemma omap_seq_shift {A} (f g : nat -> option A) n : forall i,
  (forall k, f (S k) = g k) -> omap f (seq (S i) n) = omap g (seq i n).
Proof.
  induction n as [|n IH]; intros i H; [reflexivity|].
  cbn. rewrite H, <- (IH (S i) H). reflexivity.
Qed.

Lemma for_pages_sends w startPage totalPages cb : forall n p acc s acc' s',
  for_pages (page_body w startPage totalPages cb) n p acc s = (Ok acc', s') ->
  exists evs,
    trace s' = trace s ++ evs
    /\ Forall (fun k => page_found w (reads s) p k <> None) (seq 0 n)
    /\ requests_of evs = omap (page_request w (reads s) p) (seq 0 n)
    /\ warned_of evs = omap (page_warning w (reads s) p) (seq 0 n).
Proof.
  induction n as [|n IH]; intros p acc s acc' s' H.
  - cbn in H. inversion H; subst. exists []. rewrite app_nil_r.
    repeat split; constructor.
  - cbn [for_pages] in H. unfold bind in H.
    destruct (page_body w startPage totalPages cb acc p s) as [[acc1|e] s1] eqn:Eb;
      [|discriminate].
    destruct (page_body_sends _ _ _ _ _ _ _ _ _ Eb) as (evs1 & Ht1 & Hr1 & Hf1 & Hq1 & Hw1).
    destruct (IH _ _ _ _ _ H) as (evs2 & Ht2 & Hf2 & Hq2 & Hw2).
    rewrite Hr1 in Hf2, Hq2, Hw2.
    exists (evs1 ++ evs2). rewrite Ht2, Ht1, <- app_assoc.
    rewrite requests_of_app, warned_of_app, Hq1, Hw1, Hq2, Hw2.
    split; [reflexivity|]. cbn [seq]. split; [|split].
    + constructor; [exact Hf1|]. rewrite <- seq_shift. apply Forall_map.
      eapply Forall_impl; [exact Hf2|]. cbn. intros k Hk.
      rewrite page_found_shift. exact Hk.
    + rewrite omap_cons_case.
      rewrite (omap_seq_shift (page_request w (reads s) p)
                 (page_request w (S (reads s)) (p + 1))).
      * destruct (page_request w (reads s) p 0); reflexivity.
      * intros k. unfold page_request. rewrite page_found_shift. reflexivity.
    + rewrite omap_cons_case.
      rewrite (omap_seq_shift (page_warning w (reads s) p)
                 (page_warning w (S (reads s)) (p + 1))).
      * destruct (page_warning w (reads s) p 0); reflexivity.
      * intros k. unfold page_warning. rewrite page_found_shift.
        replace (p + Z.of_nat (S k))%Z with (p + 1 + Z.of_nat k)%Z by lia.
        reflexivity.
Qed.

(** X20.  What a range run that returns has sent.  For every page of the
    range, in order, the file is read anew, and the reading succeeds.
    When that reading has the page, one request goes out with the
    extraction prompt and the image of that page, as image/png, and
    nothing else; when it has not, the page is warned about and nothing
    is sent.  The requests and the warnings of the run are exactly
    these, in page order. *)
Theorem extraction_requests (w : World) (startPage endPage : Z) (cb : bool)
    (s : Sys) (r : PaperExtractionResult) (s' : Sys) :
  extractQuestionsFromPages w startPage endPage cb s = (Ok r, s') ->
  let turns := seq 0 (Z.to_nat (endPage - startPage + 1)) in
  exists evs,
    trace s' = trace s ++ evs
    /\ Forall (fun k => page_found w (reads s) startPage k <> None) turns
    /\ requests_of evs = omap (page_request w (reads s) startPage) turns
    /\ warned_of evs = omap (page_warning w (reads s) startPage) turns.
Proof.
  unfold extractQuestionsFromPages. unfold bind, ret. intros H.
  destruct (for_pages _ _ _ _ s) as [[acc|e] s1] eqn:Ef; [|discriminate].
  inversion H; subst r s'. clear H.
  exact (for_pages_sends _ _ _ _ _ _ _ _ _ _ Ef).
Qed.

Lemma extraction_requests_witness :
  exists r s' evs,
    extractQuestionsFromPages (paged_world 2) 1 3 true initSys = (Ok r, s')
    /\ trace s' = trace initSys ++ evs
    /\ requests_of evs
       = [images_request [] [([112], image_png)]; images_request [] [([112], image_png)]]
    /\ warned_of evs = [3%Z].
Proof.
  assert (Hrun : exists r s',
             extractQuestionsFromPages (paged_world 2) 1 3 true initSys = (Ok r, s'))
    by (eexists _, _; vm_compute; reflexivity).
  destruct Hrun as (r & s' & Hrun).
  destruct (extraction_requests _ _ _ _ _ _ _ Hrun) as (evs & Ht & _ & Hq & Hw).
  exists r, s', evs. split; [exact Hrun|]. split; [exact Ht|].
  split; [exact Hq|exact Hw].
Defined.
